(** * SuperNeuroMAT: the LIF/STDP simulation engine of [NeuromorphicModel]

    A shallow embedding of [superneuromat/neuromorphicmodel.py] and
    [superneuromat/numba_jit.py], and the properties of the engine that
    the specification states about them.

    Conventions of the embedding.
    - [np.float64] values are the type [num]: exact rationals extended
      with [+inf], [-inf] and [nan], combined by the IEEE 754 rules for
      special values.  Rounding of finite results, overflow of finite
      operations and the sign of zero are not represented.
    - numpy vectors are lists, matrices are lists of rows
      ([W[pre][post]] is row [pre], column [post]).
    - a method of the class is a function from the model to an outcome
      and the model it leaves behind; an exception keeps every mutation
      of the lists of the model that happened before it was raised.
    - the dense arrays [_setup] creates are one record, absent before
      the first setup and after [release_mem].  [_setup] and
      [setup_input_spikes] write it in one step: the arrays such a call
      leaves when it raises part-way are not represented, and a
      statement about a call that fails there speaks of its outcome
      and of the other attributes only.
    - numpy raises [ValueError] on operands whose shapes do not match,
      where the list operations of the embedding truncate: the
      embedding is exact for arrays of one shape. *)

From Stdlib Require Import ZArith QArith Qcanon Lia Ascii.
From stdpp Require Import base numbers list option gmap strings.

Local Open Scope Z_scope.

(** ** float64 as extended exact rationals *)

Inductive num : Type :=
  | Fin (q : Qc)
  | PInf
  | NInf
  | NaN.

#[global] Instance num_eq_dec : EqDecision num.
Proof. solve_decision. Defined.

Definition of_Z (z : Z) : num := Fin (Qc_of_Z z).
Definition zero : num := of_Z 0.
Definition one : num := of_Z 1.

Definition Qc_sgn (q : Qc) : comparison := (q ?= 0)%Qc.

Module Num.

Definition neg (x : num) : num :=
  match x with
  | Fin q => Fin (- q)%Qc
  | PInf => NInf
  | NInf => PInf
  | NaN => NaN
  end.

Definition add (x y : num) : num :=
  match x, y with
  | NaN, _ | _, NaN => NaN
  | Fin a, Fin b => Fin (a + b)%Qc
  | PInf, NInf | NInf, PInf => NaN
  | PInf, _ | _, PInf => PInf
  | NInf, _ | _, NInf => NInf
  end.

Definition sub (x y : num) : num := add x (neg y).

(** [inf * 0] is [nan]; otherwise the sign of an infinite product is
    the product of the signs. *)
Definition mul_inf (pos : bool) (q : Qc) : num :=
  match Qc_sgn q with
  | Eq => NaN
  | Gt => if pos then PInf else NInf
  | Lt => if pos then NInf else PInf
  end.

Definition mul (x y : num) : num :=
  match x, y with
  | NaN, _ | _, NaN => NaN
  | Fin a, Fin b => Fin (a * b)%Qc
  | PInf, Fin b => mul_inf true b
  | NInf, Fin b => mul_inf false b
  | Fin a, PInf => mul_inf true a
  | Fin a, NInf => mul_inf false a
  | PInf, PInf | NInf, NInf => PInf
  | PInf, NInf | NInf, PInf => NInf
  end.

(** [x < y]; every comparison with [nan] is false. *)
Definition ltb (x y : num) : bool :=
  match x, y with
  | NaN, _ | _, NaN => false
  | Fin a, Fin b => bool_decide (a < b)%Qc
  | NInf, NInf | PInf, _ => false
  | NInf, _ => true
  | Fin _, PInf => true
  | Fin _, NInf => false
  end.

Definition gtb (x y : num) : bool := ltb y x.

(** [x == y] *)
Definition eqb (x y : num) : bool :=
  match x, y with
  | NaN, _ | _, NaN => false
  | _, _ => bool_decide (x = y)
  end.

(** [np.maximum] and [np.minimum] propagate [nan]. *)
Definition maximum (x y : num) : num :=
  match x, y with
  | NaN, _ | _, NaN => NaN
  | _, _ => if ltb x y then y else x
  end.

Definition minimum (x y : num) : num :=
  match x, y with
  | NaN, _ | _, NaN => NaN
  | _, _ => if ltb y x then y else x
  end.

(** Truth value of a float: everything but zero, [nan] included. *)
Definition truthy (x : num) : bool := negb (bool_decide (x = zero)).

Definition is_finite (x : num) : Prop :=
  match x with Fin _ => True | _ => False end.

End Num.

Declare Scope num_scope.
Delimit Scope num_scope with num.
Bind Scope num_scope with num.
Infix "+" := Num.add : num_scope.
Infix "-" := Num.sub : num_scope.
Infix "*" := Num.mul : num_scope.

(** ** Python values and exceptions *)

(** The argument values the validation code tells apart: [int], [float]
    and, as the representative of every other type, [None]. *)
Inductive pyval : Type :=
  | PInt (z : Z)
  | PFloat (x : num)
  | PNone.

Inductive exn : Type :=
  | TypeError
  | ValueError
  | IndexError
  | OverflowError
  | AssertionError
  | AttributeError
  | ImportError
  | RecursionError
  | CudaSupportError.

Inductive outcome (A : Type) : Type :=
  | Ret (a : A)
  | Raise (e : exn).
Arguments Ret {A} a.
Arguments Raise {A} e.

#[global] Instance exn_eq_dec : EqDecision exn.
Proof. solve_decision. Defined.

Definition obind {A B} (o : outcome A) (k : A → outcome B) : outcome B :=
  match o with
  | Ret a => k a
  | Raise e => Raise e
  end.

(** [isinstance(x, (int, float))] *)
Definition isinstance_int_float (v : pyval) : bool :=
  match v with
  | PInt _ | PFloat _ => true
  | PNone => false
  end.

(** [isinstance(x, int)] *)
Definition isinstance_int (v : pyval) : bool :=
  match v with
  | PInt _ => true
  | _ => false
  end.

Definition Qc_trunc (q : Qc) : Z := Z.quot (Qnum q) (Zpos (Qden q)).

(** [int(x)]: truncation toward zero for a float. *)
Definition py_int (v : pyval) : outcome Z :=
  match v with
  | PInt z => Ret z
  | PFloat (Fin q) => Ret (Qc_trunc q)
  | PFloat NaN => Raise ValueError
  | PFloat _ => Raise OverflowError
  | PNone => Raise TypeError
  end.

(** [float(x)], for an [int] that a double can hold: the
    [OverflowError] of a larger one is not represented. *)
Definition py_float (v : pyval) : outcome num :=
  match v with
  | PInt z => Ret (of_Z z)
  | PFloat x => Ret x
  | PNone => Raise TypeError
  end.

(** [x == y] between a Python value and an [int]. *)
Definition py_eq_int (v : pyval) (z : Z) : bool :=
  match v with
  | PInt a => bool_decide (a = z)
  | PFloat x => Num.eqb x (of_Z z)
  | PNone => false
  end.

(** [x < 0.0] for a value that passed [isinstance(x, (int, float))]. *)
Definition py_lt_zero (v : pyval) : bool :=
  match v with
  | PInt a => bool_decide (a < 0)
  | PFloat x => Num.ltb x zero
  | PNone => false
  end.

(** <<
    def is_intlike(x):
        if isinstance(x, int):
            return True
        else:
            return x == int(x)
    >> *)
Definition is_intlike (x : pyval) : outcome bool :=
  if isinstance_int x then Ret true
  else obind (py_int x) (λ i, Ret (py_eq_int x i)).

(** ** The model object *)

(** One entry of [input_spikes]: [{"nids": [...], "values": [...]}]. *)
Record spikes_dict : Type := SpikesDict {
  nids : list Z;
  values : list num;
}.

#[global] Instance spikes_dict_eq_dec : EqDecision spikes_dict.
Proof. solve_decision. Defined.

(** The dense arrays [_setup] derives from the lists of the model (the
    attributes whose names start with an underscore). *)
Record Arrays : Type := MkArrays {
  _neuron_thresholds : list num;
  _neuron_leaks : list num;
  _neuron_reset_states : list num;
  _neuron_refractory_periods_original : list num;
  _internal_states : list num;
  _neuron_refractory_periods : list num;
  _weights : list (list num);
  _do_positive_update : bool;
  _do_negative_update : bool;
  _do_stdp : bool;
  _stdp_enabled_synapses : list (list Z);
  _input_spikes : list (list num);
  _spikes : list Z;
}.

Record NeuromorphicModel : Type := MkModel {
  neuron_thresholds : list num;
  neuron_leaks : list num;
  neuron_states : list num;
  neuron_reset_states : list num;
  neuron_refractory_periods : list Z;
  neuron_refractory_periods_state : list num;
  pre_synaptic_neuron_ids : list Z;
  post_synaptic_neuron_ids : list Z;
  synaptic_weights : list num;
  synaptic_delays : list Z;
  enable_stdp : list bool;
  input_spikes : gmap Z spikes_dict;
  spike_train : list (list Z);
  stdp : bool;
  _stdp_Apos : list num;
  _stdp_Aneg : list num;
  stdp_positive_update : bool;
  stdp_negative_update : bool;
  _backend : string;
  _last_used_backend : option string;
  manual_setup : bool;
  _arrays : option Arrays;
}.

(** <<__init__>> *)
Definition init : NeuromorphicModel := {|
  neuron_thresholds := [];
  neuron_leaks := [];
  neuron_states := [];
  neuron_reset_states := [];
  neuron_refractory_periods := [];
  neuron_refractory_periods_state := [];
  pre_synaptic_neuron_ids := [];
  post_synaptic_neuron_ids := [];
  synaptic_weights := [];
  synaptic_delays := [];
  enable_stdp := [];
  input_spikes := ∅;
  spike_train := [];
  stdp := true;
  _stdp_Apos := [];
  _stdp_Aneg := [];
  stdp_positive_update := true;
  stdp_negative_update := true;
  _backend := "auto";
  _last_used_backend := None;
  manual_setup := false;
  _arrays := None;
|}.

(** [num_neurons] and [num_synapses] are properties computed from the
    lists. *)
Definition num_neurons (m : NeuromorphicModel) : nat :=
  length (neuron_thresholds m).
Definition num_synapses (m : NeuromorphicModel) : nat :=
  length (pre_synaptic_neuron_ids m).

(** ** Methods: a state and exception monad over the model *)

Definition M (A : Type) : Type :=
  NeuromorphicModel → outcome A * NeuromorphicModel.

Definition ret {A} (a : A) : M A := λ m, (Ret a, m).
Definition raise {A} (e : exn) : M A := λ m, (Raise e, m).
Definition bind {A B} (c : M A) (k : A → M B) : M B :=
  λ m, match c m with
       | (Ret a, m') => k a m'
       | (Raise e, m') => (Raise e, m')
       end.
Definition get : M NeuromorphicModel := λ m, (Ret m, m).
Definition gets {A} (f : NeuromorphicModel → A) : M A := λ m, (Ret (f m), m).
Definition modify (f : NeuromorphicModel → NeuromorphicModel) : M unit :=
  λ m, (Ret tt, f m).
Definition lift {A} (o : outcome A) : M A := λ m, (o, m).

Notation "'do' x <- c ; k" := (bind c (λ x, k))
  (at level 10, x name, c at level 100, k at level 200,
   format "'[v' 'do'  x  <-  c ; '/' k ']'").
Notation "'do_' c ; k" := (bind c (λ _, k))
  (at level 10, c at level 100, k at level 200,
   format "'[v' 'do_'  c ; '/' k ']'").

(** [if cond: raise e] *)
Definition raise_if (cond : bool) (e : exn) : M unit :=
  if cond then raise e else ret tt.

(** [for _ in range(n): body], threading the loop variables [a]. *)
Fixpoint for_range {A} (n : nat) (body : A → M A) (a : A) : M A :=
  match n with
  | O => ret a
  | S n' => do a' <- body a; for_range n' body a'
  end.

(** ** Building the network *)

(** The keyword arguments of [create_neuron] with their defaults
    ([threshold=0.0, leak=np.inf, reset_state=0.0, refractory_period=0,
    refractory_state=0, initial_state=0.0]). *)
Record neuron_kwargs : Type := NeuronKwargs {
  threshold : pyval;
  leak : pyval;
  reset_state : pyval;
  refractory_period : pyval;
  refractory_state : pyval;
  initial_state : pyval;
}.

Definition neuron_defaults : neuron_kwargs := {|
  threshold := PFloat zero;
  leak := PFloat PInf;
  reset_state := PFloat zero;
  refractory_period := PInt 0;
  refractory_state := PInt 0;
  initial_state := PFloat zero;
|}.

(** Attribute assignment, [self.field = v]. *)
Definition set_neuron_thresholds v (m : NeuromorphicModel) : NeuromorphicModel :=
  MkModel
    v (neuron_leaks m) (neuron_states m) (neuron_reset_states m)
    (neuron_refractory_periods m) (neuron_refractory_periods_state m)
    (pre_synaptic_neuron_ids m) (post_synaptic_neuron_ids m)
    (synaptic_weights m) (synaptic_delays m) (enable_stdp m)
    (input_spikes m) (spike_train m) (stdp m) (_stdp_Apos m) (_stdp_Aneg m)
    (stdp_positive_update m) (stdp_negative_update m) (_backend m)
    (_last_used_backend m) (manual_setup m) (_arrays m).
Definition set_neuron_leaks v (m : NeuromorphicModel) : NeuromorphicModel :=
  MkModel
    (neuron_thresholds m) v (neuron_states m) (neuron_reset_states m)
    (neuron_refractory_periods m) (neuron_refractory_periods_state m)
    (pre_synaptic_neuron_ids m) (post_synaptic_neuron_ids m)
    (synaptic_weights m) (synaptic_delays m) (enable_stdp m)
    (input_spikes m) (spike_train m) (stdp m) (_stdp_Apos m) (_stdp_Aneg m)
    (stdp_positive_update m) (stdp_negative_update m) (_backend m)
    (_last_used_backend m) (manual_setup m) (_arrays m).
Definition set_neuron_states v (m : NeuromorphicModel) : NeuromorphicModel :=
  MkModel
    (neuron_thresholds m) (neuron_leaks m) v (neuron_reset_states m)
    (neuron_refractory_periods m) (neuron_refractory_periods_state m)
    (pre_synaptic_neuron_ids m) (post_synaptic_neuron_ids m)
    (synaptic_weights m) (synaptic_delays m) (enable_stdp m)
    (input_spikes m) (spike_train m) (stdp m) (_stdp_Apos m) (_stdp_Aneg m)
    (stdp_positive_update m) (stdp_negative_update m) (_backend m)
    (_last_used_backend m) (manual_setup m) (_arrays m).
Definition set_neuron_reset_states v (m : NeuromorphicModel) : NeuromorphicModel :=
  MkModel
    (neuron_thresholds m) (neuron_leaks m) (neuron_states m) v
    (neuron_refractory_periods m) (neuron_refractory_periods_state m)
    (pre_synaptic_neuron_ids m) (post_synaptic_neuron_ids m)
    (synaptic_weights m) (synaptic_delays m) (enable_stdp m)
    (input_spikes m) (spike_train m) (stdp m) (_stdp_Apos m) (_stdp_Aneg m)
    (stdp_positive_update m) (stdp_negative_update m) (_backend m)
    (_last_used_backend m) (manual_setup m) (_arrays m).
Definition set_neuron_refractory_periods v (m : NeuromorphicModel) : NeuromorphicModel :=
  MkModel
    (neuron_thresholds m) (neuron_leaks m) (neuron_states m)
    (neuron_reset_states m) v (neuron_refractory_periods_state m)
    (pre_synaptic_neuron_ids m) (post_synaptic_neuron_ids m)
    (synaptic_weights m) (synaptic_delays m) (enable_stdp m)
    (input_spikes m) (spike_train m) (stdp m) (_stdp_Apos m) (_stdp_Aneg m)
    (stdp_positive_update m) (stdp_negative_update m) (_backend m)
    (_last_used_backend m) (manual_setup m) (_arrays m).
Definition set_neuron_refractory_periods_state v (m : NeuromorphicModel) : NeuromorphicModel :=
  MkModel
    (neuron_thresholds m) (neuron_leaks m) (neuron_states m)
    (neuron_reset_states m) (neuron_refractory_periods m) v
    (pre_synaptic_neuron_ids m) (post_synaptic_neuron_ids m)
    (synaptic_weights m) (synaptic_delays m) (enable_stdp m)
    (input_spikes m) (spike_train m) (stdp m) (_stdp_Apos m) (_stdp_Aneg m)
    (stdp_positive_update m) (stdp_negative_update m) (_backend m)
    (_last_used_backend m) (manual_setup m) (_arrays m).
Definition set_synaptic_weights v (m : NeuromorphicModel) : NeuromorphicModel :=
  MkModel
    (neuron_thresholds m) (neuron_leaks m) (neuron_states m)
    (neuron_reset_states m) (neuron_refractory_periods m)
    (neuron_refractory_periods_state m) (pre_synaptic_neuron_ids m)
    (post_synaptic_neuron_ids m) v (synaptic_delays m) (enable_stdp m)
    (input_spikes m) (spike_train m) (stdp m) (_stdp_Apos m) (_stdp_Aneg m)
    (stdp_positive_update m) (stdp_negative_update m) (_backend m)
    (_last_used_backend m) (manual_setup m) (_arrays m).
Definition set_input_spikes v (m : NeuromorphicModel) : NeuromorphicModel :=
  MkModel
    (neuron_thresholds m) (neuron_leaks m) (neuron_states m)
    (neuron_reset_states m) (neuron_refractory_periods m)
    (neuron_refractory_periods_state m) (pre_synaptic_neuron_ids m)
    (post_synaptic_neuron_ids m) (synaptic_weights m) (synaptic_delays m)
    (enable_stdp m) v (spike_train m) (stdp m) (_stdp_Apos m)
    (_stdp_Aneg m) (stdp_positive_update m) (stdp_negative_update m)
    (_backend m) (_last_used_backend m) (manual_setup m) (_arrays m).
Definition set_spike_train v (m : NeuromorphicModel) : NeuromorphicModel :=
  MkModel
    (neuron_thresholds m) (neuron_leaks m) (neuron_states m)
    (neuron_reset_states m) (neuron_refractory_periods m)
    (neuron_refractory_periods_state m) (pre_synaptic_neuron_ids m)
    (post_synaptic_neuron_ids m) (synaptic_weights m) (synaptic_delays m)
    (enable_stdp m) (input_spikes m) v (stdp m) (_stdp_Apos m)
    (_stdp_Aneg m) (stdp_positive_update m) (stdp_negative_update m)
    (_backend m) (_last_used_backend m) (manual_setup m) (_arrays m).
Definition set_stdp_Apos v (m : NeuromorphicModel) : NeuromorphicModel :=
  MkModel
    (neuron_thresholds m) (neuron_leaks m) (neuron_states m)
    (neuron_reset_states m) (neuron_refractory_periods m)
    (neuron_refractory_periods_state m) (pre_synaptic_neuron_ids m)
    (post_synaptic_neuron_ids m) (synaptic_weights m) (synaptic_delays m)
    (enable_stdp m) (input_spikes m) (spike_train m) (stdp m) v
    (_stdp_Aneg m) (stdp_positive_update m) (stdp_negative_update m)
    (_backend m) (_last_used_backend m) (manual_setup m) (_arrays m).
Definition set_stdp_Aneg v (m : NeuromorphicModel) : NeuromorphicModel :=
  MkModel
    (neuron_thresholds m) (neuron_leaks m) (neuron_states m)
    (neuron_reset_states m) (neuron_refractory_periods m)
    (neuron_refractory_periods_state m) (pre_synaptic_neuron_ids m)
    (post_synaptic_neuron_ids m) (synaptic_weights m) (synaptic_delays m)
    (enable_stdp m) (input_spikes m) (spike_train m) (stdp m)
    (_stdp_Apos m) v (stdp_positive_update m) (stdp_negative_update m)
    (_backend m) (_last_used_backend m) (manual_setup m) (_arrays m).
Definition set_last_used_backend v (m : NeuromorphicModel) : NeuromorphicModel :=
  MkModel
    (neuron_thresholds m) (neuron_leaks m) (neuron_states m)
    (neuron_reset_states m) (neuron_refractory_periods m)
    (neuron_refractory_periods_state m) (pre_synaptic_neuron_ids m)
    (post_synaptic_neuron_ids m) (synaptic_weights m) (synaptic_delays m)
    (enable_stdp m) (input_spikes m) (spike_train m) (stdp m)
    (_stdp_Apos m) (_stdp_Aneg m) (stdp_positive_update m)
    (stdp_negative_update m) (_backend m) v (manual_setup m) (_arrays m).
Definition set_arrays v (m : NeuromorphicModel) : NeuromorphicModel :=
  MkModel
    (neuron_thresholds m) (neuron_leaks m) (neuron_states m)
    (neuron_reset_states m) (neuron_refractory_periods m)
    (neuron_refractory_periods_state m) (pre_synaptic_neuron_ids m)
    (post_synaptic_neuron_ids m) (synaptic_weights m) (synaptic_delays m)
    (enable_stdp m) (input_spikes m) (spike_train m) (stdp m)
    (_stdp_Apos m) (_stdp_Aneg m) (stdp_positive_update m)
    (stdp_negative_update m) (_backend m) (_last_used_backend m)
    (manual_setup m) v.
Definition set_arr_internal_states v (a : Arrays) : Arrays :=
  MkArrays
    (_neuron_thresholds a) (_neuron_leaks a) (_neuron_reset_states a)
    (_neuron_refractory_periods_original a) v
    (_neuron_refractory_periods a) (_weights a) (_do_positive_update a)
    (_do_negative_update a) (_do_stdp a) (_stdp_enabled_synapses a)
    (_input_spikes a) (_spikes a).
Definition set_arr_neuron_refractory_periods v (a : Arrays) : Arrays :=
  MkArrays
    (_neuron_thresholds a) (_neuron_leaks a) (_neuron_reset_states a)
    (_neuron_refractory_periods_original a) (_internal_states a) v
    (_weights a) (_do_positive_update a) (_do_negative_update a)
    (_do_stdp a) (_stdp_enabled_synapses a) (_input_spikes a) (_spikes a).
Definition set_arr_weights v (a : Arrays) : Arrays :=
  MkArrays
    (_neuron_thresholds a) (_neuron_leaks a) (_neuron_reset_states a)
    (_neuron_refractory_periods_original a) (_internal_states a)
    (_neuron_refractory_periods a) v (_do_positive_update a)
    (_do_negative_update a) (_do_stdp a) (_stdp_enabled_synapses a)
    (_input_spikes a) (_spikes a).
Definition set_arr_input_spikes v (a : Arrays) : Arrays :=
  MkArrays
    (_neuron_thresholds a) (_neuron_leaks a) (_neuron_reset_states a)
    (_neuron_refractory_periods_original a) (_internal_states a)
    (_neuron_refractory_periods a) (_weights a) (_do_positive_update a)
    (_do_negative_update a) (_do_stdp a) (_stdp_enabled_synapses a) v
    (_spikes a).
Definition set_arr_spikes v (a : Arrays) : Arrays :=
  MkArrays
    (_neuron_thresholds a) (_neuron_leaks a) (_neuron_reset_states a)
    (_neuron_refractory_periods_original a) (_internal_states a)
    (_neuron_refractory_periods a) (_weights a) (_do_positive_update a)
    (_do_negative_update a) (_do_stdp a) (_stdp_enabled_synapses a)
    (_input_spikes a) v.

(** [self.<list>.append(x)] for the lists [create_neuron] grows. *)
Definition append_threshold (x : num) (m : NeuromorphicModel) :=
  set_neuron_thresholds (neuron_thresholds m ++ [x]) m.
Definition append_leak (x : num) (m : NeuromorphicModel) :=
  set_neuron_leaks (neuron_leaks m ++ [x]) m.
Definition append_reset_state (x : num) (m : NeuromorphicModel) :=
  set_neuron_reset_states (neuron_reset_states m ++ [x]) m.
Definition append_refractory_period (z : Z) (m : NeuromorphicModel) :=
  set_neuron_refractory_periods (neuron_refractory_periods m ++ [z]) m.
Definition append_refractory_state (x : num) (m : NeuromorphicModel) :=
  set_neuron_refractory_periods_state
    (neuron_refractory_periods_state m ++ [x]) m.
Definition append_state (x : num) (m : NeuromorphicModel) :=
  set_neuron_states (neuron_states m ++ [x]) m.

(** The five appends of the [delay == 1] branch of [create_synapse]. *)
Definition append_synapse (pre post : Z) (w : num) (d : Z) (s : bool)
    (m : NeuromorphicModel) :=
  MkModel (neuron_thresholds m) (neuron_leaks m) (neuron_states m)
    (neuron_reset_states m) (neuron_refractory_periods m)
    (neuron_refractory_periods_state m) (pre_synaptic_neuron_ids m ++ [pre])
    (post_synaptic_neuron_ids m ++ [post]) (synaptic_weights m ++ [w])
    (synaptic_delays m ++ [d]) (enable_stdp m ++ [s]) (input_spikes m)
    (spike_train m) (stdp m) (_stdp_Apos m)
    (_stdp_Aneg m) (stdp_positive_update m) (stdp_negative_update m)
    (_backend m) (_last_used_backend m) (manual_setup m) (_arrays m).

(** [create_neuron]: the type and range checks, then six appends, in
    the order of the source.  [reset_state] is converted by
    [float(reset_state)] at its append and is not checked before. *)
Definition create_neuron (kw : neuron_kwargs) : M Z :=
  do_ raise_if (negb (isinstance_int_float (threshold kw))) TypeError;
  do_ raise_if (negb (isinstance_int_float (leak kw))) TypeError;
  do_ raise_if (py_lt_zero (leak kw)) ValueError;
  do ok <- lift (is_intlike (refractory_period kw));
  do_ raise_if (negb ok) TypeError;
  do refractory_period <- lift (py_int (refractory_period kw));
  do_ raise_if (bool_decide (refractory_period < 0)) ValueError;
  do ok <- lift (is_intlike (refractory_state kw));
  do_ raise_if (negb ok) TypeError;
  do refractory_state <- lift (py_int (refractory_state kw));
  do_ raise_if (bool_decide (refractory_state < 0)) ValueError;
  do_ raise_if (negb (isinstance_int_float (initial_state kw))) TypeError;
  do x <- lift (py_float (threshold kw));
  do_ modify (append_threshold x);
  do x <- lift (py_float (leak kw));
  do_ modify (append_leak x);
  do x <- lift (py_float (reset_state kw));
  do_ modify (append_reset_state x);
  do_ modify (append_refractory_period refractory_period);
  do_ modify (append_refractory_state (of_Z refractory_state));
  do x <- lift (py_float (initial_state kw));
  do_ modify (append_state x);
  do n <- gets num_neurons;
  ret (Z.of_nat n - 1).

(** An argument declared [int | Neuron]: a [Neuron] handle is replaced
    by its [idx] before any check. *)
Inductive neuron_arg : Type :=
  | ById (v : pyval)
  | ByHandle (idx : Z).

Definition neuron_arg_value (a : neuron_arg) : pyval :=
  match a with
  | ById v => v
  | ByHandle idx => PInt idx
  end.

(** [not isinstance(x, (int, float)) or not is_intlike(x)] *)
Definition not_int_valued (v : pyval) : outcome bool :=
  if negb (isinstance_int_float v) then Ret true
  else obind (is_intlike v) (λ ok, Ret (negb ok)).

(** The body of the loop of [create_synapse], with [create_synapse] the
    method itself:
    <<
    temp_id = self.create_neuron()
    self.create_synapse(pre_id, temp_id)
    pre_id = temp_id
    >> *)
Definition relay_pass
    (create_synapse : neuron_arg → neuron_arg → pyval → pyval → bool → M Z)
    (pre_id : neuron_arg) : M neuron_arg :=
  do temp_id <- create_neuron neuron_defaults;
  do_ create_synapse pre_id (ByHandle temp_id) (PFloat one) (PInt 1) false;
  ret (ByHandle temp_id).

(** The body of [create_synapse], with [create_synapse] the method
    itself for its two recursive calls.  A delay above one is expanded
    into a chain: the method calls [create_neuron()] and itself, with
    the default [delay=1]. *)
Definition create_synapse_body
    (create_synapse : neuron_arg → neuron_arg → pyval → pyval → bool → M Z)
    (pre_id post_id : neuron_arg) (weight delay : pyval) (stdp_enabled : bool)
    : M Z :=
  let pre_id := neuron_arg_value pre_id in
  let post_id := neuron_arg_value post_id in
  do bad <- lift (not_int_valued pre_id);
  do_ raise_if bad TypeError;
  do pre_id <- lift (py_int pre_id);
  do bad <- lift (not_int_valued post_id);
  do_ raise_if bad TypeError;
  do post_id <- lift (py_int post_id);
  do_ raise_if (negb (isinstance_int_float weight)) TypeError;
  do bad <- lift (not_int_valued delay);
  do_ raise_if bad TypeError;
  do delay <- lift (py_int delay);
  do_ raise_if (bool_decide (pre_id < 0)) ValueError;
  do_ raise_if (bool_decide (post_id < 0)) ValueError;
  do_ raise_if (bool_decide (delay ≤ 0)) ValueError;
  do_ (if bool_decide (delay = 1) then
         do w <- lift (py_float weight);
         modify (append_synapse pre_id post_id w delay stdp_enabled)
       else
         do pre_id <- for_range (Z.to_nat (delay - 1))
                        (relay_pass create_synapse) (ById (PInt pre_id));
         do_ create_synapse pre_id (ById (PInt post_id)) weight (PInt 1)
               stdp_enabled;
         ret tt);
  do n <- gets num_synapses;
  ret (Z.of_nat n - 1).

(** [create_synapse] with [depth] calls left on the call stack; the
    recursion is two calls deep, since the recursive calls pass
    [delay=1]. *)
Fixpoint create_synapse_rec (depth : nat)
    : neuron_arg → neuron_arg → pyval → pyval → bool → M Z :=
  match depth with
  | O => λ _ _ _ _ _, raise RecursionError
  | S depth' => create_synapse_body (create_synapse_rec depth')
  end.

(** CPython's default recursion limit. *)
Definition recursion_limit : nat := 1000.

Definition create_synapse := create_synapse_rec recursion_limit.

(** [add_spike] *)
Definition add_spike (time : pyval) (neuron_id : neuron_arg) (value : pyval)
    : M unit :=
  do ok <- lift (is_intlike time);
  do_ raise_if (negb ok) TypeError;
  do time <- lift (py_int time);
  let neuron_id := neuron_arg_value neuron_id in
  do ok <- lift (is_intlike neuron_id);
  do_ raise_if (negb ok) TypeError;
  do neuron_id <- lift (py_int neuron_id);
  do_ raise_if (negb (isinstance_int_float value)) TypeError;
  do_ raise_if (bool_decide (time < 0)) ValueError;
  do_ raise_if (bool_decide (neuron_id < 0)) ValueError;
  do value <- lift (py_float value);
  do spikes <- gets input_spikes;
  match spikes !! time with
  | Some d =>
      modify (set_input_spikes
        (<[time := SpikesDict (nids d ++ [neuron_id]) (values d ++ [value])]>
           spikes))
  | None =>
      modify (set_input_spikes
        (<[time := SpikesDict [neuron_id] [value]]> spikes))
  end.

(** ** STDP kernels *)

(** Calling an [int]: <<TypeError: 'int' object is not callable>>. *)
Definition py_call_int (callee : Z) (arg : list num) : outcome Z :=
  Raise TypeError.

(** [np.pad(a, (0, w), 'constant')]; a negative width is refused. *)
Definition np_pad (a : list num) (w : Z) : outcome (list num) :=
  if bool_decide (w < 0) then Raise ValueError
  else Ret (a ++ replicate (Z.to_nat w) zero).

(** <<
    def resize_vec(a, len, dtype=np.float64):
        a = np.asarray(a, dtype=dtype)
        if len(a) < len:
            return a[:len].copy()
        elif len(a) > len:
            return np.pad(a, (0, len - len(a)), 'constant')
        else:
            return a
    >>
    Inside the body the name [len] is the integer parameter, not the
    builtin, so [len(a)] applies an [int]. *)
Definition resize_vec (a : list num) (len : Z) : outcome (list num) :=
  obind (py_call_int len a) (λ len_a,
    if bool_decide (len_a < len) then Ret (take (Z.to_nat len) a)
    else if bool_decide (len_a > len) then
      obind (py_call_int len a) (λ len_a, np_pad a (len - len_a))
    else Ret a).

(** The [apos] property setter. *)
Definition set_apos (value : list num) : M unit :=
  do neg <- gets stdp_negative_update;
  do aneg <- gets _stdp_Aneg;
  do value <-
    (if neg && negb (bool_decide (length value = length aneg)) then
       let n := Z.of_nat (max (length value) (length aneg)) in
       do aneg' <- lift (resize_vec aneg n);
       do_ modify (set_stdp_Aneg aneg');
       lift (resize_vec value n)
     else ret value);
  modify (set_stdp_Apos value).

(** The [aneg] property setter. *)
Definition set_aneg (value : list num) : M unit :=
  do pos <- gets stdp_positive_update;
  do apos <- gets _stdp_Apos;
  do value <-
    (if pos && negb (bool_decide (length value = length apos)) then
       let n := Z.of_nat (max (length value) (length apos)) in
       do apos' <- lift (resize_vec apos n);
       do_ modify (set_stdp_Apos apos');
       lift (resize_vec value n)
     else ret value);
  modify (set_stdp_Aneg value).

(** The [stdp_time_steps] property. *)
Definition stdp_time_steps : M nat :=
  do pos <- gets stdp_positive_update;
  do neg <- gets stdp_negative_update;
  do apos <- gets _stdp_Apos;
  do aneg <- gets _stdp_Aneg;
  do_ raise_if (pos && neg && negb (bool_decide (length apos = length aneg)))
        AssertionError;
  if pos then ret (length apos)
  else if neg then ret (length aneg)
  else ret 0%nat.

(** ** Dense arrays *)

(** An index into an axis of length [n]; negative indices count from
    the end. *)
Definition np_index (n : nat) (i : Z) : outcome nat :=
  if bool_decide (0 ≤ i < Z.of_nat n) then Ret (Z.to_nat i)
  else if bool_decide (- Z.of_nat n ≤ i < 0) then Ret (Z.to_nat (i + Z.of_nat n))
  else Raise IndexError.

Definition zeros (n : nat) : list num := replicate n zero.
Definition zeros2 {A} (z : A) (rows cols : nat) : list (list A) :=
  replicate rows (replicate cols z).

(** [mat[r][c] = v] *)
Definition mat_set {A} (mat : list (list A)) (r c : nat) (v : A)
    : list (list A) :=
  alter (λ row, <[c := v]> row) r mat.

(** [mat[rows, cols] = vals] with index lists: entry after entry, so
    the last of a repeated pair remains. *)
Fixpoint mat_assign {A} (n : nat) (mat : list (list A)) (rows cols : list Z)
    (vals : list A) : outcome (list (list A)) :=
  match rows, cols, vals with
  | [], [], [] => Ret mat
  | r :: rows, c :: cols, v :: vals =>
      obind (np_index n r) (λ r,
      obind (np_index n c) (λ c,
      mat_assign n (mat_set mat r c v) rows cols vals))
  | _, _, _ => Raise IndexError
  end.

(** [mat[rows, cols]] with index lists. *)
Fixpoint mat_gather {A} (n : nat) (mat : list (list A)) (rows cols : list Z)
    : outcome (list A) :=
  match rows, cols with
  | [], [] => Ret []
  | r :: rows, c :: cols =>
      obind (np_index n r) (λ r,
      obind (np_index n c) (λ c,
      match mat !! r ≫= (.!! c) with
      | Some v => obind (mat_gather n mat rows cols) (λ vs, Ret (v :: vs))
      | None => Raise IndexError
      end))
  | _, _ => Raise IndexError
  end.

(** [weight_mat] on the dense path ([_use_sparse] is never set). *)
Definition weight_mat (m : NeuromorphicModel) : outcome (list (list num)) :=
  mat_assign (num_neurons m) (zeros2 zero (num_neurons m) (num_neurons m))
    (pre_synaptic_neuron_ids m) (post_synaptic_neuron_ids m)
    (synaptic_weights m).

Definition b2z (b : bool) : Z := if b then 1 else 0.

(** [stdp_enabled_mat], an [int8] matrix. *)
Definition stdp_enabled_mat (m : NeuromorphicModel) : outcome (list (list Z)) :=
  mat_assign (num_neurons m) (zeros2 0 (num_neurons m) (num_neurons m))
    (pre_synaptic_neuron_ids m) (post_synaptic_neuron_ids m)
    (b2z <$> enable_stdp m).

(** Python [any] over floats. *)
Definition any_truthy (l : list num) : bool := existsb Num.truthy l.

(** [_setup].  The method assigns the arrays one after the other, six
    of them before [weight_mat] can raise; here they are written
    together once every part is computed. *)
Definition _setup : M unit :=
  do m <- get;
  do weights <- lift (weight_mat m);
  let anystdp := stdp m && existsb id (enable_stdp m) in
  let do_pos := anystdp && stdp_positive_update m && any_truthy (_stdp_Apos m) in
  let do_neg := anystdp && stdp_negative_update m && any_truthy (_stdp_Aneg m) in
  let do_stdp := do_pos || do_neg in
  do enabled <-
    (if do_stdp then lift (stdp_enabled_mat m)
     else ret (from_option _stdp_enabled_synapses [] (_arrays m)));
  let spikes :=
    match last (spike_train m) with
    | Some s => s
    | None => replicate (num_neurons m) 0
    end in
  modify (set_arrays (Some {|
    _neuron_thresholds := neuron_thresholds m;
    _neuron_leaks := neuron_leaks m;
    _neuron_reset_states := neuron_reset_states m;
    _neuron_refractory_periods_original := of_Z <$> neuron_refractory_periods m;
    _internal_states := neuron_states m;
    _neuron_refractory_periods := neuron_refractory_periods_state m;
    _weights := weights;
    _do_positive_update := do_pos;
    _do_negative_update := do_neg;
    _do_stdp := do_stdp;
    _stdp_enabled_synapses := enabled;
    _input_spikes := zeros2 zero 1 (num_neurons m);
    _spikes := spikes;
  |})).

(** Reading an attribute that [_setup] creates. *)
Definition arrays : M Arrays :=
  do a <- gets _arrays;
  match a with
  | Some a => ret a
  | None => raise AttributeError
  end.

Definition update_arrays (f : Arrays → Arrays) : M unit :=
  do a <- arrays;
  modify (set_arrays (Some (f a))).

(** [devec] *)
Definition devec : M unit :=
  do a <- arrays;
  do_ modify (set_neuron_states (_internal_states a));
  do_ modify (set_neuron_refractory_periods_state (_neuron_refractory_periods a));
  if _do_stdp a then
    do m <- get;
    do w <- lift (mat_gather (length (_weights a)) (_weights a)
                    (pre_synaptic_neuron_ids m) (post_synaptic_neuron_ids m));
    modify (set_synaptic_weights w)
  else ret tt.

(** One entry of the schedule written into the input matrix:
    <<
    for neuron_id, amplitude in zip(spikes_dict["nids"], spikes_dict["values"]):
        self._input_spikes[t][neuron_id] = amplitude
    >> *)
Fixpoint write_spikes (n : nat) (mat : list (list num)) (t : nat)
    (ids : list Z) (amps : list num) : outcome (list (list num)) :=
  match ids, amps with
  | neuron_id :: ids, amplitude :: amps =>
      obind (np_index n neuron_id) (λ c,
        write_spikes n (mat_set mat t c amplitude) t ids amps)
  | _, _ => Ret mat
  end.

(** [setup_input_spikes] *)
Definition setup_input_spikes (time_steps : nat) : M unit :=
  do m <- get;
  let n := num_neurons m in
  do mat <- lift (foldr (λ '(t, spikes_dict) acc,
      obind acc (λ mat,
        if bool_decide (t > Z.of_nat time_steps) then Ret mat
        else obind (np_index (S time_steps) t) (λ r,
          write_spikes n mat r (nids spikes_dict) (values spikes_dict))))
      (Ret (zeros2 zero (S time_steps) n))
      (map_to_list (input_spikes m)));
  update_arrays (set_arr_input_spikes mat).

(** <<
    self.input_spikes = {t - time_steps: v for t, v in self.input_spikes.items()
                         if t >= time_steps}
    >> *)
Definition consume_input_spikes (time_steps : nat) : M unit :=
  do spikes <- gets input_spikes;
  modify (set_input_spikes
    (kmap (λ t, t - Z.of_nat time_steps)
       (filter (λ kv : Z * spikes_dict, Z.of_nat time_steps ≤ kv.1) spikes))).

(** ** Vectorised operations *)

(** [a[mask] = b[mask]] for arrays of one shape. *)
Definition assign_where {A} (mask : list bool) (new old : list A) : list A :=
  zip_with (λ (b : bool) (p : A * A), if b then p.1 else p.2) mask (zip new old).

(** [a[mask] = v] for a scalar [v]. *)
Definition assign_scalar_where {A} (mask : list bool) (v : A) (old : list A)
    : list A :=
  zip_with (λ (b : bool) (o : A), if b then v else o) mask old.

Definition vsum (l : list num) : num := foldr Num.add zero l.

Definition column (n : nat) (W : list (list num)) : list num :=
  (λ row : list num, default zero (row !! n)) <$> W.

(** [W.T @ x] for a square [W]: entry [n] is the sum over [pre] of
    [W[pre][n] * x[pre]]. *)
Definition matT_vec (W : list (list num)) (x : list num) : list num :=
  (λ n, vsum (zip_with Num.mul (column n W) x)) <$> seq 0 (length W).

(** Python slice [l[start:stop]] ([stop = None] when omitted). *)
Definition py_slice {A} (l : list A) (start : Z) (stop : option Z) : list A :=
  let len := Z.of_nat (length l) in
  let clamp i := if bool_decide (i < 0) then Z.max (i + len) 0 else Z.min i len in
  let lo := clamp start in
  let hi := from_option clamp len stop in
  take (Z.to_nat (hi - lo)) (drop (Z.to_nat lo) l).

(** [l[i]] *)
Definition py_item {A} (l : list A) (i : Z) : outcome A :=
  obind (np_index (length l) i) (λ k,
    match l !! k with
    | Some x => Ret x
    | None => Raise IndexError
    end).

(** [np.outer(a, b)] *)
Definition np_outer_Z (a b : list Z) : list (list Z) :=
  (λ x : Z, (λ y, x * y) <$> b) <$> a.

Definition mat_map2 {A B C} (f : A → B → C) (X : list (list A))
    (Y : list (list B)) : list (list C) :=
  zip_with (zip_with f) X Y.

Definition mat_add : list (list num) → list (list num) → list (list num) :=
  mat_map2 Num.add.

(** [rows.reshape([-1, n, n])] for [rows] of width [n]. *)
Fixpoint chunks {A} (fuel n : nat) (rows : list A) : list (list A) :=
  match fuel, rows with
  | S fuel, _ :: _ => take n rows :: chunks fuel n (drop n rows)
  | _, _ => []
  end.

Definition reshape3 {A} (n : nat) (rows : list (list A))
    : outcome (list (list (list A))) :=
  if bool_decide (n ≠ 0%nat ∧ (length rows `mod` n)%nat = 0%nat)
  then Ret (chunks (length rows) n rows)
  else Raise ValueError.

(** [(U.T * coef).T]: slab [k] of [U] times [coef[k]], with numpy's
    broadcasting of an axis of length one. *)
Definition scale_slab (slab : list (list Z)) (c : num) : list (list num) :=
  (λ row : list Z, (λ u, of_Z u * c)%num <$> row) <$> slab.

Definition scale_slabs (U : list (list (list Z))) (coef : list num)
    : outcome (list (list (list num))) :=
  if bool_decide (length U = length coef) then Ret (zip_with scale_slab U coef)
  else match U, coef with
       | _, [c] => Ret ((λ slab, scale_slab slab c) <$> U)
       | [slab], _ => Ret (scale_slab slab <$> coef)
       | _, _ => Raise ValueError
       end.

(** [X.sum(axis=0)] *)
Definition sum_axis0 (n : nat) (X : list (list (list num))) : list (list num) :=
  foldr mat_add (zeros2 zero n n) X.

(** [X * mask] with an [int8] mask. *)
Definition mat_mask (X : list (list num)) (mask : list (list Z))
    : list (list num) :=
  mat_map2 (λ x e, x * of_Z e)%num X mask.

(** ** The tick of the reference backend *)

(** The two leak assignments at the head of the loop body of
    [simulate_cpu]. *)
Definition leak_cpu (a : Arrays) : list num :=
  let states := _internal_states a in
  let reset_states := _neuron_reset_states a in
  let leaks := _neuron_leaks a in
  (* Leak: internal state > reset state *)
  let indices := zip_with Num.gtb states reset_states in
  let states :=
    assign_where indices
      (zip_with Num.maximum (zip_with Num.sub states leaks) reset_states)
      states in
  (* Leak: internal state < reset state *)
  let indices := zip_with Num.ltb states reset_states in
  assign_where indices
    (zip_with Num.minimum (zip_with Num.add states leaks) reset_states)
    states.

(** The internal states after the leak and the integration:
    <<
    self._internal_states = self._internal_states + self._input_spikes[tick] + (self._weights.T @ self._spikes)
    >>
    [input] is the row [_input_spikes[tick]]. *)
Definition integrate_cpu (input : list num) (a : Arrays) : list num :=
  zip_with Num.add (zip_with Num.add (leak_cpu a) input)
    (matT_vec (_weights a) (of_Z <$> _spikes a)).

(** The loop body of [simulate_cpu] from the leak to the reset of the
    internal states, on the dense arrays. *)
Definition lif_cpu (input : list num) (a : Arrays) : Arrays :=
  (* Internal state *)
  let states := integrate_cpu input a in
  (* Compute spikes *)
  let spikes :=
    zip_with (λ s th, b2z (Num.gtb s th)) states (_neuron_thresholds a) in
  (* Refractory period *)
  let refractory := _neuron_refractory_periods a in
  let indices := (λ r, Num.gtb r zero) <$> refractory in
  let spikes := assign_scalar_where indices 0 spikes in
  let refractory :=
    assign_where indices ((λ r, r - one)%num <$> refractory) refractory in
  (* For spiking neurons, turn on refractory period *)
  let mask := (λ s, negb (bool_decide (s = 0))) <$> spikes in
  let refractory :=
    assign_where mask (_neuron_refractory_periods_original a) refractory in
  (* Reset internal states *)
  let states := assign_where mask (_neuron_reset_states a) states in
  set_arr_spikes spikes
    (set_arr_neuron_refractory_periods refractory
       (set_arr_internal_states states a)).

(** [1 - update_synapses] on an integer array. *)
Definition one_minus_Z (U : list (list Z)) : list (list Z) :=
  (λ row : list Z, (λ u, 1 - u) <$> row) <$> U.

(** The STDP block of [simulate_cpu], entered when [_do_stdp and t > 0]:
    the new weight matrix. *)
Definition stdp_cpu (n t : nat) (train : list (list Z)) (apos aneg : list num)
    (a : Arrays) : outcome (list (list num)) :=
  obind (py_item train (-1)) (λ now,
  let history := py_slice train (- Z.of_nat t - 1) (Some (-1)) in
  obind (reshape3 n (np_outer_Z (concat history) now)) (λ update_synapses,
  obind
    (if _do_positive_update a then
       obind (scale_slabs update_synapses (reverse (take t apos))) (λ X,
         Ret (mat_add (_weights a)
                (mat_mask (sum_axis0 n X) (_stdp_enabled_synapses a))))
     else Ret (_weights a)) (λ weights,
  if _do_negative_update a then
    obind (scale_slabs (one_minus_Z <$> update_synapses)
             (reverse (take t aneg))) (λ X,
      Ret (mat_add weights
             (mat_mask (sum_axis0 n X) (_stdp_enabled_synapses a))))
  else Ret weights))).

Definition callback : Type := nat → nat → M unit.

(** <<
    if callback is not None:
        if callable(callback):
            callback(self, tick, time_steps)
    >> *)
Definition run_callback (cb : option callback) (tick time_steps : nat) : M unit :=
  match cb with
  | Some f => f tick time_steps
  | None => ret tt
  end.

Definition append_spike_train (spikes : list Z) (m : NeuromorphicModel) :=
  set_spike_train (spike_train m ++ [spikes]) m.

(** One pass through the loop of [simulate_cpu]. *)
Definition cpu_tick (time_steps : nat) (cb : option callback) (tick : nat)
    : M nat :=
  do_ run_callback cb tick time_steps;
  do a <- arrays;
  do_ modify (set_arrays (Some (set_arr_internal_states (leak_cpu a) a)));
  do input <- lift (py_item (_input_spikes a) (Z.of_nat tick));
  let a := lif_cpu input a in
  do_ modify (set_arrays (Some a));
  (* Append spike train *)
  do_ modify (append_spike_train (_spikes a));
  (* STDP Operations *)
  do k <- stdp_time_steps;
  do m <- get;
  let t := (k `min` (length (spike_train m) - 1))%nat in
  do_ (if _do_stdp a && bool_decide (0 < t)%nat then
         do w <- lift (stdp_cpu (num_neurons m) t (spike_train m)
                         (_stdp_Apos m) (_stdp_Aneg m) a);
         update_arrays (set_arr_weights w)
       else ret tt);
  ret (S tick).

(** [simulate_cpu] *)
Definition simulate_cpu (time_steps : nat) (cb : option callback) : M unit :=
  do_ modify (set_last_used_backend (Some "cpu"));
  do manual <- gets manual_setup;
  do_ (if negb manual then
         do_ _setup;
         setup_input_spikes time_steps
       else ret tt);
  do_ for_range time_steps (cpu_tick time_steps cb) 0%nat;
  do manual <- gets manual_setup;
  if negb manual then
    do_ devec;
    consume_input_spikes time_steps
  else ret tt.

(** ** The compiled kernels of [numba_jit.py] *)

(** <<
    def apply_leak_jit(states, reset_states, leaks):
        indices = states > reset_states
        states[indices] = np.maximum(
            states[indices] - leaks[indices], reset_states[indices])
        indices = states < reset_states
        states[indices] = np.minimum(
            states[indices] + leaks[indices], reset_states[indices])
    >>
    The result is the array [states] after the call. *)
Definition apply_leak_jit (states reset_states leaks : list num) : list num :=
  let indices := zip_with Num.gtb states reset_states in
  let states :=
    assign_where indices
      (zip_with Num.maximum (zip_with Num.sub states leaks) reset_states)
      states in
  let indices := zip_with Num.ltb states reset_states in
  assign_where indices
    (zip_with Num.minimum (zip_with Num.add states leaks) reset_states)
    states.

(** The three arrays [lif_jit] modifies in place. *)
Record lif_result : Type := LifResult {
  r_spikes : list Z;
  r_states : list num;
  r_refractory_periods : list num;
}.

(** The body of [lif_jit] once its parameters are bound.  The four
    delay parameters are not used in the body. *)
Definition lif_jit_body (tick : nat) (input_spikes : list (list num))
    (spikes : list Z) (states thresholds leaks reset_states : list num)
    (refractory_periods refractory_periods_original : list num)
    (weights : list (list num)) : outcome lif_result :=
  let states := apply_leak_jit states reset_states leaks in
  obind (py_item input_spikes (Z.of_nat tick)) (λ input,
  (* Internal state (in-place) *)
  let states :=
    zip_with Num.add states
      (zip_with Num.add input (matT_vec weights (of_Z <$> spikes))) in
  (* Compute spikes (in-place) into spikes *)
  let spikes := zip_with (λ s th, b2z (Num.gtb s th)) states thresholds in
  let indices := (λ r, Num.gtb r zero) <$> refractory_periods in
  let spikes := assign_scalar_where indices 0 spikes in
  let refractory_periods :=
    assign_where indices ((λ r, r - one)%num <$> refractory_periods)
      refractory_periods in
  let mask := (λ s, negb (bool_decide (s = 0))) <$> spikes in
  let refractory_periods :=
    assign_where mask refractory_periods_original refractory_periods in
  let states := assign_where mask reset_states states in
  Ret (LifResult spikes states refractory_periods)).

(** The arguments of one call of [lif_jit], by parameter name, in the
    order of the signature; [None] is a parameter the call leaves
    without an argument.  All fourteen parameters are required: the
    signature gives none of them a default ([delays: None] is an
    annotation). *)
Record lif_jit_call : Type := LifJitCall {
  arg_tick : option nat;
  arg_input_spikes : option (list (list num));
  arg_spikes : option (list Z);
  arg_states : option (list num);
  arg_thresholds : option (list num);
  arg_leaks : option (list num);
  arg_reset_states : option (list num);
  arg_refractory_periods : option (list num);
  arg_refractory_periods_original : option (list num);
  arg_weights : option (list (list num));
  arg_delays : option pyval;
  arg_delayed_synapses : option pyval;
  arg_synaptic_delaysT : option pyval;
  arg_delayed_spikes : option pyval;
}.

(** [lif_jit]: a call that leaves a required parameter unbound raises
    [TypeError] before the body runs. *)
Definition lif_jit (c : lif_jit_call) : outcome lif_result :=
  match arg_tick c, arg_input_spikes c, arg_spikes c, arg_states c,
        arg_thresholds c, arg_leaks c, arg_reset_states c,
        arg_refractory_periods c, arg_refractory_periods_original c,
        arg_weights c, arg_delays c, arg_delayed_synapses c,
        arg_synaptic_delaysT c, arg_delayed_spikes c with
  | Some tick, Some input_spikes, Some spikes, Some states, Some thresholds,
    Some leaks, Some reset_states, Some refractory_periods,
    Some refractory_periods_original, Some weights,
    Some _, Some _, Some _, Some _ =>
      lif_jit_body tick input_spikes spikes states thresholds leaks
        reset_states refractory_periods refractory_periods_original weights
  | _, _, _, _, _, _, _, _, _, _, _, _, _, _ => Raise TypeError
  end.

(** [np.outer] of two float vectors. *)
Definition np_outer (a b : list num) : list (list num) :=
  (λ x : num, (λ y, x * y)%num <$> b) <$> a.

(** [c * U * stdp_enabled] *)
Definition stdp_term (c : num) (U : list (list num)) (mask : list (list Z))
    : list (list num) :=
  mat_mask ((λ row : list num, (λ u, c * u)%num <$> row) <$> U) mask.

(** [for i in range(n)] over an accumulator, with exceptions. *)
Definition ofor {A} (n : nat) (body : nat → A → outcome A) (a : A) : outcome A :=
  foldl (λ acc i, obind acc (body i)) (Ret a) (seq 0 n).

(** [1 - update_synapses] *)
Definition one_minus (U : list (list num)) : list (list num) :=
  (λ row : list num, (λ u, one - u)%num <$> row) <$> U.

(** [np.outer(spike_train[~i - 1], spike_train[-1])] *)
Definition jit_update_synapses (spike_train : list (list num)) (i : nat)
    : outcome (list (list num)) :=
  obind (py_item spike_train (- Z.of_nat i - 1 - 1)) (λ old,
  obind (py_item spike_train (-1)) (λ now,
  Ret (np_outer old now))).

(** The loop body of [stdp_update_jit]:
    <<
    update_synapses = np.outer(spike_train[~i - 1], spike_train[-1])
    if apos[i]:
        weights_pointer += apos[i] * update_synapses * stdp_enabled
    if aneg[i]:
        weights_pointer += aneg[i] * (1 - update_synapses) * stdp_enabled
    >> *)
Definition stdp_update_jit_pass (spike_train : list (list num))
    (apos aneg : list num) (stdp_enabled : list (list Z)) (i : nat)
    (weights : list (list num)) : outcome (list (list num)) :=
  obind (jit_update_synapses spike_train i) (λ update_synapses,
  obind (py_item apos (Z.of_nat i)) (λ ap,
  let weights :=
    if Num.truthy ap
    then mat_add weights (stdp_term ap update_synapses stdp_enabled)
    else weights in
  obind (py_item aneg (Z.of_nat i)) (λ an,
  Ret (if Num.truthy an
       then mat_add weights
              (stdp_term an (one_minus update_synapses) stdp_enabled)
       else weights)))).

(** [stdp_update_jit]: the weight matrix after the call. *)
Definition stdp_update_jit (tsteps : nat) (spike_train : list (list num))
    (weights : list (list num)) (apos aneg : list num)
    (stdp_enabled : list (list Z)) : outcome (list (list num)) :=
  ofor tsteps (stdp_update_jit_pass spike_train apos aneg stdp_enabled) weights.

(** [stdp_update_jit_apos] *)
Definition stdp_update_jit_apos (tsteps : nat) (spike_train : list (list num))
    (weights : list (list num)) (apos : list num)
    (stdp_enabled : list (list Z)) : outcome (list (list num)) :=
  ofor tsteps (λ i weights,
    obind (py_item apos (Z.of_nat i)) (λ ap,
    if Num.truthy ap then
      obind (jit_update_synapses spike_train i) (λ update_synapses,
      Ret (mat_add weights (stdp_term ap update_synapses stdp_enabled)))
    else Ret weights)) weights.

(** [stdp_update_jit_aneg] *)
Definition stdp_update_jit_aneg (tsteps : nat) (spike_train : list (list num))
    (weights : list (list num)) (aneg : list num)
    (stdp_enabled : list (list Z)) : outcome (list (list num)) :=
  ofor tsteps (λ i weights,
    obind (py_item aneg (Z.of_nat i)) (λ an,
    if Num.truthy an then
      obind (jit_update_synapses spike_train i) (λ update_synapses,
      Ret (mat_add weights
             (stdp_term an (one_minus update_synapses) stdp_enabled)))
    else Ret weights)) weights.

(** [np.array(self.spike_train[~t - 1:], dtype=self.dd)] *)
Definition spike_window (train : list (list Z)) (t : nat) : list (list num) :=
  (λ row : list Z, of_Z <$> row) <$> py_slice train (- Z.of_nat t - 1 - 1) None.

(** ** Backends *)

(** What the module finds at import time: whether [import numba]
    succeeded (the module-level [numba] is not [None]) and whether
    [cuda.is_available()]. *)
Record Env : Type := MkEnv {
  numba_installed : bool;
  cuda_available : bool;
}.

(** The device-resident arrays of [simulate_gpu]. *)
Record Device : Type := MkDevice {
  d_post_synapse : list num;
  d_output_spikes : list Z;
  d_states : list num;
  d_refractory_periods : list num;
  d_weights : list (list num);
}.

Definition ascii_lower (c : ascii) : ascii :=
  let n := nat_of_ascii c in
  if bool_decide (65 ≤ n ≤ 90)%nat then ascii_of_nat (n + 32) else c.

(** [str.lower] on ASCII text. *)
Fixpoint lower (s : string) : string :=
  match s with
  | EmptyString => EmptyString
  | String c s => String (ascii_lower c) (lower s)
  end.

Section Backends.

Variable env : Env.

(** The CUDA kernels of [superneuromat/gpu.py], launched by
    [simulate_gpu]: each is given by the device arrays it writes. *)
Variable gpu_post_synaptic :
  list (list num) → list Z → list num → list num.
Variable gpu_lif :
  list num → list Z → list num → list num → list num → list num →
  list num → list num → list num → list Z * list num * list num.
Variable gpu_stdp_update :
  list (list num) → list Z → list Z → list (list Z) → num → num →
  list (list num).

Definition check_numba : M unit :=
  if numba_installed env then ret tt else raise ImportError.

Definition check_gpu : M unit :=
  if numba_installed env then ret tt else raise ImportError.

(** [cuda.to_device] needs a device. *)
Definition to_device {A} (x : A) : M A :=
  if cuda_available env then ret x else raise CudaSupportError.

(** One pass through the loop of [simulate_cpu_jit].  [lif_jit] is
    called with ten positional arguments. *)
Definition jit_tick (time_steps : nat) (cb : option callback) (tick : nat)
    : M nat :=
  do_ run_callback cb tick time_steps;
  do a <- arrays;
  do r <- lift (lif_jit {|
      arg_tick := Some tick;
      arg_input_spikes := Some (_input_spikes a);
      arg_spikes := Some (_spikes a);
      arg_states := Some (_internal_states a);
      arg_thresholds := Some (_neuron_thresholds a);
      arg_leaks := Some (_neuron_leaks a);
      arg_reset_states := Some (_neuron_reset_states a);
      arg_refractory_periods := Some (_neuron_refractory_periods a);
      arg_refractory_periods_original :=
        Some (_neuron_refractory_periods_original a);
      arg_weights := Some (_weights a);
      arg_delays := None;
      arg_delayed_synapses := None;
      arg_synaptic_delaysT := None;
      arg_delayed_spikes := None;
    |});
  let a :=
    set_arr_spikes (r_spikes r)
      (set_arr_neuron_refractory_periods (r_refractory_periods r)
         (set_arr_internal_states (r_states r) a)) in
  do_ modify (set_arrays (Some a));
  do_ modify (append_spike_train (_spikes a));
  do k <- stdp_time_steps;
  do m <- get;
  let t := (k `min` (length (spike_train m) - 1))%nat in
  let spikes := spike_window (spike_train m) t in
  do_ (if _do_stdp a then
         if _do_positive_update a && _do_negative_update a then
           do w <- lift (stdp_update_jit t spikes (_weights a) (_stdp_Apos m)
                           (_stdp_Aneg m) (_stdp_enabled_synapses a));
           update_arrays (set_arr_weights w)
         else if _do_positive_update a then
           do w <- lift (stdp_update_jit_apos t spikes (_weights a)
                           (_stdp_Apos m) (_stdp_enabled_synapses a));
           update_arrays (set_arr_weights w)
         else if _do_negative_update a then
           do w <- lift (stdp_update_jit_aneg t spikes (_weights a)
                           (_stdp_Aneg m) (_stdp_enabled_synapses a));
           update_arrays (set_arr_weights w)
         else ret tt
       else ret tt);
  ret (S tick).

(** [simulate_cpu_jit] *)
Definition simulate_cpu_jit (time_steps : nat) (cb : option callback)
    : M unit :=
  do_ modify (set_last_used_backend (Some "jit"));
  do_ check_numba;
  do manual <- gets manual_setup;
  do_ (if negb manual then
         do_ _setup;
         setup_input_spikes time_steps
       else ret tt);
  do_ arrays;
  do_ for_range time_steps (jit_tick time_steps cb) 0%nat;
  do manual <- gets manual_setup;
  if negb manual then
    do_ devec;
    consume_input_spikes time_steps
  else ret tt.

(** The STDP launches of one tick of [simulate_gpu]:
    <<
    for i in range(min(tick, self.stdp_time_steps)):
        old_spikes = cuda.to_device(self._output_spikes[tick - i - 1].astype(np.int8))
        gpu.stdp_update[m_blocks, m_tpb](weights, old_spikes, output_spikes,
                        stdp_enabled, self._stdp_Apos[i], self._stdp_Aneg[i])
    >> *)
Definition gpu_stdp (tick : nat) (output_spikes : list (list Z))
    (stdp_enabled : list (list Z)) (d : Device) : M Device :=
  do k <- stdp_time_steps;
  do m <- get;
  lift (ofor (tick `min` k) (λ i d,
    obind (py_item output_spikes (Z.of_nat tick - Z.of_nat i - 1)) (λ old,
    obind (py_item (_stdp_Apos m) (Z.of_nat i)) (λ ap,
    obind (py_item (_stdp_Aneg m) (Z.of_nat i)) (λ an,
    Ret (MkDevice (d_post_synapse d) (d_output_spikes d) (d_states d)
           (d_refractory_periods d)
           (gpu_stdp_update (d_weights d) old (d_output_spikes d)
              stdp_enabled ap an)))))) d).

(** One pass through the loop of [simulate_gpu]; the loop variables
    are the host matrix [_output_spikes] and the device arrays. *)
Definition gpu_tick (time_steps : nat) (cb : option callback)
    (thresholds leaks reset_states refractory_periods_original : list num)
    (tick : nat) (st : list (list Z) * Device) : M (list (list Z) * Device) :=
  let output := st.1 in
  let d := st.2 in
  do_ run_callback cb tick time_steps;
  do a <- arrays;
  do input <- lift (py_item (_input_spikes a) (Z.of_nat tick));
  let post := gpu_post_synaptic (d_weights d) (d_output_spikes d)
                (d_post_synapse d) in
  let r :=
    gpu_lif input (d_output_spikes d) post (d_states d) thresholds leaks
      reset_states (d_refractory_periods d) refractory_periods_original in
  let d := MkDevice post r.1.1 r.1.2 r.2 (d_weights d) in
  do row <- lift (np_index (length output) (Z.of_nat tick));
  let output := <[row := d_output_spikes d]> output in
  do d <- (if _do_stdp a
           then gpu_stdp tick output (_stdp_enabled_synapses a) d
           else ret d);
  ret (output, d).

Fixpoint gpu_loop (time_steps : nat) (cb : option callback)
    (thresholds leaks reset_states refractory_periods_original : list num)
    (n tick : nat) (st : list (list Z) * Device)
    : M (list (list Z) * Device) :=
  match n with
  | O => ret st
  | S n' =>
      do st <- gpu_tick time_steps cb thresholds leaks reset_states
                 refractory_periods_original tick st;
      gpu_loop time_steps cb thresholds leaks reset_states
        refractory_periods_original n' (S tick) st
  end.

(** [simulate_gpu].  After the loop it extends the spike train,
    copies the device arrays back and calls [devec]. *)
Definition simulate_gpu (time_steps : nat) (cb : option callback) : M unit :=
  do_ modify (set_last_used_backend (Some "gpu"));
  do_ check_gpu;
  do n <- gets num_neurons;
  let output := zeros2 0 time_steps n in
  do manual <- gets manual_setup;
  do_ (if negb manual then
         do_ _setup;
         setup_input_spikes time_steps
       else ret tt);
  do m <- get;
  do_ raise_if (negb (bool_decide (length (_stdp_Apos m) = length (_stdp_Aneg m))))
        ValueError;
  do n <- gets num_neurons;
  do post_synapse <- to_device (zeros n);
  do last_row <- lift (py_item output (-1));
  do output_spikes <- to_device last_row;
  do a <- arrays;
  let d := MkDevice post_synapse output_spikes (_internal_states a)
             (_neuron_refractory_periods a) (_weights a) in
  do st <- gpu_loop time_steps cb (_neuron_thresholds a) (_neuron_leaks a)
             (_neuron_reset_states a) (_neuron_refractory_periods_original a)
             time_steps 0%nat (output, d);
  let output := st.1 in
  let d := st.2 in
  do_ modify (λ m, set_spike_train (spike_train m ++ output) m);
  do_ update_arrays (λ a,
        set_arr_internal_states (d_states d)
          (set_arr_neuron_refractory_periods (d_refractory_periods d)
             (set_arr_weights (d_weights d) a)));
  devec.

(** Class attributes [gpu_threshold] and [jit_threshold]. *)
Definition gpu_threshold : Z := 10000.
Definition jit_threshold : Z := 1000.

(** [recommend]; [self.gpu] is [numba and cuda.is_available()]. *)
Definition recommend (time_steps : nat) : M string :=
  do n <- gets num_neurons;
  let score := Z.of_nat n * 1 + Z.of_nat time_steps * 100 in
  if numba_installed env && cuda_available env
     && bool_decide (score > gpu_threshold) then ret "gpu"
  else if numba_installed env && bool_decide (score > jit_threshold)
  then ret "jit"
  else ret "cpu".

(** [simulate]; [use] is a backend name or [None]. *)
Definition simulate (time_steps : pyval) (cb : option callback)
    (use : option string) : M unit :=
  do ok <- lift (is_intlike time_steps);
  do_ raise_if (negb ok) TypeError;
  do time_steps <- lift (py_int time_steps);
  do_ raise_if (bool_decide (time_steps ≤ 0)) ValueError;
  let time_steps := Z.to_nat time_steps in
  do use <- match use with
            | Some u => ret u
            | None => gets _backend
            end;
  let use := lower use in
  do use <- (if bool_decide (use = "auto") then recommend time_steps
             else ret use);
  if bool_decide (use = "jit") then simulate_cpu_jit time_steps cb
  else if bool_decide (use = "gpu") then simulate_gpu time_steps cb
  else if bool_decide (use = "cpu") || bool_decide (use = "")
  then simulate_cpu time_steps cb
  else raise ValueError.

End Backends.

(** ** Models built through the public methods *)

(** The model a method leaves behind. *)
Definition after {A} (c : M A) (m : NeuromorphicModel) : NeuromorphicModel :=
  (c m).2.

Definition with_kwargs (th lk rs : num) (rp : Z) (st : num) : neuron_kwargs := {|
  threshold := PFloat th;
  leak := PFloat lk;
  reset_state := PFloat rs;
  refractory_period := PInt rp;
  refractory_state := PInt 0;
  initial_state := PFloat st;
|}.

(** [tests/test_refractory.py], [test_refractory_one]:
    <<
    n_id = snn.create_neuron(refractory_period=2).idx
    snn.add_spike(1, n_id, 1)
    snn.add_spike(2, n_id, 3)
    snn.add_spike(3, n_id, 4)
    snn.add_spike(4, n_id, 1)
    >> *)
Definition refractory_model : NeuromorphicModel :=
  after (add_spike (PInt 4) (ByHandle 0) (PInt 1))
    (after (add_spike (PInt 3) (ByHandle 0) (PInt 4))
       (after (add_spike (PInt 2) (ByHandle 0) (PInt 3))
          (after (add_spike (PInt 1) (ByHandle 0) (PInt 1))
             (after (create_neuron (with_kwargs zero PInf zero 2 zero)) init)))).

(** Two neurons with default parameters. *)
Definition two_neurons : NeuromorphicModel :=
  after (create_neuron neuron_defaults)
    (after (create_neuron neuron_defaults) init).

(** One default neuron with an input spike of amplitude 1 at tick 0. *)
Definition one_spike_model : NeuromorphicModel :=
  after (add_spike (PInt 0) (ByHandle 0) (PInt 1))
    (after (create_neuron neuron_defaults) init).

(** [create_neuron(initial_state=np.inf)]: leak [+inf], reset state 0. *)
Definition inf_state_model : NeuromorphicModel :=
  after (create_neuron (with_kwargs zero PInf zero 0 PInf)) init.

(** [create_neuron(reset_state=None)] *)
Definition reset_state_none : neuron_kwargs := {|
  threshold := PFloat zero;
  leak := PFloat PInf;
  reset_state := PNone;
  refractory_period := PInt 0;
  refractory_state := PInt 0;
  initial_state := PFloat zero;
|}.

(** ** The tick of one neuron *)

(** The state machine of one neuron, stage by stage: leak, integrate,
    fire, refractory gate, re-arm, reset.  The vectorised tick is
    compared with it below. *)
Definition leak_step (s r l : num) : num :=
  let s := if Num.gtb s r then Num.maximum (s - l) r else s in
  if Num.ltb s r then Num.minimum (s + l) r else s.

Record neuron_tick : Type := NeuronTick {
  t_state : num;
  t_refractory : num;
  t_spike : Z;
}.

Definition neuron_step (th l r original : num) (input contribution : num)
    (s c : num) : neuron_tick :=
  let s := leak_step s r l in
  let s := (s + input + contribution)%num in
  let fired := Num.gtb s th in
  let gated := Num.gtb c zero in
  let spike := if gated then false else fired in
  let c := if gated then (c - one)%num else c in
  {| t_state := if spike then r else s;
     t_refractory := if spike then original else c;
     t_spike := b2z spike |}.

(** What the presynaptic spikes of the previous tick add to neuron [i]:
    entry [i] of [W.T @ spikes]. *)
Definition contribution (W : list (list num)) (spikes : list Z) (i : nat) : num :=
  vsum (zip_with Num.mul (column i W) (of_Z <$> spikes)).

(** The values of neuron [i] in the dense arrays. *)
Record neuron_view (a : Arrays) (i : nat) (th l r original s c : num) : Prop := {
  view_threshold : _neuron_thresholds a !! i = Some th;
  view_leak : _neuron_leaks a !! i = Some l;
  view_reset : _neuron_reset_states a !! i = Some r;
  view_original : _neuron_refractory_periods_original a !! i = Some original;
  view_state : _internal_states a !! i = Some s;
  view_refractory : _neuron_refractory_periods a !! i = Some c;
  view_weights : (i < length (_weights a))%nat;
}.

(** The arguments [simulate_cpu_jit] means to pass to [lif_jit], given
    to the body of the kernel. *)
Definition lif_jit_on (tick : nat) (a : Arrays) : outcome lif_result :=
  lif_jit_body tick (_input_spikes a) (_spikes a) (_internal_states a)
    (_neuron_thresholds a) (_neuron_leaks a) (_neuron_reset_states a)
    (_neuron_refractory_periods a) (_neuron_refractory_periods_original a)
    (_weights a).

(** The dense arrays of one neuron with [threshold=0], [leak=inf],
    [reset_state=0], [refractory_period=2], inside its refractory period
    (counter 2), at rest, with an input of amplitude 1. *)
Definition one_neuron_arrays (state counter : num) (input : num) : Arrays := {|
  _neuron_thresholds := [zero];
  _neuron_leaks := [PInf];
  _neuron_reset_states := [zero];
  _neuron_refractory_periods_original := [of_Z 2];
  _internal_states := [state];
  _neuron_refractory_periods := [counter];
  _weights := [[zero]];
  _do_positive_update := false;
  _do_negative_update := false;
  _do_stdp := false;
  _stdp_enabled_synapses := [];
  _input_spikes := [[input]];
  _spikes := [0];
|}.

(** The fired vector the first tick of a call starts from: the last
    logged spike vector, or the zero vector when nothing is logged. *)
Definition previous_spikes (m : NeuromorphicModel) : list Z :=
  match last (spike_train m) with
  | Some spikes => spikes
  | None => replicate (num_neurons m) 0
  end.

(** What [simulate_cpu] runs before its loop when [manual_setup] is off. *)
Definition cpu_preamble (time_steps : nat) : M unit :=
  do_ modify (set_last_used_backend (Some "cpu"));
  do_ _setup;
  setup_input_spikes time_steps.


(** Two default neurons, a synapse of weight 1 from the first to the
    second, and an input spike on the first at tick 0. *)
Definition relay_pair : NeuromorphicModel :=
  after (add_spike (PInt 0) (ByHandle 0) (PInt 1))
    (after (create_synapse (ByHandle 0) (ByHandle 1) (PFloat one) (PInt 1) false)
       two_neurons).

(** [relay_pair] after a first call [simulate_cpu(1)]. *)
Definition relay_pair_after_one_tick : NeuromorphicModel :=
  after (simulate_cpu 1 None) relay_pair.

(** ** The chain a delayed synapse expands to *)

(** The ids of [k] neurons created on top of [n] existing ones. *)
Definition relay_ids (n k : nat) : list Z := Z.of_nat <$> seq n k.

(** The model after [create_neuron()]. *)
Definition default_neuron_added (m : NeuromorphicModel) : NeuromorphicModel :=
  MkModel (neuron_thresholds m ++ [zero]) (neuron_leaks m ++ [PInf])
    (neuron_states m ++ [zero]) (neuron_reset_states m ++ [zero])
    (neuron_refractory_periods m ++ [0])
    (neuron_refractory_periods_state m ++ [zero])
    (pre_synaptic_neuron_ids m) (post_synaptic_neuron_ids m)
    (synaptic_weights m) (synaptic_delays m) (enable_stdp m)
    (input_spikes m) (spike_train m) (stdp m) (_stdp_Apos m) (_stdp_Aneg m)
    (stdp_positive_update m) (stdp_negative_update m) (_backend m)
    (_last_used_backend m) (manual_setup m) (_arrays m).

(** The model after [k] passes through the loop of [create_synapse]
    that started from the presynaptic id [p]: [k] relay neurons with
    the defaults of [create_neuron] and [k] synapses of weight 1, delay
    1 and no STDP, from [p] to the first relay and from each relay to
    the next. *)
Definition relays_added (m : NeuromorphicModel) (p : Z) (k : nat)
    : NeuromorphicModel :=
  let relays := relay_ids (num_neurons m) k in
  MkModel (neuron_thresholds m ++ replicate k zero)
    (neuron_leaks m ++ replicate k PInf)
    (neuron_states m ++ replicate k zero)
    (neuron_reset_states m ++ replicate k zero)
    (neuron_refractory_periods m ++ replicate k 0)
    (neuron_refractory_periods_state m ++ replicate k zero)
    (pre_synaptic_neuron_ids m ++ take k (p :: relays))
    (post_synaptic_neuron_ids m ++ relays)
    (synaptic_weights m ++ replicate k one)
    (synaptic_delays m ++ replicate k 1)
    (enable_stdp m ++ replicate k false)
    (input_spikes m) (spike_train m) (stdp m) (_stdp_Apos m) (_stdp_Aneg m)
    (stdp_positive_update m) (stdp_negative_update m) (_backend m)
    (_last_used_backend m) (manual_setup m) (_arrays m).

(** The presynaptic id of the last synapse of the chain. *)
Definition chain_end (m : NeuromorphicModel) (p : Z) (k : nat) : Z :=
  default p (last (relay_ids (num_neurons m) k)).

(** The model after [create_synapse(p, q, weight=w, delay=k+1,
    stdp_enabled=s)]: the [k] relays, the [k] relay synapses, and a
    last synapse into [q] that carries [w] and [s]. *)
Definition chained (m : NeuromorphicModel) (p q : Z) (w : num) (s : bool)
    (k : nat) : NeuromorphicModel :=
  let relays := relay_ids (num_neurons m) k in
  MkModel (neuron_thresholds m ++ replicate k zero)
    (neuron_leaks m ++ replicate k PInf)
    (neuron_states m ++ replicate k zero)
    (neuron_reset_states m ++ replicate k zero)
    (neuron_refractory_periods m ++ replicate k 0)
    (neuron_refractory_periods_state m ++ replicate k zero)
    (pre_synaptic_neuron_ids m ++ p :: relays)
    (post_synaptic_neuron_ids m ++ relays ++ [q])
    (synaptic_weights m ++ replicate k one ++ [w])
    (synaptic_delays m ++ replicate (S k) 1)
    (enable_stdp m ++ replicate k false ++ [s])
    (input_spikes m) (spike_train m) (stdp m) (_stdp_Apos m) (_stdp_Aneg m)
    (stdp_positive_update m) (stdp_negative_update m) (_backend m)
    (_last_used_backend m) (manual_setup m) (_arrays m).

(** ** The STDP rule, lag by lag *)

(** The STDP window length [K]: what [stdp_time_steps] returns when
    its assertion holds. *)
Definition stdp_window (m : NeuromorphicModel) : nat :=
  if stdp_positive_update m then length (_stdp_Apos m)
  else if stdp_negative_update m then length (_stdp_Aneg m)
  else 0%nat.

(** [c * U] for a kernel coefficient [c] and an integer array [U]. *)
Definition kernel_times (c : num) (U : list (list Z)) : list (list num) :=
  (λ row : list Z, (λ u, c * of_Z u)%num <$> row) <$> U.

(** The update of one lag, with [coincidence] the outer product of the
    spike vector at that lag and the spike vector of the tick just
    computed:
    [weight += Apos[i] * coincidence * stdp_enabled] when the positive
    update is enabled, and
    [weight += Aneg[i] * (1 - coincidence) * stdp_enabled] when the
    negative update is enabled. *)
Definition stdp_lag (positive negative : bool) (ap an : num)
    (coincidence : list (list Z)) (stdp_enabled : list (list Z))
    (weights : list (list num)) : list (list num) :=
  let weights :=
    if positive
    then mat_add weights (mat_mask (kernel_times ap coincidence) stdp_enabled)
    else weights in
  if negative
  then mat_add weights
         (mat_mask (kernel_times an (one_minus_Z coincidence)) stdp_enabled)
  else weights.

(** The spike vector at lag [i]: lag 0 is the tick before the last
    logged one.  There is none when fewer than [i + 2] ticks are
    logged. *)
Definition lag_spikes (train : list (list Z)) (i : nat) : option (list Z) :=
  if bool_decide (i + 2 ≤ length train)%nat
  then train !! (length train - 2 - i)%nat
  else None.

(** Entry [i] of a kernel that is in use. *)
Definition kernel_at (enabled : bool) (kernel : list num) (i : nat)
    : option num :=
  if enabled then kernel !! i else Some zero.

(** The STDP rule of the specification: for each lag [i] in
    [[0, t_eff)] in turn, the update of that lag; [None] when a lag has
    no logged spike vector or an enabled kernel has no entry for it. *)
Definition stdp_spec (positive negative : bool) (stdp_enabled : list (list Z))
    (train : list (list Z)) (apos aneg : list num) (t_eff : nat)
    (weights : list (list num)) : option (list (list num)) :=
  now ← last train;
  foldl (λ acc i,
      weights ← acc;
      old ← lag_spikes train i;
      ap ← kernel_at positive apos i;
      an ← kernel_at negative aneg i;
      Some (stdp_lag positive negative ap an (np_outer_Z old now)
              stdp_enabled weights))
    (Some weights) (seq 0 t_eff).

(** The two-stage form of the reference backend: the weights plus the
    masked accumulated sums. *)
Definition summed (positive negative : bool) (W P N : list (list num))
    (mask : list (list Z)) : list (list num) :=
  let W := if positive then mat_add W (mat_mask P mask) else W in
  if negative then mat_add W (mat_mask N mask) else W.

(** The terms of lag [i]: the kernel entries and the coincidence matrix. *)
Definition lag_terms (positive negative : bool) (train : list (list Z))
    (apos aneg : list num) (i : nat) : num * num * list (list Z) :=
  (default zero (kernel_at positive apos i),
   default zero (kernel_at negative aneg i),
   np_outer_Z (default [] (lag_spikes train i)) (default [] (last train))).

(** A matrix of [r] rows and [c] columns. *)
Definition shape {A} (r c : nat) (X : list (list A)) : Prop :=
  length X = r ∧ Forall (λ row, length row = c) X.

(** What the STDP block relies on at a tick: the neuron count is
    fixed for the run, every logged spike vector has that length, the
    dense matrices are square, the two kernels have one length when
    both updates are enabled, and the flags [_setup] derived agree with
    those of the model. *)
Record stdp_ready (n : nat) (m : NeuromorphicModel) (a : Arrays)
    (input : list num) : Prop := {
  ready_neurons : num_neurons m = n;
  ready_nonempty : (0 < n)%nat;
  ready_train : Forall (λ row, length row = n) (spike_train m);
  ready_spikes : length (_spikes (lif_cpu input a)) = n;
  ready_weights : shape n n (_weights a);
  ready_mask : _do_stdp a = true → shape n n (_stdp_enabled_synapses a);
  ready_kernels :
    stdp_positive_update m = true → stdp_negative_update m = true →
    length (_stdp_Apos m) = length (_stdp_Aneg m);
  ready_positive : _do_positive_update a = true → stdp_positive_update m = true;
  ready_negative : _do_negative_update a = true → stdp_negative_update m = true;
  ready_do_stdp : _do_stdp a = _do_positive_update a || _do_negative_update a;
}.

(** Two default neurons, a synapse of weight 1 from the first to the
    second with STDP enabled, both kernels [[1, 1, 1]] (assigned as
    [stdp_setup] assigns them), and an input spike on the first neuron
    at ticks 0 and 1. *)
Definition stdp_pair : NeuromorphicModel :=
  set_stdp_Apos [one; one; one]
    (set_stdp_Aneg [one; one; one]
       (after (add_spike (PInt 1) (ByHandle 0) (PInt 1))
          (after (add_spike (PInt 0) (ByHandle 0) (PInt 1))
             (after (create_synapse (ByHandle 0) (ByHandle 1) (PFloat one)
                       (PInt 1) true)
                two_neurons)))).

(** [stdp_pair] inside [simulate_cpu(3)], after the first tick. *)
Definition stdp_pair_after_first_tick : NeuromorphicModel :=
  after (cpu_tick 3 None 0) (after (cpu_preamble 3) stdp_pair).

Definition empty_arrays : Arrays :=
  MkArrays [] [] [] [] [] [] [] false false false [] [] [].

(** A method that assigns neither [input_spikes] nor [manual_setup]. *)
Definition keeps_schedule {A} (c : M A) : Prop :=
  ∀ m, input_spikes (c m).2 = input_spikes m
       ∧ manual_setup (c m).2 = manual_setup m.

(** ** Well-formed models *)

(** The six per-neuron lists of the model have one length. *)
Definition neuron_lists_aligned (m : NeuromorphicModel) : Prop :=
  length (neuron_leaks m) = num_neurons m
  ∧ length (neuron_states m) = num_neurons m
  ∧ length (neuron_reset_states m) = num_neurons m
  ∧ length (neuron_refractory_periods m) = num_neurons m
  ∧ length (neuron_refractory_periods_state m) = num_neurons m.

(** The model after a [create_neuron] that passed its checks. *)
Definition neuron_added (th lk rs : num) (rp rf : Z) (st : num)
    (m : NeuromorphicModel) : NeuromorphicModel :=
  append_state st
    (append_refractory_state (of_Z rf)
       (append_refractory_period rp
          (append_reset_state rs (append_leak lk (append_threshold th m))))).

(** ** What [simulate] is given *)

(** [time_steps] passes the checks of [simulate]: it is an [int] or a
    float with an integral value, above zero. *)
Definition valid_time_steps (time_steps : pyval) (z : Z) : Prop :=
  is_intlike time_steps = Ret true ∧ py_int time_steps = Ret z ∧ 0 < z.

(** The backend name [simulate] dispatches on: [use], or [self.backend]
    when [use] is [None], in lower case. *)
Definition backend_name (use : option string) (m : NeuromorphicModel) : string :=
  lower (default (_backend m) use).

(** The score of [recommend]. *)
Definition score (m : NeuromorphicModel) (time_steps : Z) : Z :=
  Z.of_nat (num_neurons m) + 100 * time_steps.

(** ** Entries of a matrix *)

#[global] Instance outcome_eq_dec {A} `{EqDecision A} : EqDecision (outcome A).
Proof. solve_decision. Defined.

(** [M[p][q]], when the matrix has that entry. *)
Definition entry {A} (M : list (list A)) (p q : nat) : option A :=
  M !! p ≫= (.!! q).

(** Whether one of the index pairs [(rows[k], cols[k])] addresses the
    entry [(p, q)] of an [n × n] matrix. *)
Definition addressed (n : nat) (rows cols : list Z) (p q : nat) : bool :=
  existsb
    (λ rc : Z * Z,
       bool_decide (np_index n rc.1 = Ret p ∧ np_index n rc.2 = Ret q))
    (zip rows cols).

(** Two default neurons and two synapses from the first to the second,
    created in this order: weight 1 without STDP, weight 5 with STDP. *)
Definition duplicate_pair : NeuromorphicModel :=
  after (create_synapse (ByHandle 0) (ByHandle 1) (PFloat (of_Z 5)) (PInt 1) true)
    (after (create_synapse (ByHandle 0) (ByHandle 1) (PFloat one) (PInt 1) false)
       two_neurons).

(** The ids [create_synapse] stores are not negative. *)
Definition synapse_ids_nonneg (m : NeuromorphicModel) : Prop :=
  Forall (λ z, 0 ≤ z) (pre_synaptic_neuron_ids m)
  ∧ Forall (λ z, 0 ≤ z) (post_synaptic_neuron_ids m).

(** Synapse [k] goes from neuron [p] to neuron [q]. *)
Definition synapse_at (m : NeuromorphicModel) (k p q : nat) : Prop :=
  pre_synaptic_neuron_ids m !! k = Some (Z.of_nat p)
  ∧ post_synaptic_neuron_ids m !! k = Some (Z.of_nat q).

(** Synapse [k] is the last one created from [p] to [q]. *)
Definition last_synapse_at (m : NeuromorphicModel) (k p q : nat) : Prop :=
  synapse_at m k p q ∧ ∀ j, (k < j)%nat → ¬ synapse_at m j p q.

(** ** The input matrix, row by row *)

(** The fold of [setup_input_spikes] over the schedule. *)
Definition schedule_step (time_steps n : nat) (kv : Z * spikes_dict)
    (acc : outcome (list (list num))) : outcome (list (list num)) :=
  obind acc (λ mat,
    if bool_decide (kv.1 > Z.of_nat time_steps) then Ret mat
    else obind (np_index (S time_steps) kv.1) (λ r,
      write_spikes n mat r (nids kv.2) (values kv.2))).

(** One row under the assignments of one schedule entry:
    [row[neuron_id] = amplitude] for each pair of [zip(nids, values)],
    in order. *)
Fixpoint write_row (n : nat) (row : list num) (ids : list Z) (amps : list num)
    : outcome (list num) :=
  match ids, amps with
  | neuron_id :: ids, amplitude :: amps =>
      obind (np_index n neuron_id) (λ c,
        write_row n (<[c := amplitude]> row) ids amps)
  | _, _ => Ret row
  end.

(** Row [t] of the input matrix: zeros, overwritten by the entry of the
    schedule at tick [t] when there is one. *)
Definition input_row (n : nat) (d : option spikes_dict) : outcome (list num) :=
  match d with
  | Some d => write_row n (zeros n) (nids d) (values d)
  | None => Ret (zeros n)
  end.

(** The schedule as [add_spike] builds it: ticks are not negative, and
    each entry has as many ids as values. *)
Definition schedule_ok (m : NeuromorphicModel) : Prop :=
  ∀ t d, input_spikes m !! t = Some d →
    0 ≤ t ∧ length (nids d) = length (values d).

(** The model after [add_spike(t, i, v)] has passed its checks: the
    pair is appended to the entry of tick [t], created when absent. *)
Definition spike_added (t i : Z) (v : num) (m : NeuromorphicModel)
    : NeuromorphicModel :=
  let d := default (SpikesDict [] []) (input_spikes m !! t) in
  set_input_spikes
    (<[t := SpikesDict (nids d ++ [i]) (values d ++ [v])]> (input_spikes m)) m.

(** Neuron 0 of [two_neurons] with two input spikes at tick 1, of
    amplitudes 3 and then 4. *)
Definition twice_at_tick_one : NeuromorphicModel :=
  after (add_spike (PInt 1) (ByHandle 0) (PInt 3)) two_neurons.

(** ** Leak and refractory period over several ticks *)

(** A leak as [create_neuron] accepts it: not negative, possibly
    infinite. *)
Definition valid_leak (l : num) : Prop :=
  match l with
  | Fin q => (0 ≤ q)%Qc
  | PInf => True
  | _ => False
  end.

(** [k] passes through the loop body of [simulate_cpu] on the dense
    arrays, from tick [tick] on, in a run without STDP (the weights are
    left alone): each pass reads its row of the input matrix. *)
Fixpoint lif_cpu_ticks (k tick : nat) (a : Arrays) : outcome Arrays :=
  match k with
  | O => Ret a
  | S k =>
      obind (py_item (_input_spikes a) (Z.of_nat tick)) (λ input,
        lif_cpu_ticks k (S tick) (lif_cpu input a))
  end.

(** One neuron with threshold 0, leak 1, reset state 0, refractory
    period 2 and initial state 3, after [_setup]. *)
Definition leaky_neuron : NeuromorphicModel :=
  after _setup (after (create_neuron (with_kwargs zero one zero 2 (of_Z 3))) init).

(** One neuron with refractory period 2 that starts inside its
    refractory period (counter 2), with an input spike of amplitude 5
    at tick 0, set up for a run of two ticks. *)
Definition dormant_neuron : NeuromorphicModel :=
  after (setup_input_spikes 2)
    (after _setup
       (after (add_spike (PInt 0) (ByHandle 0) (PInt 5))
          (after (create_neuron
                    (NeuronKwargs (PFloat zero) (PFloat PInf) (PFloat zero)
                       (PInt 2) (PInt 2) (PFloat zero))) init))).

(** ** What a run reads and what it leaves alone *)

(** A method that leaves the view [f] of the model as it was, whether
    it returns or raises. *)
Definition preserves {A X} (f : NeuromorphicModel → X) (c : M A) : Prop :=
  ∀ m, f (c m).2 = f m.

(** The network and its configuration: the parameters of the neurons,
    the synapses without their weights, the STDP settings and the
    backend settings. *)
Definition network (m : NeuromorphicModel) :=
  (neuron_thresholds m, neuron_leaks m, neuron_reset_states m,
   neuron_refractory_periods m,
   (pre_synaptic_neuron_ids m, post_synaptic_neuron_ids m, synaptic_delays m,
    enable_stdp m),
   (stdp m, _stdp_Apos m, _stdp_Aneg m, stdp_positive_update m,
    stdp_negative_update m),
   (_backend m, manual_setup m)).

(** The assertion of [stdp_time_steps] holds. *)
Definition kernels_consistent (m : NeuromorphicModel) : Prop :=
  stdp_positive_update m = true → stdp_negative_update m = true →
  length (_stdp_Apos m) = length (_stdp_Aneg m).

(** The model after a tick that left the arrays [a']: the arrays are
    stored and the spike vector is logged. *)
Definition logged (a' : Arrays) (m : NeuromorphicModel) : NeuromorphicModel :=
  append_spike_train (_spikes a') (set_arrays (Some a') m).

(** Two default neurons connected both ways, with STDP enabled on the
    synapse from the first to the second only, and kernels
    [Apos = [inf]], [Aneg = [0]] (assigned as [stdp_setup] assigns
    them). *)
Definition infinite_kernel_pair : NeuromorphicModel :=
  set_stdp_Apos [PInf]
    (set_stdp_Aneg [zero]
       (after (create_synapse (ByHandle 1) (ByHandle 0) (PFloat one) (PInt 1) false)
          (after (create_synapse (ByHandle 0) (ByHandle 1) (PFloat one) (PInt 1)
                    true)
             two_neurons))).

(** ** Two runs against one *)

(** The model with its staging fields replaced: the input matrix of
    the dense arrays, the three lists [devec] writes and the schedule.
    The loop of [simulate_cpu] reads none of them but the row of the
    tick. *)
Definition restage (X : list (list num)) (states refractory weights : list num)
    (schedule : gmap Z spikes_dict) (m : NeuromorphicModel) : NeuromorphicModel :=
  MkModel (neuron_thresholds m) (neuron_leaks m) states (neuron_reset_states m)
    (neuron_refractory_periods m) refractory (pre_synaptic_neuron_ids m)
    (post_synaptic_neuron_ids m) weights (synaptic_delays m) (enable_stdp m)
    schedule (spike_train m) (stdp m) (_stdp_Apos m) (_stdp_Aneg m)
    (stdp_positive_update m) (stdp_negative_update m) (_backend m)
    (_last_used_backend m) (manual_setup m)
    (set_arr_input_spikes X <$> _arrays m).

(** The model during and after a run of the reference backend: what a
    run writes is replaced, the network is that of [m]. *)
Definition with_run (states refractory weights : list num)
    (schedule : gmap Z spikes_dict) (train : list (list Z))
    (a : option Arrays) (m : NeuromorphicModel) : NeuromorphicModel :=
  MkModel (neuron_thresholds m) (neuron_leaks m) states (neuron_reset_states m)
    (neuron_refractory_periods m) refractory (pre_synaptic_neuron_ids m)
    (post_synaptic_neuron_ids m) weights (synaptic_delays m) (enable_stdp m)
    schedule train (stdp m) (_stdp_Apos m) (_stdp_Aneg m)
    (stdp_positive_update m) (stdp_negative_update m) (_backend m)
    (Some "cpu"%string) (manual_setup m) a.

(** The model without the input matrix of its dense arrays, which a
    run sizes by its own length. *)
Definition forget_input_matrix (m : NeuromorphicModel) : NeuromorphicModel :=
  set_arrays (set_arr_input_spikes [] <$> _arrays m) m.

(** The arrays with what a tick writes replaced: the states, the
    refractory counters, the weights and the fired vector. *)
Definition with_dynamics (states refractory : list num) (W : list (list num))
    (spikes : list Z) (a : Arrays) : Arrays :=
  set_arr_weights W
    (set_arr_spikes spikes
       (set_arr_neuron_refractory_periods refractory
          (set_arr_internal_states states a))).

(** The flags [_setup] derives for the two STDP updates. *)
Definition positive_update_active (m : NeuromorphicModel) : bool :=
  stdp m && existsb id (enable_stdp m) && stdp_positive_update m
  && any_truthy (_stdp_Apos m).

Definition negative_update_active (m : NeuromorphicModel) : bool :=
  stdp m && existsb id (enable_stdp m) && stdp_negative_update m
  && any_truthy (_stdp_Aneg m).

(** The matrix [_stdp_enabled_synapses] after [_setup]: rebuilt when an
    update is active, left as it is otherwise. *)
Definition setup_mask (m : NeuromorphicModel) : outcome (list (list Z)) :=
  if positive_update_active m || negative_update_active m
  then stdp_enabled_mat m
  else Ret (from_option _stdp_enabled_synapses [] (_arrays m)).

(** The arrays [_setup] builds from the weight matrix [W] and the
    matrix [mask] of the synapses with STDP. *)
Definition setup_arrays (m : NeuromorphicModel) (W : list (list num))
    (mask : list (list Z)) : Arrays := {|
  _neuron_thresholds := neuron_thresholds m;
  _neuron_leaks := neuron_leaks m;
  _neuron_reset_states := neuron_reset_states m;
  _neuron_refractory_periods_original := of_Z <$> neuron_refractory_periods m;
  _internal_states := neuron_states m;
  _neuron_refractory_periods := neuron_refractory_periods_state m;
  _weights := W;
  _do_positive_update := positive_update_active m;
  _do_negative_update := negative_update_active m;
  _do_stdp := positive_update_active m || negative_update_active m;
  _stdp_enabled_synapses := mask;
  _input_spikes := zeros2 zero 1 (num_neurons m);
  _spikes := previous_spikes m;
|}.

(** The schedule [consume_input_spikes] leaves. *)
Definition consumed (time_steps : nat) (schedule : gmap Z spikes_dict)
    : gmap Z spikes_dict :=
  kmap (λ t, t - Z.of_nat time_steps)
    (filter (λ kv : Z * spikes_dict, Z.of_nat time_steps ≤ kv.1) schedule).

(** STDP is switched off, or no synapse has it enabled. *)
Definition without_stdp (m : NeuromorphicModel) : Prop :=
  stdp m && existsb id (enable_stdp m) = false.

(** The vectors of the dense arrays have length [n] and the weight
    matrix is [n × n]. *)
Record arrays_shaped (n : nat) (a : Arrays) : Prop := {
  shaped_thresholds : length (_neuron_thresholds a) = n;
  shaped_leaks : length (_neuron_leaks a) = n;
  shaped_reset_states : length (_neuron_reset_states a) = n;
  shaped_original : length (_neuron_refractory_periods_original a) = n;
  shaped_states : length (_internal_states a) = n;
  shaped_refractory : length (_neuron_refractory_periods a) = n;
  shaped_weights : shape n n (_weights a);
  shaped_spikes : length (_spikes a) = n;
}.

(** What the loop of [simulate_cpu] keeps when STDP is active: shapes,
    the flags [_setup] derived, and finite kernels. *)
Record run_ready (n : nat) (m : NeuromorphicModel) (a : Arrays) : Prop := {
  run_neurons : num_neurons m = n;
  run_nonempty : (0 < n)%nat;
  run_train : Forall (λ row, length row = n) (spike_train m);
  run_arrays : arrays_shaped n a;
  run_mask : _do_stdp a = true → shape n n (_stdp_enabled_synapses a);
  run_positive : _do_positive_update a = true → stdp_positive_update m = true;
  run_negative : _do_negative_update a = true → stdp_negative_update m = true;
  run_do_stdp : _do_stdp a = _do_positive_update a || _do_negative_update a;
  run_Apos : Forall Num.is_finite (_stdp_Apos m);
  run_Aneg : Forall Num.is_finite (_stdp_Aneg m);
}.

(** The weight matrix holds 0 wherever no synapse is. *)
Definition supported (n : nat) (rows cols : list Z) (W : list (list num))
    : Prop :=
  ∀ p q, (p < n)%nat → (q < n)%nat → addressed n rows cols p q = false →
    entry W p q = Some zero.

(** One neuron with refractory period 2 (threshold 0, counter 0) and an
    input spike of amplitude 5 at each of the ticks 0, 1 and 2, set up
    for a run of three ticks. *)
Definition eager_neuron : NeuromorphicModel :=
  after (setup_input_spikes 3)
    (after _setup
       (after (add_spike (PInt 2) (ByHandle 0) (PInt 5))
          (after (add_spike (PInt 1) (ByHandle 0) (PInt 5))
             (after (add_spike (PInt 0) (ByHandle 0) (PInt 5))
                (after (create_neuron
                          (NeuronKwargs (PFloat zero) (PFloat PInf) (PFloat zero)
                             (PInt 2) (PInt 0) (PFloat zero))) init))))).

(** ** Resetting and releasing *)

(** <<
    def zero_neuron_states(self):
        self.neuron_states = np.zeros(self.num_neurons, self.dd).tolist()
    >> *)
Definition zero_neuron_states : M unit :=
  do n <- gets num_neurons;
  modify (set_neuron_states (zeros n)).

(** <<
    def zero_refractory_periods(self):
        self.neuron_refractory_periods_state = np.zeros(self.num_neurons, self.dd).tolist()
    >> *)
Definition zero_refractory_periods : M unit :=
  do n <- gets num_neurons;
  modify (set_neuron_refractory_periods_state (zeros n)).

(** <<
    def clear_spike_train(self):
        self.spike_train = []
    >> *)
Definition clear_spike_train : M unit :=
  modify (set_spike_train []).

(** [reset] *)
Definition reset : M unit :=
  do_ zero_neuron_states;
  do_ zero_refractory_periods;
  clear_spike_train.

(** [release_mem]: the arrays [_setup] created are deleted, the first
    [del] raising [AttributeError] when there are none.  The three
    flags [_do_stdp], [_do_positive_update] and [_do_negative_update]
    are not deleted; no method reads them before one of the deleted
    arrays or a new [_setup]. *)
Definition release_mem : M unit :=
  do_ arrays;
  modify (set_arrays None).

(** The assignment [model.manual_setup = value]. *)
Definition set_manual_setup (v : bool) (m : NeuromorphicModel)
    : NeuromorphicModel :=
  MkModel
    (neuron_thresholds m) (neuron_leaks m) (neuron_states m)
    (neuron_reset_states m) (neuron_refractory_periods m)
    (neuron_refractory_periods_state m) (pre_synaptic_neuron_ids m)
    (post_synaptic_neuron_ids m) (synaptic_weights m) (synaptic_delays m)
    (enable_stdp m) (input_spikes m) (spike_train m) (stdp m)
    (_stdp_Apos m) (_stdp_Aneg m) (stdp_positive_update m)
    (stdp_negative_update m) (_backend m) (_last_used_backend m) v (_arrays m).

(** [eager_neuron] under [manual_setup]. *)
Definition manual_neuron : NeuromorphicModel :=
  set_manual_setup true eager_neuron.

(** ** [stdp_setup] *)

(** The arguments [Apos] and [Aneg] of [stdp_setup]: [None], the
    default, or a list. *)
Inductive kernel_arg : Type :=
  | KNone
  | KList (l : list pyval).

(** What a call of [stdp_setup] does: it raises (the [RuntimeError] of
    its last check is kept apart), or it sets [stdp] and assigns its
    four last arguments as they are. *)
Inductive stdp_setup_result : Type :=
  | StdpRaise (e : exn)
  | StdpRuntimeError
  | StdpAssigned (Apos Aneg : kernel_arg) (positive_update negative_update : bool).

(** The checks on the kernel of an enabled update:
    <<
    if not isinstance(Apos, (list, np.ndarray)):
        raise TypeError("Apos should be a list")
    if len(Apos) != time_steps:
        raise ValueError(msg)
    if not all([isinstance(x, (int, float)) for x in Apos]):
        raise ValueError("All elements in Apos should be int or float")
    >> *)
Definition check_kernel (k : kernel_arg) (time_steps : Z) : option exn :=
  match k with
  | KNone => Some TypeError
  | KList l =>
      if bool_decide (Z.of_nat (length l) ≠ time_steps) then Some ValueError
      else if negb (forallb isinstance_int_float l) then Some ValueError
      else None
  end.

(** [stdp_setup]; the two checks on the sign of the entries are
    commented out in the source. *)
Definition stdp_setup (time_steps : pyval) (Apos Aneg : kernel_arg)
    (positive_update negative_update : bool) (m : NeuromorphicModel)
    : stdp_setup_result :=
  if negb (isinstance_int_float time_steps) then StdpRaise TypeError
  else
    match is_intlike time_steps with
    | Raise e => StdpRaise e
    | Ret false => StdpRaise TypeError
    | Ret true =>
        match py_int time_steps with
        | Raise e => StdpRaise e
        | Ret time_steps =>
            if bool_decide (time_steps ≤ 0) then StdpRaise ValueError
            else
              match (if positive_update then check_kernel Apos time_steps
                     else None) with
              | Some e => StdpRaise e
              | None =>
                  match (if negative_update then check_kernel Aneg time_steps
                         else None) with
                  | Some e => StdpRaise e
                  | None =>
                      if negb (existsb id (enable_stdp m)) then StdpRuntimeError
                      else StdpAssigned Apos Aneg positive_update
                             negative_update
                  end
              end
        end
    end.

(** A kernel given as a list of numbers, as the float array [_setup]
    makes of it. *)
Definition kernel_floats (k : kernel_arg) : option (list num) :=
  match k with
  | KNone => None
  | KList l =>
      mapM (λ v, match py_float v with Ret x => Some x | Raise _ => None end) l
  end.

(** The model after the five assignments of [stdp_setup], for kernels
    that are lists of numbers. *)
Definition stdp_assigned (Apos Aneg : list num)
    (positive_update negative_update : bool) (m : NeuromorphicModel)
    : NeuromorphicModel :=
  MkModel
    (neuron_thresholds m) (neuron_leaks m) (neuron_states m)
    (neuron_reset_states m) (neuron_refractory_periods m)
    (neuron_refractory_periods_state m) (pre_synaptic_neuron_ids m)
    (post_synaptic_neuron_ids m) (synaptic_weights m) (synaptic_delays m)
    (enable_stdp m) (input_spikes m) (spike_train m) true
    Apos Aneg positive_update negative_update (_backend m)
    (_last_used_backend m) (manual_setup m) (_arrays m).

(** ** A network at rest *)

(** The dense arrays of a network at rest: every neuron is at its
    reset state, which is finite and not above its threshold, no neuron
    fired at the previous tick, and the weights are finite. *)
Record at_rest (n : nat) (a : Arrays) : Prop := {
  rest_shaped : arrays_shaped n a;
  rest_states : _internal_states a = _neuron_reset_states a;
  rest_finite : Forall Num.is_finite (_neuron_reset_states a);
  rest_below :
    Forall2 (λ r th, Num.gtb r th = false) (_neuron_reset_states a)
      (_neuron_thresholds a);
  rest_weights : Forall (Forall Num.is_finite) (_weights a);
  rest_spikes : _spikes a = replicate n 0;
}.

(** ** Conversions that can overflow *)




(** * Properties *)

(** ** Arithmetic of [num] *)

Module NumFacts.

Lemma add_comm (x y : num) : (x + y)%num = (y + x)%num.
Proof. destruct x, y; simpl; try done. by rewrite Qcplus_comm. Qed.

Lemma add_assoc (x y z : num) : (x + (y + z))%num = (x + y + z)%num.
Proof. destruct x, y, z; simpl; try done. by rewrite Qcplus_assoc. Qed.

Lemma add_zero_r (x : num) : (x + zero)%num = x.
Proof.
  destruct x; simpl; try done.
  by rewrite Z2Qc_inj_0, Qcplus_0_r.
Qed.

Lemma add_zero_l (x : num) : (zero + x)%num = x.
Proof. by rewrite add_comm, add_zero_r. Qed.

Lemma mul_comm (x y : num) : (x * y)%num = (y * x)%num.
Proof. destruct x, y; simpl; try done. by rewrite Qcmult_comm. Qed.

(** Multiplication by a finite factor distributes over addition,
    infinite and undefined summands included. *)
Lemma mul_add_distr_r (x y : num) (c : Qc) :
  ((x + y) * Fin c)%num = (x * Fin c + y * Fin c)%num.
Proof.
  destruct x, y; simpl; try done;
    unfold Num.mul_inf; try (by destruct (Qc_sgn c)).
  by rewrite Qcmult_plus_distr_l.
Qed.

Lemma mul_zero_l (c : Qc) : (zero * Fin c)%num = zero.
Proof. unfold zero, of_Z. rewrite Z2Qc_inj_0. simpl. by rewrite Qcmult_0_l. Qed.

Lemma of_Z_sub (a b : Z) : (of_Z a - of_Z b)%num = of_Z (a - b).
Proof. unfold of_Z, Num.sub. simpl. by rewrite Z2Qc_inj_sub. Qed.

Example inf_minus_inf : (PInf - PInf)%num = NaN.
Proof. reflexivity. Qed.

Lemma ltb_irrefl (x : num) : Num.ltb x x = false.
Proof.
  destruct x; simpl; try done.
  apply bool_decide_eq_false, (irreflexivity Qclt).
Qed.

End NumFacts.

(** ** Sequencing *)

(** A sequence raises when its head does, or when its tail always does. *)
Lemma bind_raises_l {A B} (c : M A) (k : A → M B) m :
  (∃ e, (c m).1 = Raise e) → ∃ e, (bind c k m).1 = Raise e.
Proof.
  intros [e He]. unfold bind. destruct (c m) as [[a|e'] m']; simpl in *; eauto.
  discriminate.
Qed.

Lemma bind_raises_r {A B} (c : M A) (k : A → M B) m :
  (∀ a m', ∃ e, (k a m').1 = Raise e) → ∃ e, (bind c k m).1 = Raise e.
Proof.
  intros Hk. unfold bind. destruct (c m) as [[a|e'] m']; simpl; eauto.
Qed.

(** A sequence that returns: its head returned, and so did its tail. *)
Lemma bind_ret_inv {A B} (c : M A) (k : A → M B) m b m2 :
  bind c k m = (Ret b, m2) →
  ∃ a m1, c m = (Ret a, m1) ∧ k a m1 = (Ret b, m2).
Proof.
  unfold bind. destruct (c m) as [[a|e] m1]; [|done]. intros H. by exists a, m1.
Qed.

Lemma lift_ret_inv {A} (o : outcome A) m a m1 :
  lift o m = (Ret a, m1) → o = Ret a ∧ m1 = m.
Proof. unfold lift. by intros [= -> ->]. Qed.

(** ** Validation and construction *)

(** C7, at [create_neuron(reset_state=None)] on a fresh model: the
    call raises [TypeError], as the docstring promises for a
    [reset_state] that is not a number, but only at
    [float(reset_state)], after the threshold and the leak have been
    appended: the model is left with one threshold, one leak and no
    other neuron field, so it is not unchanged. *)
Theorem create_neuron_reset_state_none_mutates :
  let r := create_neuron reset_state_none init in
  r.1 = Raise TypeError
  ∧ neuron_thresholds r.2 = [zero]
  ∧ neuron_leaks r.2 = [PInf]
  ∧ neuron_reset_states r.2 = []
  ∧ neuron_states r.2 = []
  ∧ num_neurons r.2 = 1%nat
  ∧ r.2 ≠ init.
Proof. vm_compute. repeat split; try reflexivity. discriminate. Qed.

(** ** Rejections that leave the model unchanged *)

Lemma create_synapse_rec_S (depth : nat) :
  create_synapse_rec (S depth) = create_synapse_body (create_synapse_rec depth).
Proof. reflexivity. Qed.

Lemma create_synapse_depth (pre_id post_id : neuron_arg) (weight delay : pyval)
    (s : bool) :
  create_synapse pre_id post_id weight delay s =
    create_synapse_rec (S (S 998)) pre_id post_id weight delay s.
Proof. reflexivity. Qed.

(** [create_neuron] with a negative leak. *)
Lemma create_neuron_negative_leak (kw : neuron_kwargs) (m : NeuromorphicModel) :
  isinstance_int_float (threshold kw) = true →
  isinstance_int_float (leak kw) = true →
  py_lt_zero (leak kw) = true →
  create_neuron kw m = (Raise ValueError, m).
Proof.
  intros Hth Hlk Hneg. unfold create_neuron, bind, raise_if.
  by rewrite Hth, Hlk, Hneg.
Qed.

(** [create_neuron] with a negative integer refractory period. *)
Lemma create_neuron_negative_refractory_period (kw : neuron_kwargs) (z : Z)
    (m : NeuromorphicModel) :
  isinstance_int_float (threshold kw) = true →
  isinstance_int_float (leak kw) = true →
  py_lt_zero (leak kw) = false →
  refractory_period kw = PInt z → z < 0 →
  create_neuron kw m = (Raise ValueError, m).
Proof.
  intros Hth Hlk Hneg Hrp Hz. unfold create_neuron, bind, raise_if, lift.
  rewrite Hth, Hlk, Hneg, Hrp. cbn.
  by rewrite bool_decide_eq_true_2.
Qed.

(** [create_neuron] with a [threshold] that is not a number. *)
Lemma create_neuron_threshold_type (kw : neuron_kwargs) (m : NeuromorphicModel) :
  isinstance_int_float (threshold kw) = false →
  create_neuron kw m = (Raise TypeError, m).
Proof. intros Hth. unfold create_neuron, bind, raise_if. by rewrite Hth. Qed.

(** [create_synapse] with a delay that is not positive. *)
Lemma create_synapse_nonpositive_delay (pre_id post_id : neuron_arg) (p q d : Z)
    (weight : pyval) (s : bool) (m : NeuromorphicModel) :
  neuron_arg_value pre_id = PInt p →
  neuron_arg_value post_id = PInt q →
  0 ≤ p → 0 ≤ q → d ≤ 0 →
  isinstance_int_float weight = true →
  create_synapse pre_id post_id weight (PInt d) s m = (Raise ValueError, m).
Proof.
  intros Hp Hq Hp0 Hq0 Hd Hw. rewrite create_synapse_depth.
  generalize 998%nat. intros depth.
  rewrite create_synapse_rec_S. unfold create_synapse_body.
  rewrite Hp, Hq, Hw. unfold bind, raise_if, lift. cbn.
  rewrite !bool_decide_eq_false_2 by lia.
  by rewrite bool_decide_eq_true_2.
Qed.

(** [add_spike] with a negative time or a negative neuron id. *)
Lemma add_spike_negative (time id : Z) (neuron_id : neuron_arg) (value : pyval)
    (m : NeuromorphicModel) :
  neuron_arg_value neuron_id = PInt id →
  isinstance_int_float value = true →
  time < 0 ∨ id < 0 →
  add_spike (PInt time) neuron_id value m = (Raise ValueError, m).
Proof.
  intros Hid Hv Hneg. unfold add_spike, bind, raise_if, lift.
  rewrite Hid, Hv. cbn.
  destruct (decide (time < 0)) as [Ht|Ht].
  - by rewrite bool_decide_eq_true_2.
  - rewrite bool_decide_eq_false_2 by done.
    rewrite bool_decide_eq_true_2; [done|]. by destruct Hneg.
Qed.

(** [create_neuron(refractory_period=np.inf)]: [int(inf)] raises
    [OverflowError], neither [ValueError] nor [TypeError]; the model is
    unchanged. *)
Example create_neuron_refractory_period_inf :
  create_neuron (NeuronKwargs (PFloat zero) (PFloat PInf) (PFloat zero)
                   (PFloat PInf) (PInt 0) (PFloat zero)) init
  = (Raise OverflowError, init).
Proof. reflexivity. Qed.

(** ** Delay expansion *)

Lemma create_neuron_defaults (m : NeuromorphicModel) :
  create_neuron neuron_defaults m =
    (Ret (Z.of_nat (num_neurons m)), default_neuron_added m).
Proof.
  unfold create_neuron, bind, raise_if, lift, modify, gets, ret. cbn.
  rewrite !bool_decide_eq_false_2 by lia.
  unfold default_neuron_added, num_neurons. cbn. f_equal.
  f_equal. rewrite length_app. cbn. lia.
Qed.

Lemma py_float_isinstance (v : pyval) (w : num) :
  py_float v = Ret w → isinstance_int_float v = true.
Proof. by destruct v. Qed.

(** A call with [delay=1] appends one synapse. *)
Lemma create_synapse_rec_unit (depth : nat) (pre_id post_id : neuron_arg)
    (weight : pyval) (w : num) (s : bool) (p q : Z) (m : NeuromorphicModel) :
  neuron_arg_value pre_id = PInt p →
  neuron_arg_value post_id = PInt q →
  0 ≤ p → 0 ≤ q →
  py_float weight = Ret w →
  create_synapse_rec (S depth) pre_id post_id weight (PInt 1) s m =
    (Ret (Z.of_nat (num_synapses m)), append_synapse p q w 1 s m).
Proof.
  intros Hp Hq Hp0 Hq0 Hw. rewrite create_synapse_rec_S.
  unfold create_synapse_body.
  rewrite Hp, Hq, (py_float_isinstance _ _ Hw), Hw.
  unfold bind, raise_if, lift, modify, gets, ret. cbn [not_int_valued
    isinstance_int_float isinstance_int is_intlike negb obind py_int fst snd].
  rewrite !bool_decide_eq_false_2 by lia.
  rewrite bool_decide_eq_true_2 by done.
  unfold num_synapses. cbn. f_equal. f_equal. rewrite length_app. cbn. lia.
Qed.

Lemma relay_ids_S (n k : nat) :
  relay_ids n (S k) = Z.of_nat n :: relay_ids (S n) k.
Proof. reflexivity. Qed.

Lemma length_relay_ids (n k : nat) : length (relay_ids n k) = k.
Proof. unfold relay_ids. by rewrite length_fmap, length_seq. Qed.

(** One pass of the loop adds a default neuron and a synapse into it. *)
Lemma relay_pass_unit (depth : nat) (pre_id : neuron_arg) (p : Z)
    (m : NeuromorphicModel) :
  neuron_arg_value pre_id = PInt p → 0 ≤ p →
  relay_pass (create_synapse_rec (S depth)) pre_id m =
    (Ret (ByHandle (Z.of_nat (num_neurons m))),
     append_synapse p (Z.of_nat (num_neurons m)) one 1 false
       (default_neuron_added m)).
Proof.
  intros Hp Hp0. unfold relay_pass, bind.
  rewrite create_neuron_defaults.
  rewrite (create_synapse_rec_unit depth pre_id _ (PFloat one) one false p
             (Z.of_nat (num_neurons m))); try done. lia.
Qed.

Lemma default_last_cons (p x : Z) (l : list Z) :
  default p (last (x :: l)) = default x (last l).
Proof.
  destruct l as [|z l]; [done|]. rewrite last_cons_cons.
  destruct (last (z :: l)) eqn:E; [done|]. by apply last_None in E.
Qed.

Lemma take_chain_snoc (p : Z) (relays : list Z) :
  take (length relays) (p :: relays) ++ [default p (last relays)] = p :: relays.
Proof.
  revert p. induction relays as [|r relays IH]; intros p; [done|].
  cbn [length take app]. f_equal. rewrite default_last_cons. apply IH.
Qed.

(** The loop of [create_synapse] after [k] passes. *)
Lemma relay_loop (depth k : nat) (pre_id : neuron_arg) (p : Z)
    (m : NeuromorphicModel) :
  neuron_arg_value pre_id = PInt p → 0 ≤ p →
  ∃ pre_id',
    for_range k (relay_pass (create_synapse_rec (S depth))) pre_id m =
      (Ret pre_id', relays_added m p k)
    ∧ neuron_arg_value pre_id' = PInt (chain_end m p k).
Proof.
  revert pre_id p m. induction k as [|k IH]; intros pre_id p m Hp Hp0.
  - exists pre_id. split; [|done]. cbn [for_range]. unfold ret. f_equal.
    destruct m. unfold relays_added. cbn. by rewrite !app_nil_r.
  - cbn [for_range]. unfold bind at 1.
    rewrite (relay_pass_unit depth pre_id p m Hp Hp0).
    destruct (IH (ByHandle (Z.of_nat (num_neurons m)))
                (Z.of_nat (num_neurons m))
                (append_synapse p (Z.of_nat (num_neurons m)) one 1 false
                   (default_neuron_added m)))
      as (pre_id' & Hloop & Hend); [done|lia|].
    exists pre_id'. rewrite Hloop. split.
    + f_equal. unfold relays_added, append_synapse, default_neuron_added,
        num_neurons.
      cbn [neuron_thresholds neuron_leaks neuron_states neuron_reset_states
           neuron_refractory_periods neuron_refractory_periods_state
           pre_synaptic_neuron_ids post_synaptic_neuron_ids synaptic_weights
           synaptic_delays enable_stdp input_spikes spike_train stdp _stdp_Apos
           _stdp_Aneg stdp_positive_update stdp_negative_update _backend
           _last_used_backend manual_setup _arrays].
      rewrite length_app. cbn [length].
      replace (length (neuron_thresholds m) + 1)%nat
        with (S (length (neuron_thresholds m))) by lia.
      rewrite relay_ids_S.
      f_equal; rewrite <- app_assoc; reflexivity.
    + rewrite Hend. f_equal. unfold chain_end, num_neurons, append_synapse,
        default_neuron_added.
      cbn [neuron_thresholds]. rewrite length_app. cbn [length].
      replace (length (neuron_thresholds m) + 1)%nat
        with (S (length (neuron_thresholds m))) by lia.
      by rewrite relay_ids_S, default_last_cons.
Qed.

(** C3, as the code has it: [create_synapse(pre, post, weight, delay,
    stdp_enabled)] with an integer delay [d > 1], non-negative ids and
    a numeric weight returns, and the model gains exactly [d - 1] relay
    neurons, each with threshold 0, leak [+inf] (the default of
    [create_neuron]), reset state 0, refractory period 0 and state 0,
    chained from [pre] to [post] by [d] synapses of delay 1, of which
    only the last, into [post], carries the requested weight and
    [stdp_enabled] flag; the others have weight 1 and STDP disabled.
    Nothing else in the model changes. *)
Theorem create_synapse_delay_expands_to_chain (m : NeuromorphicModel)
    (pre_id post_id : neuron_arg) (p q d : Z) (weight : pyval) (w : num)
    (s : bool) :
  neuron_arg_value pre_id = PInt p →
  neuron_arg_value post_id = PInt q →
  0 ≤ p → 0 ≤ q → 1 < d →
  py_float weight = Ret w →
  create_synapse pre_id post_id weight (PInt d) s m =
    (Ret (Z.of_nat (num_synapses m) + d - 1),
     chained m p q w s (Z.to_nat (d - 1))).
Proof.
  intros Hp Hq Hp0 Hq0 Hd Hw. rewrite create_synapse_depth.
  generalize 998%nat. intros depth.
  rewrite create_synapse_rec_S. unfold create_synapse_body.
  rewrite Hp, Hq, (py_float_isinstance _ _ Hw).
  unfold bind at 1 2 3 4 5 6 7 8 9 10 11 12.
  unfold raise_if, lift, ret. cbn [not_int_valued isinstance_int_float
    isinstance_int is_intlike negb obind py_int fst snd].
  rewrite !bool_decide_eq_false_2 by lia.
  unfold bind at 1 2.
  unfold bind at 1 2.
  destruct (relay_loop depth (Z.to_nat (d - 1)) (ById (PInt p)) p m eq_refl Hp0)
    as (pre_id' & -> & Hend).
  rewrite (create_synapse_rec_unit depth pre_id' (ById (PInt q)) weight w s
             (chain_end m p (Z.to_nat (d - 1))) q); try done.
  2:{ unfold chain_end, relay_ids. destruct (last _) as [z|] eqn:Hl; [|done].
      apply last_Some_elem_of, list_elem_of_fmap in Hl as (j & -> & _).
      cbn. lia. }
  unfold gets, bind, ret. cbn [fst snd]. f_equal.
  - unfold num_synapses, append_synapse, relays_added.
    cbn [pre_synaptic_neuron_ids]. rewrite !length_app, length_take.
    cbn [length]. rewrite length_relay_ids. f_equal. lia.
  - unfold append_synapse, relays_added, chained, chain_end.
    cbn [neuron_thresholds neuron_leaks neuron_states neuron_reset_states
         neuron_refractory_periods neuron_refractory_periods_state
         pre_synaptic_neuron_ids post_synaptic_neuron_ids synaptic_weights
         synaptic_delays enable_stdp input_spikes spike_train stdp _stdp_Apos
         _stdp_Aneg stdp_positive_update stdp_negative_update _backend
         _last_used_backend manual_setup _arrays].
    f_equal; rewrite <- ?app_assoc; try reflexivity.
    + f_equal.
      rewrite <- (length_relay_ids (num_neurons m) (Z.to_nat (d - 1))) at 1.
      apply take_chain_snoc.
    + f_equal. by rewrite replicate_S_end.
Qed.

Lemma create_synapse_delay_expands_to_chain_witness :
  create_synapse (ById (PInt 0)) (ByHandle 1) (PFloat (of_Z 5)) (PInt 3) true
    two_neurons =
    (Ret (Z.of_nat (num_synapses two_neurons) + 3 - 1),
     chained two_neurons 0 1 (of_Z 5) true (Z.to_nat (3 - 1))).
Proof.
  apply (create_synapse_delay_expands_to_chain two_neurons (ById (PInt 0))
           (ByHandle 1) 0 1 3 (PFloat (of_Z 5)) (of_Z 5) true);
    [reflexivity|reflexivity|lia|lia|lia|reflexivity].
Defined.

(** C3 as stated fails on the leak of the relays:
    [create_synapse(0, 1, weight=5, delay=2, stdp_enabled=True)] on two
    neurons creates one relay neuron, of index 2, by [create_neuron()],
    whose leak is the default [+inf], not 0. *)
Lemma relay_neuron_leak_counterexample :
  let r := create_synapse (ById (PInt 0)) (ById (PInt 1)) (PFloat (of_Z 5))
             (PInt 2) true two_neurons in
  r.1 = Ret 1
  ∧ num_neurons two_neurons = 2%nat
  ∧ num_neurons r.2 = 3%nat
  ∧ neuron_thresholds r.2 !! 2%nat = Some zero
  ∧ neuron_reset_states r.2 !! 2%nat = Some zero
  ∧ neuron_leaks r.2 !! 2%nat = Some PInf
  ∧ neuron_leaks r.2 !! 2%nat ≠ Some zero.
Proof. vm_compute. repeat split; try reflexivity. discriminate. Qed.

(** ** Assignments to the STDP kernels *)

(** [resize_vec] never returns. *)
Lemma resize_vec_raises (a : list num) (n : Z) : resize_vec a n = Raise TypeError.
Proof. reflexivity. Qed.

(** An assignment to [apos] of a vector whose length differs from that
    of [Aneg], with negative update enabled, raises and stores nothing. *)
Lemma set_apos_mismatch_raises (value : list num) (m : NeuromorphicModel) :
  stdp_negative_update m = true →
  length value ≠ length (_stdp_Aneg m) →
  set_apos value m = (Raise TypeError, m).
Proof.
  intros Hneg Hlen. unfold set_apos, bind, gets. simpl.
  rewrite Hneg. rewrite bool_decide_eq_false_2 by done. reflexivity.
Qed.

Lemma set_aneg_mismatch_raises (value : list num) (m : NeuromorphicModel) :
  stdp_positive_update m = true →
  length value ≠ length (_stdp_Apos m) →
  set_aneg value m = (Raise TypeError, m).
Proof.
  intros Hpos Hlen. unfold set_aneg, bind, gets. simpl.
  rewrite Hpos. rewrite bool_decide_eq_false_2 by done. reflexivity.
Qed.

(** C8, at [model.apos = [1.0]] on a fresh model (negative update
    enabled, [Aneg] empty): the lengths differ, the setter calls
    [resize_vec], and [resize_vec] raises [TypeError] at [len(a)];
    neither kernel is assigned, so nothing is resized to the common
    maximum length 1. *)
Theorem set_apos_raises_instead_of_resizing :
  let r := set_apos [one] init in
  r.1 = Raise TypeError
  ∧ _stdp_Apos r.2 = []
  ∧ _stdp_Aneg r.2 = []
  ∧ r.2 = init.
Proof. vm_compute. repeat split; reflexivity. Qed.

(** ** The reference backend on the refractory test *)

(** C2: one neuron with [threshold=0], [refractory_period=2] and the
    other parameters at their defaults, input spikes of amplitude 1, 3,
    4 and 1 at ticks 1, 2, 3 and 4, simulated for 10 ticks on the
    reference backend: the call returns and the spike train of the
    neuron is [0,1,0,0,1,0,0,0,0,0]. *)
Theorem refractory_one_spike_train env k_post k_lif k_stdp :
  let r := simulate env k_post k_lif k_stdp (PInt 10) None (Some "cpu")
             refractory_model in
  r.1 = Ret tt
  ∧ spike_train r.2 = [[0]; [1]; [0]; [0]; [1]; [0]; [0]; [0]; [0]; [0]].
Proof. vm_compute. split; reflexivity. Qed.

(** ** The compiled backend *)

(** The call in [simulate_cpu_jit] binds ten of the fourteen required
    parameters of [lif_jit]. *)
Lemma lif_jit_ten_arguments tick input spikes states thresholds leaks resets
    refractory original weights :
  lif_jit {|
    arg_tick := Some tick;
    arg_input_spikes := Some input;
    arg_spikes := Some spikes;
    arg_states := Some states;
    arg_thresholds := Some thresholds;
    arg_leaks := Some leaks;
    arg_reset_states := Some resets;
    arg_refractory_periods := Some refractory;
    arg_refractory_periods_original := Some original;
    arg_weights := Some weights;
    arg_delays := None;
    arg_delayed_synapses := None;
    arg_synaptic_delaysT := None;
    arg_delayed_spikes := None;
  |} = Raise TypeError.
Proof. reflexivity. Qed.

(** The first pass through the loop of [simulate_cpu_jit] raises, with
    or without a callback, whatever the model. *)
Lemma jit_tick_raises time_steps cb tick m :
  ∃ e, (jit_tick time_steps cb tick m).1 = Raise e.
Proof.
  unfold jit_tick, bind, run_callback.
  destruct cb as [f|]; simpl.
  - destruct (f tick time_steps m) as [[[]|e] m1]; [|by eexists].
    unfold arrays, bind, gets, ret, raise. simpl.
    destruct (_arrays m1); simpl; by eexists.
  - unfold arrays, bind, gets, ret, raise. simpl.
    destruct (_arrays m); simpl; by eexists.
Qed.

(** [simulate_cpu_jit] never completes a run of one tick or more. *)
Lemma simulate_cpu_jit_never_returns env n cb m :
  ∃ e, (simulate_cpu_jit env (S n) cb m).1 = Raise e.
Proof.
  unfold simulate_cpu_jit.
  do 5 (apply bind_raises_r; intros ? ?).
  apply bind_raises_l. simpl. apply bind_raises_l, jit_tick_raises.
Qed.

(** C1, at the model of the refractory test and 10 ticks: the
    reference backend returns and logs ten ticks, while the compiled
    backend raises [TypeError] at its first call of [lif_jit] and logs
    nothing, so the two spike trains differ. *)
Theorem jit_backend_raises_where_cpu_returns k_post k_lif k_stdp :
  let env := MkEnv true false in
  let cpu := simulate env k_post k_lif k_stdp (PInt 10) None (Some "cpu")
               refractory_model in
  let jit := simulate env k_post k_lif k_stdp (PInt 10) None (Some "jit")
               refractory_model in
  cpu.1 = Ret tt
  ∧ length (spike_train cpu.2) = 10%nat
  ∧ jit.1 = Raise TypeError
  ∧ spike_train jit.2 = []
  ∧ spike_train cpu.2 ≠ spike_train jit.2.
Proof. vm_compute. repeat split; try reflexivity. discriminate. Qed.

(** ** The input-spike schedule *)

Lemma keeps_ret {A} (a : A) : keeps_schedule (ret a).
Proof. done. Qed.

Lemma keeps_raise {A} (e : exn) : keeps_schedule (raise (A := A) e).
Proof. done. Qed.

Lemma keeps_lift {A} (o : outcome A) : keeps_schedule (lift o).
Proof. done. Qed.

Lemma keeps_gets {A} (f : NeuromorphicModel → A) : keeps_schedule (gets f).
Proof. done. Qed.

Lemma keeps_get : keeps_schedule get.
Proof. done. Qed.

Lemma keeps_raise_if b e : keeps_schedule (raise_if b e).
Proof. by destruct b. Qed.

Lemma keeps_modify f :
  (∀ m, input_spikes (f m) = input_spikes m
        ∧ manual_setup (f m) = manual_setup m) →
  keeps_schedule (modify f).
Proof. intros Hf m. apply Hf. Qed.

Lemma keeps_bind {A B} (c : M A) (k : A → M B) :
  keeps_schedule c → (∀ a, keeps_schedule (k a)) → keeps_schedule (bind c k).
Proof.
  intros Hc Hk m. unfold bind. specialize (Hc m).
  destruct (c m) as [[a|e] m']; simpl in *; [|done].
  destruct (Hk a m') as [-> ->]. done.
Qed.

Lemma keeps_if {A} (b : bool) (c1 c2 : M A) :
  keeps_schedule c1 → keeps_schedule c2 → keeps_schedule (if b then c1 else c2).
Proof. by destruct b. Qed.

Create HintDb keeps.
#[local] Hint Resolve keeps_ret keeps_raise keeps_lift keeps_gets keeps_get
  keeps_raise_if : keeps.

Ltac keeps_step :=
  first
    [ solve [auto with keeps]
    | apply keeps_modify; intros ?; split; reflexivity
    | apply keeps_if
    | apply keeps_bind; [|intros ?] ].

Lemma keeps_arrays : keeps_schedule arrays.
Proof. unfold arrays. keeps_step; [keeps_step|]. destruct a; keeps_step. Qed.
#[local] Hint Resolve keeps_arrays : keeps.

Lemma keeps_update_arrays f : keeps_schedule (update_arrays f).
Proof. unfold update_arrays. repeat keeps_step. Qed.
#[local] Hint Resolve keeps_update_arrays : keeps.

Lemma keeps__setup : keeps_schedule _setup.
Proof. unfold _setup. repeat keeps_step. Qed.

Lemma keeps_setup_input_spikes t : keeps_schedule (setup_input_spikes t).
Proof. unfold setup_input_spikes. repeat keeps_step. Qed.

Lemma keeps_devec : keeps_schedule devec.
Proof. unfold devec. repeat keeps_step. Qed.

Lemma keeps_stdp_time_steps : keeps_schedule stdp_time_steps.
Proof. unfold stdp_time_steps. repeat keeps_step. Qed.
#[local] Hint Resolve keeps__setup keeps_setup_input_spikes keeps_devec
  keeps_stdp_time_steps : keeps.

Lemma keeps_to_device env {A} (x : A) : keeps_schedule (to_device env x).
Proof. unfold to_device. repeat keeps_step. Qed.
#[local] Hint Resolve keeps_to_device : keeps.

Lemma keeps_gpu_stdp k_stdp tick output enabled d :
  keeps_schedule (gpu_stdp k_stdp tick output enabled d).
Proof. unfold gpu_stdp. repeat keeps_step. Qed.
#[local] Hint Resolve keeps_gpu_stdp : keeps.

Lemma keeps_gpu_tick k_post k_lif k_stdp t th lk rs orig tick st :
  keeps_schedule (gpu_tick k_post k_lif k_stdp t None th lk rs orig tick st).
Proof.
  unfold gpu_tick, run_callback. repeat keeps_step.
Qed.
#[local] Hint Resolve keeps_gpu_tick : keeps.

Lemma keeps_gpu_loop k_post k_lif k_stdp t th lk rs orig n tick st :
  keeps_schedule (gpu_loop k_post k_lif k_stdp t None th lk rs orig n tick st).
Proof.
  revert tick st. induction n as [|n IH]; intros tick st; simpl.
  - keeps_step.
  - keeps_step; [keeps_step|apply IH].
Qed.
#[local] Hint Resolve keeps_gpu_loop : keeps.

(** [simulate_gpu] leaves the schedule as it found it, whether it
    returns or raises. *)
Lemma simulate_gpu_keeps_schedule env k_post k_lif k_stdp t :
  keeps_schedule (simulate_gpu env k_post k_lif k_stdp t None).
Proof.
  unfold simulate_gpu, check_gpu. repeat keeps_step.
Qed.

(** What [consume_input_spikes] leaves: the entry at tick [k] is the
    entry that was scheduled at tick [k + time_steps]. *)
Lemma consume_input_spikes_lookup (time_steps : nat) (m : NeuromorphicModel) (k : Z) :
  input_spikes (consume_input_spikes time_steps m).2 !! k =
    if bool_decide (0 ≤ k) then input_spikes m !! (k + Z.of_nat time_steps)
    else None.
Proof.
  unfold consume_input_spikes, bind, gets, modify. simpl.
  assert (Inj (=) (=) (λ t : Z, t - Z.of_nat time_steps)) as Hinj.
  { intros x y Hxy. lia. }
  replace k with ((k + Z.of_nat time_steps) - Z.of_nat time_steps) at 1 by lia.
  rewrite (lookup_kmap (λ t : Z, t - Z.of_nat time_steps)).
  rewrite map_lookup_filter.
  case_bool_decide.
  - destruct (input_spikes m !! (k + Z.of_nat time_steps)) eqn:E; simpl; [|done].
    rewrite option_guard_True; [done|simpl; lia].
  - destruct (input_spikes m !! (k + Z.of_nat time_steps)) eqn:E; simpl; [|done].
    rewrite option_guard_False; [done|simpl; lia].
Qed.

(** C5, at one neuron with an input spike at tick 0, one tick on the
    GPU backend, whatever the kernels compute: the call returns, and
    the schedule still holds the spike at tick 0 that the run has just
    applied, so that the next call applies it again; the reference
    backend on the same input leaves the schedule empty. *)
Theorem simulate_gpu_does_not_consume k_post k_lif k_stdp :
  let env := MkEnv true true in
  let gpu := simulate env k_post k_lif k_stdp (PInt 1) None (Some "gpu")
               one_spike_model in
  let cpu := simulate env k_post k_lif k_stdp (PInt 1) None (Some "cpu")
               one_spike_model in
  gpu.1 = Ret tt
  ∧ input_spikes gpu.2 = input_spikes one_spike_model
  ∧ input_spikes gpu.2 !! 0 = Some (SpikesDict [0] [one])
  ∧ cpu.1 = Ret tt
  ∧ input_spikes cpu.2 = ∅.
Proof.
  intros env gpu cpu.
  assert (input_spikes gpu.2 = input_spikes one_spike_model) as Hkeep.
  { subst gpu. change (simulate env k_post k_lif k_stdp (PInt 1) None (Some "gpu") one_spike_model)
      with (simulate_gpu env k_post k_lif k_stdp 1 None one_spike_model).
    apply simulate_gpu_keeps_schedule. }
  split; [|split; [done|split; [by rewrite Hkeep|split; by vm_compute]]].
  subst gpu.
  change (simulate env k_post k_lif k_stdp (PInt 1) None (Some "gpu") one_spike_model)
      with (simulate_gpu env k_post k_lif k_stdp 1 None one_spike_model).
  reflexivity.
Qed.

Lemma keeps_cpu_tick t tick : keeps_schedule (cpu_tick t None tick).
Proof. unfold cpu_tick, run_callback. repeat keeps_step. Qed.
#[local] Hint Resolve keeps_cpu_tick : keeps.

Lemma keeps_for_range {A} (n : nat) (body : A → M A) (a : A) :
  (∀ a, keeps_schedule (body a)) → keeps_schedule (for_range n body a).
Proof.
  intros Hbody. revert a. induction n as [|n IH]; intros a; cbn [for_range].
  - keeps_step.
  - keeps_step; [apply Hbody|apply IH].
Qed.

(** A call of [simulate_cpu] that returns, without manual setup,
    leaves the schedule shifted by [time_steps]: the entry at tick [k]
    is the entry that was at tick [k + time_steps], and the entries
    that were below [time_steps] are gone. *)
Lemma simulate_cpu_consumes (time_steps : nat) (m m' : NeuromorphicModel)
    (k : Z) :
  manual_setup m = false →
  simulate_cpu time_steps None m = (Ret tt, m') →
  input_spikes m' !! k =
    if bool_decide (0 ≤ k) then input_spikes m !! (k + Z.of_nat time_steps)
    else None.
Proof.
  intros Hmanual. unfold simulate_cpu. intros H.
  apply bind_ret_inv in H as ([] & m1 & [= <-] & H).
  apply bind_ret_inv in H as (manual & m1 & [= <- <-] & H).
  cbn [manual_setup set_last_used_backend] in H. rewrite Hmanual in H.
  cbn [negb] in H.
  apply bind_ret_inv in H as ([] & m2 & Hsetup & H).
  apply bind_ret_inv in H as (t & m3 & Hloop & H).
  apply bind_ret_inv in H as (manual & m4 & [= <- <-] & H).
  assert (input_spikes m2 = input_spikes m ∧ manual_setup m2 = false)
    as [Hin2 Hman2].
  { assert (keeps_schedule (do_ _setup; setup_input_spikes time_steps)) as Hk
      by repeat keeps_step.
    destruct (Hk (set_last_used_backend (Some "cpu") m)) as [Hi Hm].
    rewrite Hsetup in Hi, Hm. cbn [snd] in Hi, Hm. by rewrite Hi, Hm. }
  assert (input_spikes m3 = input_spikes m ∧ manual_setup m3 = false)
    as [Hin3 Hman3].
  { destruct (keeps_for_range time_steps (cpu_tick time_steps None) 0%nat
                (keeps_cpu_tick time_steps) m2) as [Hi Hm].
    rewrite Hloop in Hi, Hm. cbn [snd] in Hi, Hm. by rewrite Hi, Hm. }
  rewrite Hman3 in H. cbn [negb] in H.
  apply bind_ret_inv in H as ([] & m5 & Hdevec & H).
  assert (input_spikes m5 = input_spikes m) as Hin5.
  { destruct (keeps_devec m3) as [Hi _]. rewrite Hdevec in Hi. cbn [snd] in Hi.
    by rewrite Hi. }
  pose proof (consume_input_spikes_lookup time_steps m5 k) as Hc.
  rewrite H in Hc. cbn [snd] in Hc. by rewrite Hc, Hin5.
Qed.

(** ** The vectorised tick, neuron by neuron *)

Lemma lookup_assign_where {A} (mask : list bool) (new old : list A)
    (i : nat) (b : bool) (x y : A) :
  mask !! i = Some b → new !! i = Some x → old !! i = Some y →
  assign_where mask new old !! i = Some (if b then x else y).
Proof.
  intros Hm Hn Ho. unfold assign_where.
  rewrite lookup_zip_with, Hm. simpl.
  rewrite lookup_zip_with, Hn. simpl. by rewrite Ho.
Qed.

Lemma lookup_assign_scalar_where {A} (mask : list bool) (v : A)
    (old : list A) (i : nat) (b : bool) (y : A) :
  mask !! i = Some b → old !! i = Some y →
  assign_scalar_where mask v old !! i = Some (if b then v else y).
Proof.
  intros Hm Ho. unfold assign_scalar_where.
  rewrite lookup_zip_with, Hm. simpl. by rewrite Ho.
Qed.

Lemma lookup_zip_with_Some_2 {A B C} (f : A → B → C) (l : list A)
    (k : list B) (i : nat) (x : A) (y : B) :
  l !! i = Some x → k !! i = Some y → zip_with f l k !! i = Some (f x y).
Proof. intros Hl Hk. rewrite lookup_zip_with, Hl. simpl. by rewrite Hk. Qed.

Lemma lookup_matT_vec (W : list (list num)) (x : list num) (i : nat) :
  (i < length W)%nat →
  matT_vec W x !! i = Some (vsum (zip_with Num.mul (column i W) x)).
Proof.
  intros Hi. unfold matT_vec. rewrite list_lookup_fmap.
  by rewrite lookup_seq_lt.
Qed.

Lemma lookup_leak_cpu (a : Arrays) (i : nat) (s r l : num) :
  _internal_states a !! i = Some s →
  _neuron_reset_states a !! i = Some r →
  _neuron_leaks a !! i = Some l →
  leak_cpu a !! i = Some (leak_step s r l).
Proof.
  intros Hs Hr Hl. unfold leak_cpu, leak_step.
  set (s1 := assign_where _ _ (_internal_states a)).
  assert (s1 !! i = Some (if Num.gtb s r then Num.maximum (s - l) r else s))
    as Hs1.
  { subst s1. apply lookup_assign_where; [| |done].
    - by apply lookup_zip_with_Some_2.
    - apply lookup_zip_with_Some_2; [|done]. by apply lookup_zip_with_Some_2. }
  erewrite lookup_assign_where; [done| | |done].
  - by apply lookup_zip_with_Some_2.
  - apply lookup_zip_with_Some_2; [|done]. by apply lookup_zip_with_Some_2.
Qed.

(** The vectorised loop body of the reference backend computes, at
    every neuron, the tick of that neuron. *)
Lemma lif_cpu_neuron (a : Arrays) (input : list num) (i : nat)
    (th l r original s c x : num) :
  neuron_view a i th l r original s c →
  input !! i = Some x →
  let t := neuron_step th l r original x (contribution (_weights a) (_spikes a) i) s c in
  _internal_states (lif_cpu input a) !! i = Some (t_state t)
  ∧ _neuron_refractory_periods (lif_cpu input a) !! i = Some (t_refractory t)
  ∧ _spikes (lif_cpu input a) !! i = Some (t_spike t).
Proof.
  intros [Hth Hl Hr Ho Hs Hc Hw] Hx t.
  pose proof (lookup_leak_cpu a i s r l Hs Hr Hl) as Hleak.
  pose proof (lookup_matT_vec (_weights a) (of_Z <$> _spikes a) i Hw) as Hcontr.
  unfold lif_cpu, integrate_cpu, set_arr_spikes,
    set_arr_neuron_refractory_periods, set_arr_internal_states.
  cbn [_internal_states _neuron_refractory_periods _spikes _neuron_thresholds
       _neuron_leaks _neuron_reset_states _neuron_refractory_periods_original
       _weights].
  set (states := zip_with Num.add (zip_with Num.add (leak_cpu a) input) _).
  assert (states !! i =
          Some (leak_step s r l + x + contribution (_weights a) (_spikes a) i)%num)
    as Hstates.
  { subst states. apply lookup_zip_with_Some_2; [|done].
    by apply lookup_zip_with_Some_2. }
  set (fired := zip_with (λ s th, b2z (Num.gtb s th)) states _).
  assert (fired !! i = Some (b2z (Num.gtb
            (leak_step s r l + x + contribution (_weights a) (_spikes a) i)%num th)))
    as Hfired
    by (subst fired; erewrite lookup_zip_with_Some_2; [done|exact Hstates|exact Hth]).
  set (indices := (λ r, Num.gtb r zero) <$> _neuron_refractory_periods a).
  assert (indices !! i = Some (Num.gtb c zero)) as Hind
    by (subst indices; by rewrite list_lookup_fmap, Hc).
  set (spikes := assign_scalar_where indices 0 fired).
  assert (spikes !! i = Some (t_spike t)) as Hspikes.
  { subst spikes. rewrite (lookup_assign_scalar_where _ _ _ _ _ _ Hind Hfired).
    subst t. unfold neuron_step. cbn [t_spike].
    by destruct (Num.gtb c zero). }
  set (refr := assign_where indices _ (_neuron_refractory_periods a)).
  assert (refr !! i = Some (if Num.gtb c zero then (c - one)%num else c)) as Hrefr.
  { subst refr. apply lookup_assign_where; [done| |done].
    by rewrite list_lookup_fmap, Hc. }
  subst t. unfold neuron_step. cbn [t_spike t_state t_refractory].
  set (mask := (λ s, negb (bool_decide (s = 0))) <$> spikes).
  assert (mask !! i = Some (if Num.gtb c zero then false else Num.gtb
            (leak_step s r l + x + contribution (_weights a) (_spikes a) i)%num th))
    as Hmask.
  { subst mask. rewrite list_lookup_fmap, Hspikes. cbn [fmap option_fmap option_map].
    f_equal. unfold neuron_step. cbn [t_spike].
    destruct (Num.gtb c zero); [done|]. by destruct (Num.gtb _ th). }
  split; [|split; [|done]].
  - by rewrite (lookup_assign_where _ _ _ _ _ _ _ Hmask Hr Hstates).
  - by rewrite (lookup_assign_where _ _ _ _ _ _ _ Hmask Ho Hrefr).
Qed.

Lemma np_index_nat (n i : nat) : (i < n)%nat → np_index n (Z.of_nat i) = Ret i.
Proof.
  intros Hi. unfold np_index.
  rewrite bool_decide_eq_true_2 by lia. by rewrite Nat2Z.id.
Qed.

Lemma py_item_nat {A} (l : list A) (i : nat) (x : A) :
  l !! i = Some x → py_item l (Z.of_nat i) = Ret x.
Proof.
  intros Hx. unfold py_item.
  rewrite np_index_nat by (by eapply lookup_lt_Some). simpl. by rewrite Hx.
Qed.

Lemma zip_with_add_assoc (s x c : list num) :
  zip_with Num.add s (zip_with Num.add x c) =
  zip_with Num.add (zip_with Num.add s x) c.
Proof.
  revert x c. induction s as [|s0 s IH]; intros [|x0 x] [|c0 c]; simpl; try done.
  by rewrite NumFacts.add_assoc, IH.
Qed.

(** The body of [lif_jit], given the arrays of the model, computes the
    loop body of the reference backend. *)
Lemma lif_jit_on_eq_cpu (tick : nat) (a : Arrays) (input : list num) :
  _input_spikes a !! tick = Some input →
  lif_jit_on tick a =
    Ret {| r_spikes := _spikes (lif_cpu input a);
           r_states := _internal_states (lif_cpu input a);
           r_refractory_periods := _neuron_refractory_periods (lif_cpu input a) |}.
Proof.
  intros Hin. unfold lif_jit_on, lif_jit_body.
  rewrite (py_item_nat _ _ _ Hin). cbn [obind].
  rewrite zip_with_add_assoc. reflexivity.
Qed.

(** ** Refractory counters *)

Lemma gtb_of_Z_zero (z : Z) : Num.gtb (of_Z z) zero = bool_decide (0 < z).
Proof.
  unfold Num.gtb, Num.ltb, zero, of_Z.
  apply bool_decide_ext. symmetry. apply Z2Qc_inj_lt.
Qed.

(** The refractory part of the tick of a neuron whose counter is the
    integer [zc] and whose period is the integer [zp]. *)
Lemma neuron_step_refractory th l r x w s (zc zp : Z) :
  0 ≤ zc → 0 ≤ zp →
  let t := neuron_step th l r (of_Z zp) x w s (of_Z zc) in
  ∃ zc' : Z,
    t_refractory t = of_Z zc'
    ∧ 0 ≤ zc'
    ∧ (0 < zc → t_spike t = 0 ∧ zc' = zc - 1)
    ∧ (t_spike t ≠ 0 → zc = 0 ∧ zc' = zp)
    ∧ (zc = 0 → t_spike t = 0 → zc' = 0).
Proof.
  intros Hzc Hzp. unfold neuron_step. cbn [t_refractory t_spike].
  rewrite gtb_of_Z_zero. case_bool_decide as Hpos.
  - exists (zc - 1). unfold one. rewrite NumFacts.of_Z_sub.
    repeat split; try done; try lia.
  - destruct (Num.gtb _ th); cbn [b2z].
    + exists zp. repeat split; try done; lia.
    + exists zc. repeat split; try done; lia.
Qed.

(** C9: in the per-tick update of the reference backend and in the
    body of the compiled kernel, a neuron whose refractory counter is
    an integer [zc >= 0] and whose refractory period is an integer
    [zp >= 0] ends the tick with an integer counter [zc' >= 0]: a
    positive counter is decremented by one and the spike of the neuron
    is forced to 0; the counter is set to the period exactly when the
    neuron spikes after the gate, which needs [zc = 0]; otherwise it
    stays 0. *)
Theorem refractory_counter_stays_nonnegative (a : Arrays) (tick i : nat)
    (input : list num) (th l r s x : num) (zc zp : Z) :
  neuron_view a i th l r (of_Z zp) s (of_Z zc) →
  _input_spikes a !! tick = Some input →
  input !! i = Some x →
  0 ≤ zc → 0 ≤ zp →
  ∃ (spike zc' : Z) (res : lif_result),
    _spikes (lif_cpu input a) !! i = Some spike
    ∧ _neuron_refractory_periods (lif_cpu input a) !! i = Some (of_Z zc')
    ∧ lif_jit_on tick a = Ret res
    ∧ r_spikes res !! i = Some spike
    ∧ r_refractory_periods res !! i = Some (of_Z zc')
    ∧ 0 ≤ zc'
    ∧ (0 < zc → spike = 0 ∧ zc' = zc - 1)
    ∧ (spike ≠ 0 → zc = 0 ∧ zc' = zp)
    ∧ (zc = 0 → spike = 0 → zc' = 0).
Proof.
  intros Hview Hin Hx Hzc Hzp.
  destruct (lif_cpu_neuron a input i _ _ _ _ _ _ x Hview Hx) as (_ & Hc & Hs).
  destruct (neuron_step_refractory th l r x
              (contribution (_weights a) (_spikes a) i) s zc zp Hzc Hzp)
    as (zc' & Heq & Hnn & Hdec & Harm & Hstay).
  rewrite Heq in Hc.
  exists (t_spike (neuron_step th l r (of_Z zp) x
                     (contribution (_weights a) (_spikes a) i) s (of_Z zc))),
         zc'.
  eexists. rewrite (lif_jit_on_eq_cpu _ _ _ Hin).
  split; [exact Hs|]. split; [exact Hc|]. split; [reflexivity|].
  cbn [r_spikes r_refractory_periods].
  split; [exact Hs|]. split; [exact Hc|]. done.
Qed.

Lemma refractory_counter_stays_nonnegative_witness :
  let a := one_neuron_arrays zero (of_Z 2) one in
  ∃ (spike zc' : Z) (res : lif_result),
    _spikes (lif_cpu [one] a) !! 0%nat = Some spike
    ∧ _neuron_refractory_periods (lif_cpu [one] a) !! 0%nat = Some (of_Z zc')
    ∧ lif_jit_on 0 a = Ret res
    ∧ r_spikes res !! 0%nat = Some spike
    ∧ r_refractory_periods res !! 0%nat = Some (of_Z zc')
    ∧ 0 ≤ zc'
    ∧ (0 < 2 → spike = 0 ∧ zc' = 2 - 1)
    ∧ (spike ≠ 0 → 2 = 0 ∧ zc' = 2)
    ∧ (2 = 0 → spike = 0 → zc' = 0).
Proof.
  intros a.
  apply (refractory_counter_stays_nonnegative a 0 0 [one] zero PInf zero zero
           one 2 2).
  - split; try reflexivity. simpl. lia.
  - reflexivity.
  - reflexivity.
  - lia.
  - lia.
Defined.

(** ** Infinite leak *)

Lemma leak_step_inf (q r : Qc) : leak_step (Fin q) (Fin r) PInf = Fin r.
Proof.
  unfold leak_step, Num.gtb. cbn [Num.ltb].
  destruct (decide (r < q)%Qc) as [Hlt|Hge].
  - rewrite bool_decide_eq_true_2 by done.
    cbn. by case_bool_decide.
  - rewrite bool_decide_eq_false_2 by done. cbn [Num.ltb].
    destruct (decide (q < r)%Qc) as [Hlt'|Hge'].
    + rewrite bool_decide_eq_true_2 by done. done.
    + rewrite bool_decide_eq_false_2 by done. f_equal.
      apply Qcle_antisym; by apply Qcnot_lt_le.
Qed.

(** The tick of a neuron with infinite leak, a finite state, no input
    and no presynaptic contribution ends at the reset state. *)
Lemma neuron_step_leak_inf (th original c : num) (q r : Qc) :
  t_state (neuron_step th PInf (Fin r) original zero zero (Fin q) c) = Fin r.
Proof.
  unfold neuron_step. cbn [t_state].
  rewrite leak_step_inf, !NumFacts.add_zero_r.
  by destruct (if Num.gtb c zero then false else Num.gtb (Fin r) th).
Qed.

(** C6, as the code has it: for a neuron with [leak = +inf], a finite
    reset state and a finite internal state at the start of the tick,
    on a tick with no input spike and no presynaptic contribution for
    that neuron, the internal state at the end of the tick is exactly
    the reset state, in the reference backend and in the body of the
    compiled kernel. *)
Theorem leak_inf_finite_state_returns_to_reset (a : Arrays) (tick i : nat)
    (input : list num) (th original c : num) (q r : Qc) :
  neuron_view a i th PInf (Fin r) original (Fin q) c →
  _input_spikes a !! tick = Some input →
  input !! i = Some zero →
  contribution (_weights a) (_spikes a) i = zero →
  _internal_states (lif_cpu input a) !! i = Some (Fin r)
  ∧ ∃ res, lif_jit_on tick a = Ret res ∧ r_states res !! i = Some (Fin r).
Proof.
  intros Hview Hin Hx Hw.
  destruct (lif_cpu_neuron a input i _ _ _ _ _ _ zero Hview Hx) as (Hs & _ & _).
  rewrite Hw, neuron_step_leak_inf in Hs.
  split; [done|]. eexists. split; [by apply lif_jit_on_eq_cpu|]. done.
Qed.

Lemma leak_inf_finite_state_returns_to_reset_witness :
  let a := one_neuron_arrays (of_Z 3) zero zero in
  _internal_states (lif_cpu [zero] a) !! 0%nat = Some zero
  ∧ ∃ res, lif_jit_on 0 a = Ret res ∧ r_states res !! 0%nat = Some zero.
Proof.
  intros a.
  apply (leak_inf_finite_state_returns_to_reset a 0 0 [zero] zero (of_Z 2) zero
           (Qc_of_Z 3) (Qc_of_Z 0)).
  - split; try reflexivity. simpl. lia.
  - reflexivity.
  - reflexivity.
  - vm_compute. f_equal. by apply Qc_is_canon.
Defined.

(** C6 as stated fails when the state is not finite:
    [create_neuron(initial_state=np.inf)] has leak [+inf] and reset
    state 0; in a tick with no input spike and no synapse at all, the
    leak computes [inf - inf], and the neuron ends the tick at [nan],
    not at its reset state. *)
Lemma leak_inf_infinite_state_counterexample :
  let m := inf_state_model in
  let r := simulate_cpu 1 None m in
  neuron_leaks m = [PInf]
  ∧ neuron_reset_states m = [zero]
  ∧ neuron_states m = [PInf]
  ∧ input_spikes m = ∅
  ∧ num_synapses m = 0%nat
  ∧ r.1 = Ret tt
  ∧ neuron_states r.2 = [NaN]
  ∧ neuron_states r.2 ≠ neuron_reset_states r.2.
Proof. vm_compute. repeat split; try reflexivity. discriminate. Qed.

(** ** The first tick of a call *)


Lemma _setup_inv (m m1 : NeuromorphicModel) :
  _setup m = (Ret tt, m1) →
  ∃ a, m1 = set_arrays (Some a) m ∧ _spikes a = previous_spikes m.
Proof.
  unfold _setup. intros H.
  apply bind_ret_inv in H as (m' & ? & [= <- <-] & H).
  apply bind_ret_inv in H as (w & ? & [_ ->]%lift_ret_inv & H).
  apply bind_ret_inv in H as (enabled & m' & Hen & H).
  assert (m' = m) as ->.
  { destruct (_ || _); [|by injection Hen].
    by apply lift_ret_inv in Hen as [_ ->]. }
  unfold modify in H. injection H as <-. eexists. split; [reflexivity|]. done.
Qed.

Lemma setup_input_spikes_inv (t : nat) (m m1 : NeuromorphicModel) (a : Arrays) :
  _arrays m = Some a →
  setup_input_spikes t m = (Ret tt, m1) →
  ∃ mat, m1 = set_arrays (Some (set_arr_input_spikes mat a)) m.
Proof.
  unfold setup_input_spikes, update_arrays, arrays. intros Ha H.
  apply bind_ret_inv in H as (m' & ? & [= <- <-] & H).
  apply bind_ret_inv in H as (mat & ? & [_ ->]%lift_ret_inv & H).
  apply bind_ret_inv in H as (a' & ? & Harr & H).
  unfold bind, gets in Harr. cbn [fst snd] in Harr. rewrite Ha in Harr.
  injection Harr as <- <-. unfold modify in H. injection H as <-. by exists mat.
Qed.

(** The spike of the first neuron on the only tick of a first call
    reaches the second neuron on the first tick of the next call. *)
Example relay_pair_two_calls :
  spike_train relay_pair_after_one_tick = [[1; 0]]
  ∧ spike_train (after (simulate_cpu 1 None) relay_pair_after_one_tick)
    = [[1; 0]; [0; 1]].
Proof. vm_compute. split; reflexivity. Qed.

(** ** STDP: the summed update and the lag-by-lag update *)

Lemma add_swap_r (x y z : num) : (x + y + z)%num = (x + z + y)%num.
Proof.
  by rewrite <- !NumFacts.add_assoc, (NumFacts.add_comm y z).
Qed.

Lemma mul_add_distr_of_Z (x y : num) (e : Z) :
  ((x + y) * of_Z e)%num = (x * of_Z e + y * of_Z e)%num.
Proof. unfold of_Z. apply NumFacts.mul_add_distr_r. Qed.

(** The weight reached by adding the masked sums [P] and [N], then the
    terms of one more lag, is the weight reached by adding the masked
    sums that include that lag. *)
Lemma stdp_entry_both (w P N ap an : num) (u e : Z) :
  (w + P * of_Z e + N * of_Z e
     + ap * of_Z u * of_Z e + an * of_Z (1 - u) * of_Z e)%num
  = (w + (of_Z u * ap + P) * of_Z e + (of_Z (1 - u) * an + N) * of_Z e)%num.
Proof.
  rewrite !mul_add_distr_of_Z.
  rewrite (NumFacts.mul_comm (of_Z u)), (NumFacts.mul_comm (of_Z (1 - u))).
  set (A := (P * of_Z e)%num). set (B := (N * of_Z e)%num).
  set (X := (ap * of_Z u * of_Z e)%num).
  set (Y := (an * of_Z (1 - u) * of_Z e)%num).
  rewrite (NumFacts.add_comm X A), (NumFacts.add_comm Y B).
  rewrite !NumFacts.add_assoc. f_equal. apply add_swap_r.
Qed.

Lemma stdp_entry_one (w P c : num) (u e : Z) :
  (w + P * of_Z e + c * of_Z u * of_Z e)%num
  = (w + (of_Z u * c + P) * of_Z e)%num.
Proof.
  rewrite mul_add_distr_of_Z, (NumFacts.mul_comm (of_Z u)).
  set (A := (P * of_Z e)%num). set (X := (c * of_Z u * of_Z e)%num).
  by rewrite (NumFacts.add_comm X A), !NumFacts.add_assoc.
Qed.

Lemma stdp_row_both (ap an : num) (w P N : list num) (u e : list Z) :
  zip_with Num.add
    (zip_with Num.add
       (zip_with Num.add
          (zip_with Num.add w (zip_with (λ x e, x * of_Z e)%num P e))
          (zip_with (λ x e, x * of_Z e)%num N e))
       (zip_with (λ x e, x * of_Z e)%num ((λ u, ap * of_Z u)%num <$> u) e))
    (zip_with (λ x e, x * of_Z e)%num
       ((λ u, an * of_Z u)%num <$> ((λ u, 1 - u) <$> u)) e)
  = zip_with Num.add
      (zip_with Num.add w
         (zip_with (λ x e, x * of_Z e)%num
            (zip_with Num.add ((λ u, of_Z u * ap)%num <$> u) P) e))
      (zip_with (λ x e, x * of_Z e)%num
         (zip_with Num.add
            ((λ u, of_Z u * an)%num <$> ((λ u, 1 - u) <$> u)) N) e).
Proof.
  revert P N u e. induction w as [|w0 w IH]; intros P N u e; [reflexivity|].
  destruct P, N, u, e; cbn [zip_with fmap list_fmap]; try reflexivity.
  f_equal; [apply stdp_entry_both|apply IH].
Qed.

Lemma stdp_row_one (c : num) (w P : list num) (u e : list Z) :
  zip_with Num.add
    (zip_with Num.add w (zip_with (λ x e, x * of_Z e)%num P e))
    (zip_with (λ x e, x * of_Z e)%num ((λ u, c * of_Z u)%num <$> u) e)
  = zip_with Num.add w
      (zip_with (λ x e, x * of_Z e)%num
         (zip_with Num.add ((λ u, of_Z u * c)%num <$> u) P) e).
Proof.
  revert P u e. induction w as [|w0 w IH]; intros P u e; [reflexivity|].
  destruct P, u, e; cbn [zip_with fmap list_fmap]; try reflexivity.
  f_equal; [apply stdp_entry_one|apply IH].
Qed.

(** One lag of the lag-by-lag rule on top of the summed form is the
    summed form with that lag added to both sums. *)
Lemma stdp_lag_summed (positive negative : bool) (ap an : num)
    (U mask : list (list Z)) (W P N : list (list num)) :
  stdp_lag positive negative ap an U mask (summed positive negative W P N mask)
  = summed positive negative W (mat_add (scale_slab U ap) P)
      (mat_add (scale_slab (one_minus_Z U) an) N) mask.
Proof.
  unfold stdp_lag, summed, mat_add, mat_mask, mat_map2, kernel_times,
    scale_slab, one_minus_Z.
  destruct positive, negative; [| | |reflexivity].
  - revert P N U mask. induction W as [|w W IH]; intros P N U mask;
      [reflexivity|].
    destruct P, N, U, mask; cbn [zip_with fmap list_fmap]; try reflexivity.
    f_equal; [apply stdp_row_both|apply IH].
  - clear N. revert P U mask. induction W as [|w W IH]; intros P U mask;
      [reflexivity|].
    destruct P, U, mask; cbn [zip_with fmap list_fmap]; try reflexivity.
    f_equal; [apply stdp_row_one|apply IH].
  - clear P. revert N U mask. induction W as [|w W IH]; intros N U mask;
      [reflexivity|].
    destruct N, U, mask; cbn [zip_with fmap list_fmap]; try reflexivity.
    f_equal; [apply (stdp_row_one an w _ ((λ u, 1 - u) <$> _))|apply IH].
Qed.

Lemma fold_lags_summed (positive negative : bool) (mask : list (list Z))
    (lags : list (num * num * list (list Z))) (W P N : list (list num)) :
  foldl (λ W x, stdp_lag positive negative x.1.1 x.1.2 x.2 mask W)
    (summed positive negative W P N mask) lags
  = summed positive negative W
      (foldl (λ acc x, mat_add (scale_slab x.2 x.1.1) acc) P lags)
      (foldl (λ acc x, mat_add (scale_slab (one_minus_Z x.2) x.1.2) acc) N lags)
      mask.
Proof.
  revert P N. induction lags as [|x lags IH]; intros P N; [reflexivity|].
  cbn [foldl]. by rewrite stdp_lag_summed, IH.
Qed.

Lemma row_add_masked_zeros (c : nat) (w : list num) (e : list Z) :
  length w = c → length e = c →
  zip_with Num.add w (zip_with (λ x e, x * of_Z e)%num (replicate c zero) e) = w.
Proof.
  revert w e. induction c as [|c IH]; intros [|w0 w] [|e0 e] Hw He;
    try done; cbn [replicate zip_with].
  f_equal; [|apply IH; by simplify_eq/=].
  unfold of_Z at 1. by rewrite NumFacts.mul_zero_l, NumFacts.add_zero_r.
Qed.

Lemma mat_add_masked_zeros (r c : nat) (W : list (list num))
    (mask : list (list Z)) :
  shape r c W → shape r c mask →
  mat_add W (mat_mask (zeros2 zero r c) mask) = W.
Proof.
  unfold mat_add, mat_mask, mat_map2, zeros2.
  revert W mask. induction r as [|r IH]; intros [|w W] [|e mask] [HW HWr] [Hm Hmr];
    try done; cbn [replicate zip_with].
  apply Forall_cons in HWr as [Hw HWr]. apply Forall_cons in Hmr as [He Hmr].
  f_equal; [by apply row_add_masked_zeros|].
  apply IH; split; by simplify_eq/=.
Qed.

(** Without a lag, the summed form adds nothing. *)
Lemma summed_zeros (positive negative : bool) (n : nat) (W : list (list num))
    (mask : list (list Z)) :
  shape n n W → shape n n mask →
  summed positive negative W (zeros2 zero n n) (zeros2 zero n n) mask = W.
Proof.
  intros HW Hm. unfold summed.
  destruct positive, negative;
    rewrite ?(mat_add_masked_zeros n n W mask) by done; done.
Qed.

(** ** STDP: the window of the reference backend *)

(** [spike_train[-t - 1:-1]] when at least [t + 1] ticks are logged. *)
Lemma py_slice_history {A} (train : list A) (t : nat) :
  (t + 1 ≤ length train)%nat →
  py_slice train (- Z.of_nat t - 1) (Some (-1)) =
    take t (drop (length train - 1 - t) train).
Proof.
  intros Ht. unfold py_slice. cbn [from_option].
  rewrite !bool_decide_eq_true_2 by lia.
  f_equal; [lia|]. f_equal. lia.
Qed.

(** [spike_train[-1]] *)
Lemma py_item_last {A} (l : list A) (x : A) :
  last l = Some x → py_item l (-1) = Ret x.
Proof.
  intros Hl. rewrite last_lookup in Hl.
  pose proof (lookup_lt_Some _ _ _ Hl) as Hlt.
  unfold py_item, np_index.
  rewrite bool_decide_eq_false_2 by lia.
  rewrite bool_decide_eq_true_2 by lia. cbn [obind].
  replace (Z.to_nat (-1 + Z.of_nat (length l))) with (pred (length l)) by lia.
  by rewrite Hl.
Qed.

Lemma np_outer_Z_concat (blocks : list (list Z)) (now : list Z) :
  np_outer_Z (concat blocks) now =
    concat ((λ h, np_outer_Z h now) <$> blocks).
Proof.
  unfold np_outer_Z. induction blocks as [|b blocks IH]; [reflexivity|].
  cbn [concat fmap list_fmap]. by rewrite fmap_app, IH.
Qed.

Lemma length_concat_blocks {A} (n : nat) (blocks : list (list A)) :
  Forall (λ b, length b = n) blocks →
  length (concat blocks) = (length blocks * n)%nat.
Proof.
  induction 1 as [|b blocks Hb _ IH]; [reflexivity|].
  cbn [concat length]. rewrite length_app, IH, Hb. lia.
Qed.

Lemma chunks_concat {A} (n fuel : nat) (blocks : list (list A)) :
  (0 < n)%nat → (length blocks ≤ fuel)%nat →
  Forall (λ b, length b = n) blocks →
  chunks fuel n (concat blocks) = blocks.
Proof.
  intros Hn. revert fuel. induction blocks as [|b blocks IH]; intros fuel Hf Hall.
  - by destruct fuel.
  - apply Forall_cons in Hall as [Hb Hall].
    destruct fuel as [|fuel]; [cbn in Hf; lia|].
    cbn [concat chunks].
    destruct (b ++ concat blocks) as [|x rest] eqn:E.
    { destruct b; [cbn in Hb; lia|done]. }
    rewrite <- E. rewrite take_app_length', drop_app_length' by done.
    f_equal. apply IH; [cbn in Hf; lia|done].
Qed.

(** The outer product of the flattened history with the last spike
    vector, reshaped to [t] slabs of [n] by [n], is the list of the
    outer products of each logged vector with the last one. *)
Lemma reshape3_outer (n : nat) (history : list (list Z)) (now : list Z) :
  (0 < n)%nat →
  Forall (λ h, length h = n) history →
  reshape3 n (np_outer_Z (concat history) now) =
    Ret ((λ h, np_outer_Z h now) <$> history).
Proof.
  intros Hn Hall. unfold reshape3. rewrite np_outer_Z_concat.
  assert (Forall (λ b : list (list Z), length b = n)
            ((λ h, np_outer_Z h now) <$> history)) as Hblocks.
  { apply Forall_fmap. eapply Forall_impl; [exact Hall|].
    intros h Hh. cbn. unfold np_outer_Z. by rewrite length_fmap. }
  rewrite (length_concat_blocks n) by done.
  rewrite bool_decide_eq_true_2.
  - f_equal. apply chunks_concat; [done| |done].
    nia.
  - split; [lia|]. apply Nat.Div0.mod_mul.
Qed.

Lemma foldr_reverse_foldl {A B} (f : A → B → B) (z : B) (l : list A) :
  foldr f z (reverse l) = foldl (λ acc x, f x acc) z l.
Proof.
  revert z. induction l as [|x l IH]; intros z; [reflexivity|].
  rewrite reverse_cons, foldr_app. cbn [foldr foldl]. apply IH.
Qed.

Lemma lag_spikes_history (train : list (list Z)) (t i : nat) (h : list Z) :
  (t + 1 ≤ length train)%nat → (i < t)%nat →
  take t (drop (length train - 1 - t) train) !! i = Some h →
  lag_spikes train (t - S i) = Some h.
Proof.
  intros Ht Hi Hh. unfold lag_spikes.
  rewrite bool_decide_eq_true_2 by lia.
  rewrite lookup_take_lt, lookup_drop in Hh by done.
  rewrite <- Hh. f_equal. lia.
Qed.

(** The slabs the reference backend sums, oldest tick first, are the
    terms of the lags [t - 1, ..., 0]: the reversed kernel
    [A[0:t][::-1]] pairs coefficient [i] with lag [i]. *)
Lemma chronological_slabs (G : list Z → list (list Z))
    (train : list (list Z)) (kernel : list num) (t : nat) :
  (t + 1 ≤ length train)%nat → (t ≤ length kernel)%nat →
  zip_with scale_slab (G <$> take t (drop (length train - 1 - t) train))
    (reverse (take t kernel))
  = reverse ((λ i, scale_slab (G (default [] (lag_spikes train i)))
                     (default zero (kernel !! i)))
               <$> seq 0 t).
Proof.
  intros Ht Hk.
  assert (length (take t (drop (length train - 1 - t) train)) = t) as Hlen
    by (rewrite length_take, length_drop; lia).
  apply (list_eq_same_length _ _ t).
  - by rewrite length_reverse, length_fmap, length_seq.
  - rewrite length_zip_with, length_fmap, Hlen, length_reverse, length_take.
    lia.
  - intros i x y Hi Hx Hy.
    apply lookup_zip_with_Some in Hx as (u & c & -> & Hu & Hc).
    rewrite list_lookup_fmap in Hu.
    destruct (take t (drop _ train) !! i) as [h|] eqn:Hh; [|done].
    cbn in Hu. injection Hu as <-.
    rewrite reverse_lookup in Hc by (rewrite length_take; lia).
    rewrite length_take in Hc.
    replace (t `min` length kernel - S i)%nat with (t - S i)%nat in Hc by lia.
    rewrite lookup_take_lt in Hc by lia.
    rewrite reverse_lookup in Hy by (rewrite length_fmap, length_seq; lia).
    rewrite length_fmap, length_seq, list_lookup_fmap in Hy.
    rewrite lookup_seq_lt in Hy by lia. cbn in Hy. injection Hy as <-.
    by rewrite (lag_spikes_history train t i h Ht Hi Hh), Hc.
Qed.

(** The sum over the window computed by the reference backend, as a
    fold over the lags from lag 0. *)
Lemma sum_axis0_lags (G : list Z → list (list Z)) (n : nat)
    (train : list (list Z)) (kernel : list num) (t : nat) :
  (t + 1 ≤ length train)%nat → (t ≤ length kernel)%nat →
  sum_axis0 n
    (zip_with scale_slab (G <$> take t (drop (length train - 1 - t) train))
       (reverse (take t kernel)))
  = foldl (λ acc i,
        mat_add (scale_slab (G (default [] (lag_spikes train i)))
                   (default zero (kernel !! i))) acc)
      (zeros2 zero n n) (seq 0 t).
Proof.
  intros Ht Hk. unfold sum_axis0.
  rewrite chronological_slabs, foldr_reverse_foldl by done.
  by rewrite foldl_fmap.
Qed.

(** The lag-by-lag rule, when every lag of the window has a logged
    spike vector and a kernel entry. *)
Lemma stdp_spec_fold (positive negative : bool) (mask : list (list Z))
    (train : list (list Z)) (apos aneg : list num) (t : nat)
    (W : list (list num)) :
  (t + 1 ≤ length train)%nat →
  (positive = true → t ≤ length apos)%nat →
  (negative = true → t ≤ length aneg)%nat →
  stdp_spec positive negative mask train apos aneg t W =
    Some (foldl (λ W x, stdp_lag positive negative x.1.1 x.1.2 x.2 mask W) W
            (lag_terms positive negative train apos aneg <$> seq 0 t)).
Proof.
  intros Ht Hp Hn. unfold stdp_spec.
  destruct (last train) as [now|] eqn:Hlast.
  2:{ apply last_None in Hlast. subst train. cbn in Ht. lia. }
  cbn [mbind option_bind]. rewrite foldl_fmap.
  assert (∀ i, i ∈ seq 0 t → (i < t)%nat) as Hseq
    by (intros i Hi%elem_of_seq; lia).
  revert W Hseq. generalize (seq 0 t).
  induction l as [|i l IH]; intros W Hl; [reflexivity|].
  cbn [foldl]. rewrite <- IH by (intros j Hj; apply Hl; by right).
  f_equal. cbn [mbind option_bind].
  assert (i < t)%nat as Hi by (apply Hl; by left).
  unfold lag_terms. rewrite Hlast.
  assert (is_Some (lag_spikes train i)) as [old ->].
  { unfold lag_spikes. rewrite bool_decide_eq_true_2 by lia.
    apply lookup_lt_is_Some. lia. }
  assert (is_Some (kernel_at positive apos i)) as [ap ->].
  { unfold kernel_at. destruct positive; [|done].
    apply lookup_lt_is_Some. specialize (Hp eq_refl). lia. }
  assert (is_Some (kernel_at negative aneg i)) as [an ->].
  { unfold kernel_at. destruct negative; [|done].
    apply lookup_lt_is_Some. specialize (Hn eq_refl). lia. }
  reflexivity.
Qed.

(** The STDP block of the reference backend computes the summed form
    over the lags of the window. *)
Lemma stdp_cpu_summed (n t : nat) (train : list (list Z)) (apos aneg : list num)
    (a : Arrays) :
  (0 < n)%nat →
  Forall (λ row, length row = n) train →
  (t + 1 ≤ length train)%nat →
  (_do_positive_update a = true → t ≤ length apos)%nat →
  (_do_negative_update a = true → t ≤ length aneg)%nat →
  let lags := lag_terms (_do_positive_update a) (_do_negative_update a) train
                apos aneg <$> seq 0 t in
  stdp_cpu n t train apos aneg a =
    Ret (summed (_do_positive_update a) (_do_negative_update a) (_weights a)
           (foldl (λ acc x, mat_add (scale_slab x.2 x.1.1) acc)
              (zeros2 zero n n) lags)
           (foldl (λ acc x, mat_add (scale_slab (one_minus_Z x.2) x.1.2) acc)
              (zeros2 zero n n) lags)
           (_stdp_enabled_synapses a)).
Proof.
  intros Hn Hrows Ht Hp Hng lags. subst lags. unfold stdp_cpu.
  destruct (last train) as [now|] eqn:Hlast.
  2:{ apply last_None in Hlast. subst train. cbn in Ht. lia. }
  rewrite (py_item_last _ _ Hlast). cbn [obind].
  rewrite py_slice_history by done.
  rewrite reshape3_outer by (done || by apply Forall_take, Forall_drop).
  cbn [obind].
  assert (now = default [] (last train)) as Hnow by (by rewrite Hlast).
  assert (length (take t (drop (length train - 1 - t) train)) = t) as Hlen
    by (rewrite length_take, length_drop; lia).
  unfold summed, scale_slabs. rewrite !foldl_fmap, <- list_fmap_compose.
  rewrite Hnow.
  destruct (_do_positive_update a) eqn:Hpos.
  - specialize (Hp eq_refl).
    rewrite bool_decide_eq_true_2
      by (rewrite length_fmap, Hlen, length_reverse, length_take; lia).
    cbn [obind]. rewrite sum_axis0_lags by done.
    destruct (_do_negative_update a) eqn:Hneg; [|reflexivity].
    specialize (Hng eq_refl).
    rewrite bool_decide_eq_true_2
      by (rewrite length_fmap, Hlen, length_reverse, length_take; lia).
    cbn [obind]. rewrite sum_axis0_lags by done.
    reflexivity.
  - cbn [obind].
    destruct (_do_negative_update a) eqn:Hneg; [|reflexivity].
    specialize (Hng eq_refl).
    rewrite bool_decide_eq_true_2
      by (rewrite length_fmap, Hlen, length_reverse, length_take; lia).
    cbn [obind]. rewrite sum_axis0_lags by done.
    reflexivity.
Qed.

(** The STDP block of the reference backend returns the weights of the
    lag-by-lag rule. *)
Lemma stdp_cpu_refines_spec (n t : nat) (train : list (list Z))
    (apos aneg : list num) (a : Arrays) :
  (0 < n)%nat →
  Forall (λ row, length row = n) train →
  (t + 1 ≤ length train)%nat →
  (_do_positive_update a = true → t ≤ length apos)%nat →
  (_do_negative_update a = true → t ≤ length aneg)%nat →
  shape n n (_weights a) →
  shape n n (_stdp_enabled_synapses a) →
  ∃ W',
    stdp_spec (_do_positive_update a) (_do_negative_update a)
      (_stdp_enabled_synapses a) train apos aneg t (_weights a) = Some W'
    ∧ stdp_cpu n t train apos aneg a = Ret W'.
Proof.
  intros Hn Hrows Ht Hp Hng HW Hmask.
  rewrite stdp_spec_fold, stdp_cpu_summed by done.
  eexists. split; [reflexivity|]. f_equal.
  rewrite <- fold_lags_summed. by rewrite summed_zeros.
Qed.

(** Without an enabled update, or over an empty window, the lag-by-lag
    rule leaves the weights as they are. *)
Lemma stdp_spec_idle (positive negative : bool) (mask : list (list Z))
    (train : list (list Z)) (apos aneg : list num) (t : nat)
    (W : list (list num)) :
  (t + 1 ≤ length train)%nat →
  positive || negative = false ∨ t = 0%nat →
  stdp_spec positive negative mask train apos aneg t W = Some W.
Proof.
  intros Ht [Hoff| ->].
  - apply orb_false_elim in Hoff as [-> ->].
    rewrite stdp_spec_fold by done. f_equal.
    generalize (lag_terms false false train apos aneg <$> seq 0 t).
    induction l as [|x l IH]; [reflexivity|]. exact IH.
  - rewrite stdp_spec_fold by (done || (intros; lia)). reflexivity.
Qed.

Lemma stdp_time_steps_window (m : NeuromorphicModel) :
  (stdp_positive_update m = true → stdp_negative_update m = true →
   length (_stdp_Apos m) = length (_stdp_Aneg m)) →
  stdp_time_steps m = (Ret (stdp_window m), m).
Proof.
  intros Hk. unfold stdp_time_steps, stdp_window, bind, gets, raise_if.
  cbn [fst snd].
  destruct (stdp_positive_update m), (stdp_negative_update m); try done.
  cbn [andb]. by rewrite bool_decide_eq_true_2 by auto.
Qed.

Lemma window_within_kernels (n : nat) (m : NeuromorphicModel) (a : Arrays)
    (input : list num) (t : nat) :
  stdp_ready n m a input → (t ≤ stdp_window m)%nat →
  (_do_positive_update a = true → t ≤ length (_stdp_Apos m))%nat
  ∧ (_do_negative_update a = true → t ≤ length (_stdp_Aneg m))%nat.
Proof.
  intros [] Ht. unfold stdp_window in Ht. split; intros Hflag.
  - by rewrite ready_positive0 in Ht.
  - specialize (ready_negative0 Hflag). rewrite ready_negative0 in Ht.
    destruct (stdp_positive_update m) eqn:Hpos; [|done].
    by rewrite <- ready_kernels0.
Qed.

(** C4: at every tick of the reference backend, with
    [t_eff = min(K, number of logged ticks - 1)] and [K] the STDP window
    length, the tick raises nothing, logs its spike vector, and leaves
    as weight matrix the result of applying, for each lag [i] in
    [[0, t_eff)] (lag 0 the tick before the one just computed),
    [weight += Apos[i] * outer(spikes at lag i, spikes now) * stdp_enabled]
    when the positive update is on and
    [weight += Aneg[i] * (1 - outer(spikes at lag i, spikes now)) * stdp_enabled]
    when the negative update is on.  Every lag of the window has a
    logged spike vector: with fewer logged ticks than [K] the window is
    truncated, not padded. *)
Theorem stdp_update_follows_window (m : NeuromorphicModel) (a : Arrays)
    (time_steps tick n : nat) (input : list num) :
  _arrays m = Some a →
  _input_spikes a !! tick = Some input →
  stdp_ready n m a input →
  let a' := lif_cpu input a in
  let train := spike_train m ++ [_spikes a'] in
  let t_eff := (stdp_window m `min` (length train - 1))%nat in
  ∃ W' m',
    stdp_spec (_do_positive_update a) (_do_negative_update a)
      (_stdp_enabled_synapses a) train (_stdp_Apos m) (_stdp_Aneg m) t_eff
      (_weights a) = Some W'
    ∧ cpu_tick time_steps None tick m = (Ret (S tick), m')
    ∧ spike_train m' = train
    ∧ _arrays m' = Some (set_arr_weights W' a').
Proof.
  intros Ha Hin Hready a' train t_eff.
  pose proof Hready as [Hn Hn0 Htrain Hsp HW Hmask Hk Hp Hng Hdo].
  assert (Forall (λ row, length row = n) train) as Hrows.
  { apply Forall_app. split; [done|]. by apply Forall_singleton. }
  assert (t_eff + 1 ≤ length train)%nat as Ht.
  { subst t_eff train. rewrite length_app. cbn [length]. lia. }
  destruct (window_within_kernels n m a input t_eff Hready) as [Hap Han];
    [subst t_eff; lia|].
  unfold cpu_tick, run_callback, arrays.
  unfold bind, modify, get, gets, lift, ret. cbn [fst snd]. rewrite Ha.
  cbn [fst snd _arrays set_arrays _input_spikes set_arr_internal_states].
  rewrite (py_item_nat _ _ _ Hin). cbn [fst snd]. fold a'.
  rewrite stdp_time_steps_window by exact Hk.
  change (stdp_window _) with (stdp_window m).
  change (spike_train (append_spike_train _ _)) with train.
  change (num_neurons (append_spike_train _ _)) with (num_neurons m).
  fold t_eff. rewrite Hn.
  change (_do_stdp a') with (_do_stdp a).
  change (_stdp_Apos (append_spike_train _ _)) with (_stdp_Apos m).
  change (_stdp_Aneg (append_spike_train _ _)) with (_stdp_Aneg m).
  destruct (_do_stdp a && bool_decide (0 < t_eff)%nat) eqn:Hguard.
  - apply andb_true_iff in Hguard as [Hstdp _].
    destruct (stdp_cpu_refines_spec n t_eff train (_stdp_Apos m) (_stdp_Aneg m)
                a' Hn0 Hrows Ht Hap Han HW (Hmask Hstdp)) as (W' & Hspec & Hcpu).
    exists W'. eexists. split; [exact Hspec|].
    rewrite Hcpu.
    unfold update_arrays, arrays, bind, gets, modify, ret. cbn [fst snd _arrays].
    split; [reflexivity|]. split; reflexivity.
  - exists (_weights a). eexists. split.
    + apply stdp_spec_idle; [done|].
      apply andb_false_iff in Hguard as [Hoff|Hzero].
      * left. by rewrite <- Hdo.
      * right. apply bool_decide_eq_false in Hzero. lia.
    + split; [reflexivity|]. split; reflexivity.
Qed.

Lemma stdp_update_follows_window_witness :
  let m := stdp_pair_after_first_tick in
  let a := default empty_arrays (_arrays m) in
  let input := default [] (_input_spikes a !! 1%nat) in
  let a' := lif_cpu input a in
  let train := spike_train m ++ [_spikes a'] in
  let t_eff := (stdp_window m `min` (length train - 1))%nat in
  (stdp_window m = 3%nat ∧ t_eff = 1%nat)
  ∧ ∃ W' m',
    stdp_spec (_do_positive_update a) (_do_negative_update a)
      (_stdp_enabled_synapses a) train (_stdp_Apos m) (_stdp_Aneg m) t_eff
      (_weights a) = Some W'
    ∧ cpu_tick 3 None 1 m = (Ret 2%nat, m')
    ∧ spike_train m' = train
    ∧ _arrays m' = Some (set_arr_weights W' a').
Proof.
  intros m a input a' train t_eff. split; [split; reflexivity|].
  apply (stdp_update_follows_window m a 3 1 2 input).
  - vm_compute. reflexivity.
  - vm_compute. reflexivity.
  - split.
    + reflexivity.
    + lia.
    + vm_compute. repeat constructor.
    + vm_compute. reflexivity.
    + split; [reflexivity|]. vm_compute. repeat constructor.
    + intros _. split; [reflexivity|]. vm_compute. repeat constructor.
    + intros _ _. reflexivity.
    + intros _. reflexivity.
    + intros _. reflexivity.
    + reflexivity.
Defined.

(** The run of three ticks on [stdp_pair]: the window holds 0, 1 and 2
    lags at the three ticks, and the weight of the synapse goes from 1
    to 2 at the second tick and to 4 at the third. *)
Example stdp_pair_run :
  let r := simulate_cpu 3 None stdp_pair in
  r.1 = Ret tt
  ∧ spike_train r.2 = [[1; 0]; [1; 1]; [0; 1]]
  ∧ bool_decide (synaptic_weights r.2 = [of_Z 4]) = true.
Proof. vm_compute. repeat split; reflexivity. Qed.

(** ** STDP: the compiled kernel *)

Lemma of_Z_mul (x y : Z) : (of_Z x * of_Z y)%num = of_Z (x * y).
Proof. unfold of_Z. cbn. by rewrite Z2Qc_inj_mul. Qed.

Lemma one_minus_of_Z (u : Z) : (one - of_Z u)%num = of_Z (1 - u).
Proof. apply NumFacts.of_Z_sub. Qed.

(** The float outer product under a coefficient is the integer outer
    product under that coefficient. *)
Lemma kernel_times_outer (c : num) (old now : list Z) :
  (λ row : list num, (λ u, c * u)%num <$> row)
    <$> np_outer (of_Z <$> old) (of_Z <$> now)
  = kernel_times c (np_outer_Z old now).
Proof.
  unfold kernel_times, np_outer, np_outer_Z.
  rewrite <- !list_fmap_compose. apply list_fmap_ext. intros _ x _. unfold compose.
  rewrite <- !list_fmap_compose. apply list_fmap_ext. intros _ y _. unfold compose.
  by rewrite of_Z_mul.
Qed.

Lemma kernel_times_one_minus_outer (c : num) (old now : list Z) :
  (λ row : list num, (λ u, c * u)%num <$> row)
    <$> one_minus (np_outer (of_Z <$> old) (of_Z <$> now))
  = kernel_times c (one_minus_Z (np_outer_Z old now)).
Proof.
  unfold kernel_times, one_minus, one_minus_Z, np_outer, np_outer_Z.
  rewrite <- !list_fmap_compose. apply list_fmap_ext. intros _ x _. unfold compose.
  rewrite <- !list_fmap_compose. apply list_fmap_ext. intros _ y _. unfold compose.
  by rewrite of_Z_mul, one_minus_of_Z.
Qed.

Lemma shape_np_outer_Z (n : nat) (old now : list Z) :
  length old = n → length now = n → shape n n (np_outer_Z old now).
Proof.
  intros Ho Hn. unfold np_outer_Z. split; [by rewrite length_fmap|].
  apply Forall_fmap, Forall_true. intros x. cbn. by rewrite length_fmap.
Qed.

Lemma shape_one_minus_Z (n : nat) (U : list (list Z)) :
  shape n n U → shape n n (one_minus_Z U).
Proof.
  intros [HU Hrows]. unfold one_minus_Z. split; [by rewrite length_fmap|].
  apply Forall_fmap. eapply Forall_impl; [exact Hrows|].
  intros row Hrow. cbn. by rewrite length_fmap.
Qed.

Lemma kernel_times_zero (r c : nat) (U : list (list Z)) :
  shape r c U → kernel_times zero U = zeros2 zero r c.
Proof.
  unfold kernel_times, zeros2. revert U.
  induction r as [|r IH]; intros [|row U] [HU Hrows]; try done.
  apply Forall_cons in Hrows as [Hrow Hrows]. cbn [fmap list_fmap replicate].
  f_equal; [|apply IH; split; by simplify_eq/=].
  clear -Hrow. revert row Hrow.
  induction c as [|c IHc]; intros [|u row] Hrow; try done.
  cbn [fmap list_fmap replicate]. f_equal; [|apply IHc; by simplify_eq/=].
  unfold of_Z at 1. apply NumFacts.mul_zero_l.
Qed.

Lemma shape_mat_map2 {A B C} (f : A → B → C) (r c : nat) (X : list (list A))
    (Y : list (list B)) :
  shape r c X → shape r c Y → shape r c (mat_map2 f X Y).
Proof.
  intros [HX HXr] [HY HYr]. unfold mat_map2. split.
  - rewrite length_zip_with. lia.
  - apply Forall_lookup. intros i row Hrow.
    apply lookup_zip_with_Some in Hrow as (x & y & -> & Hx & Hy).
    rewrite length_zip_with.
    rewrite Forall_lookup in HXr. rewrite Forall_lookup in HYr.
    rewrite (HXr _ _ Hx), (HYr _ _ Hy). lia.
Qed.

Lemma shape_kernel_times (c : num) (n : nat) (U : list (list Z)) :
  shape n n U → shape n n (kernel_times c U).
Proof.
  intros [HU Hrows]. unfold kernel_times. split; [by rewrite length_fmap|].
  apply Forall_fmap. eapply Forall_impl; [exact Hrows|].
  intros row Hrow. cbn. by rewrite length_fmap.
Qed.

Lemma shape_stdp_lag (positive negative : bool) (ap an : num) (n : nat)
    (U mask : list (list Z)) (W : list (list num)) :
  shape n n U → shape n n mask → shape n n W →
  shape n n (stdp_lag positive negative ap an U mask W).
Proof.
  intros HU Hm HW. unfold stdp_lag, mat_add, mat_mask.
  destruct positive, negative;
    repeat (apply shape_mat_map2 || apply shape_kernel_times
            || apply shape_one_minus_Z); done.
Qed.

(** A kernel entry that is zero, which [stdp_update_jit] skips, adds
    nothing. *)
Lemma stdp_term_skipped (n : nat) (c : num) (U mask : list (list Z))
    (W : list (list num)) :
  shape n n U → shape n n mask → shape n n W →
  Num.truthy c = false →
  mat_add W (mat_mask (kernel_times c U) mask) = W.
Proof.
  intros HU Hm HW Hc. unfold Num.truthy in Hc.
  apply negb_false_iff, bool_decide_eq_true in Hc as ->.
  rewrite (kernel_times_zero n n) by done. by apply mat_add_masked_zeros.
Qed.

Lemma spike_window_drop (train : list (list Z)) (t : nat) :
  spike_window train t =
    (λ row : list Z, of_Z <$> row) <$> drop (length train - (t + 2)) train.
Proof.
  unfold spike_window, py_slice. cbn [from_option].
  rewrite bool_decide_eq_true_2 by lia. f_equal.
  replace (Z.to_nat (Z.max (- Z.of_nat t - 1 - 1 + Z.of_nat (length train)) 0))
    with (length train - (t + 2))%nat by lia.
  apply take_ge. rewrite length_drop. lia.
Qed.

Lemma spike_window_lag (train : list (list Z)) (t i : nat) (old : list Z) :
  (t + 1 ≤ length train)%nat → (i < t)%nat →
  lag_spikes train i = Some old →
  py_item (spike_window train t) (- Z.of_nat i - 1 - 1) = Ret (of_Z <$> old).
Proof.
  intros Ht Hi Hold. rewrite spike_window_drop.
  unfold lag_spikes in Hold. rewrite bool_decide_eq_true_2 in Hold by lia.
  unfold py_item, np_index. rewrite length_fmap, length_drop.
  rewrite bool_decide_eq_false_2 by lia.
  rewrite bool_decide_eq_true_2 by lia. cbn [obind].
  rewrite list_lookup_fmap, lookup_drop.
  replace (length train - (t + 2) +
           Z.to_nat (- Z.of_nat i - 1 - 1
                     + Z.of_nat (length train - (length train - (t + 2)))))%nat
    with (length train - 2 - i)%nat by lia.
  by rewrite Hold.
Qed.

Lemma spike_window_now (train : list (list Z)) (t : nat) (now : list Z) :
  last train = Some now →
  py_item (spike_window train t) (-1) = Ret (of_Z <$> now).
Proof.
  intros Hlast. apply py_item_last. rewrite spike_window_drop, fmap_last.
  rewrite last_lookup in Hlast. pose proof (lookup_lt_Some _ _ _ Hlast) as Hlt.
  rewrite last_lookup, lookup_drop, length_drop.
  replace (length train - (t + 2) +
           pred (length train - (length train - (t + 2))))%nat
    with (pred (length train)) by lia.
  by rewrite Hlast.
Qed.

(** One pass of [stdp_update_jit] over the window is the update of one
    lag. *)
Lemma stdp_update_jit_pass_lag (n t i : nat) (train : list (list Z))
    (old now : list Z) (apos aneg : list num) (ap an : num)
    (W : list (list num)) (mask : list (list Z)) :
  (t + 1 ≤ length train)%nat → (i < t)%nat →
  lag_spikes train i = Some old → last train = Some now →
  length old = n → length now = n →
  apos !! i = Some ap → aneg !! i = Some an →
  shape n n W → shape n n mask →
  stdp_update_jit_pass (spike_window train t) apos aneg mask i W =
    Ret (stdp_lag true true ap an (np_outer_Z old now) mask W).
Proof.
  intros Ht Hi Hold Hlast Holdn Hnown Hapi Hani HW Hmask.
  unfold stdp_update_jit_pass, jit_update_synapses.
  rewrite (spike_window_lag train t i old Ht Hi Hold).
  rewrite (spike_window_now train t now Hlast). cbn [obind].
  rewrite (py_item_nat _ _ _ Hapi), (py_item_nat _ _ _ Hani). cbn [obind].
  unfold stdp_term. rewrite kernel_times_outer, kernel_times_one_minus_outer.
  pose proof (shape_np_outer_Z n old now Holdn Hnown) as HU.
  set (U := np_outer_Z old now) in *.
  f_equal. unfold stdp_lag.
  destruct (Num.truthy ap) eqn:Htap, (Num.truthy an) eqn:Htan.
  - reflexivity.
  - symmetry. apply (stdp_term_skipped n); try done.
    + by apply shape_one_minus_Z.
    + apply shape_mat_map2; [done|].
      apply shape_mat_map2; [by apply shape_kernel_times|done].
  - by rewrite (stdp_term_skipped n ap U mask W).
  - rewrite (stdp_term_skipped n ap U mask W) by done.
    symmetry. apply (stdp_term_skipped n); try done.
    by apply shape_one_minus_Z.
Qed.

(** [stdp_update_jit], given the window [simulate_cpu_jit] builds,
    returns the weights of the lag-by-lag rule with both updates on. *)
Lemma stdp_update_jit_refines_spec (n t : nat) (train : list (list Z))
    (apos aneg : list num) (W : list (list num)) (mask : list (list Z)) :
  Forall (λ row, length row = n) train →
  (t + 1 ≤ length train)%nat →
  (t ≤ length apos)%nat → (t ≤ length aneg)%nat →
  shape n n W → shape n n mask →
  ∃ W',
    stdp_spec true true mask train apos aneg t W = Some W'
    ∧ stdp_update_jit t (spike_window train t) W apos aneg mask = Ret W'.
Proof.
  intros Hrows Ht Hap Han HW Hmask.
  unfold stdp_spec, stdp_update_jit, ofor.
  destruct (last train) as [now|] eqn:Hlast.
  2:{ apply last_None in Hlast. subst train. cbn in Ht. lia. }
  cbn [mbind option_bind].
  assert (length now = n) as Hnow.
  { rewrite Forall_lookup in Hrows. rewrite last_lookup in Hlast.
    by apply (Hrows _ _ Hlast). }
  assert (∀ i, i ∈ seq 0 t → (i < t)%nat) as Hseq
    by (intros i Hi%elem_of_seq; lia).
  revert W HW Hseq. generalize (seq 0 t).
  induction l as [|i l IH]; intros W HW Hl; [by exists W|].
  assert (i < t)%nat as Hi by (apply Hl; by left).
  assert (is_Some (lag_spikes train i)) as [old Hold].
  { unfold lag_spikes. rewrite bool_decide_eq_true_2 by lia.
    apply lookup_lt_is_Some. lia. }
  assert (length old = n) as Holdn.
  { unfold lag_spikes in Hold. rewrite bool_decide_eq_true_2 in Hold by lia.
    rewrite Forall_lookup in Hrows. by apply (Hrows _ _ Hold). }
  destruct (lookup_lt_is_Some_2 apos i) as [ap Hapi]; [lia|].
  destruct (lookup_lt_is_Some_2 aneg i) as [an Hani]; [lia|].
  assert (shape n n (stdp_lag true true ap an (np_outer_Z old now) mask W))
    as HW' by (apply shape_stdp_lag; [by apply shape_np_outer_Z|done|done]).
  destruct (IH _ HW') as (W' & Hspec & Hjit);
    [intros j Hj; apply Hl; by right|].
  exists W'. cbn [foldl]. split.
  - rewrite Hold. cbn [mbind option_bind kernel_at]. rewrite Hapi, Hani.
    cbn [mbind option_bind]. exact Hspec.
  - cbn [obind].
    by rewrite (stdp_update_jit_pass_lag n t i train old now apos aneg ap an W
                  mask).
Qed.

(** ** Sequencing, case by case *)

Lemma bind_inv {A B} (c : M A) (k : A → M B) m o m2 :
  bind c k m = (o, m2) →
  (∃ a m1, c m = (Ret a, m1) ∧ k a m1 = (o, m2))
  ∨ (∃ e, c m = (Raise e, m2) ∧ o = Raise e).
Proof.
  unfold bind. destruct (c m) as [[a|e] m1]; intros H.
  - left. by exists a, m1.
  - right. exists e. by injection H as <- <-.
Qed.

Lemma raise_if_inv (b : bool) (e : exn) m o m1 :
  raise_if b e m = (o, m1) →
  m1 = m ∧ (b = true ∧ o = Raise e ∨ b = false ∧ o = Ret tt).
Proof. destruct b; intros [= <- <-]; auto. Qed.

Lemma lift_inv {A} (x : outcome A) m o m1 :
  lift x m = (o, m1) → m1 = m ∧ o = x.
Proof. by intros [= <- <-]. Qed.

Lemma modify_inv (f : NeuromorphicModel → NeuromorphicModel) m o m1 :
  modify f m = (o, m1) → m1 = f m ∧ o = Ret tt.
Proof. by intros [= <- <-]. Qed.

Lemma gets_inv {A} (f : NeuromorphicModel → A) m o m1 :
  gets f m = (o, m1) → m1 = m ∧ o = Ret (f m).
Proof. by intros [= <- <-]. Qed.

Lemma ret_inv {A} (a : A) m o m1 :
  ret a m = (o, m1) → m1 = m ∧ o = Ret a.
Proof. by intros [= <- <-]. Qed.

(** The head of a sequence, by its kind. *)
Ltac monad_head Hc :=
  lazymatch type of Hc with
  | raise_if _ _ _ = _ =>
      apply raise_if_inv in Hc; destruct Hc as [-> [[Hc ?]|[Hc ?]]]; simplify_eq
  | lift _ _ = _ => apply lift_inv in Hc; destruct Hc as [-> Hc]; simplify_eq
  | modify _ _ = _ => apply modify_inv in Hc; destruct Hc as [-> Hc]; simplify_eq
  | gets _ _ = _ => apply gets_inv in Hc; destruct Hc as [-> Hc]; simplify_eq
  | get _ = _ => apply (gets_inv (λ m, m)) in Hc; destruct Hc as [-> Hc]; simplify_eq
  | ret _ _ = _ => apply ret_inv in Hc; destruct Hc as [-> Hc]; simplify_eq
  | _ => idtac
  end.

(** One step through a sequence [H : bind c k m = (o, m')]: either the
    head returned, or it raised and the sequence stopped there. *)
Ltac monad_step H :=
  lazymatch type of H with
  | bind _ _ _ = _ =>
      let Hc := fresh "Hc" in
      let Ho := fresh "Ho" in
      apply bind_inv in H; destruct H as [(? & ? & Hc & H)|(? & Hc & Ho)];
      [|try discriminate Ho; try (injection Ho as Ho); subst];
      monad_head Hc
  end.

(** ** [create_neuron] *)

(** The three ways a call of [create_neuron] ends: a check fails and
    nothing is appended; [float(reset_state)] fails after the threshold
    and the leak were appended; or all six appends happen. *)
Lemma create_neuron_cases (kw : neuron_kwargs) (m : NeuromorphicModel) o m' :
  create_neuron kw m = (o, m') →
  (∃ e, o = Raise e ∧ m' = m)
  ∨ (isinstance_int_float (reset_state kw) = false ∧ o = Raise TypeError ∧ m' ≠ m)
  ∨ (∃ th lk rs rp rf st,
        py_float (threshold kw) = Ret th ∧ py_float (leak kw) = Ret lk
        ∧ py_float (reset_state kw) = Ret rs
        ∧ py_int (refractory_period kw) = Ret rp ∧ 0 ≤ rp
        ∧ py_int (refractory_state kw) = Ret rf ∧ 0 ≤ rf
        ∧ py_float (initial_state kw) = Ret st
        ∧ py_lt_zero (leak kw) = false
        ∧ o = Ret (Z.of_nat (num_neurons m))
        ∧ m' = neuron_added th lk rs rp rf st m).
Proof.
  unfold create_neuron. intros H.
  do 12 (monad_step H; [|by left; eauto]).
  monad_step H; [|by destruct (threshold kw)].
  monad_step H.
  monad_step H; [|by destruct (leak kw)].
  monad_step H.
  monad_step H.
  2:{ right. left. destruct (reset_state kw); try done. injection Hc13 as ->.
      split; [done|]. split; [done|].
      intros Heq. apply (f_equal (λ m, length (neuron_thresholds m))) in Heq.
      revert Heq. unfold append_leak, append_threshold. cbn.
      rewrite length_app. cbn. lia. }
  do 3 monad_step H.
  monad_step H; [|by destruct (initial_state kw)].
  do 2 monad_step H. monad_head H.
  right. right. apply bool_decide_eq_false in Hc5, Hc9.
  eexists _, _, _, _, _, _. repeat split; try done; try lia.
  f_equal. unfold num_neurons, append_state, append_refractory_state,
    append_refractory_period, append_reset_state, append_leak, append_threshold.
  cbn. rewrite length_app. cbn. lia.
Qed.

Lemma neuron_added_aligned (th lk rs : num) (rp rf : Z) (st : num)
    (m : NeuromorphicModel) :
  neuron_lists_aligned m →
  neuron_lists_aligned (neuron_added th lk rs rp rf st m)
  ∧ num_neurons (neuron_added th lk rs rp rf st m) = S (num_neurons m).
Proof.
  unfold neuron_lists_aligned, num_neurons, neuron_added, append_state,
    append_refractory_state, append_refractory_period, append_reset_state,
    append_leak, append_threshold.
  cbn. rewrite !length_app. cbn. lia.
Qed.

(** A call of [create_neuron] that returns gives the new neuron the
    next free index, and appends to each of the six per-neuron lists
    one entry: [float(threshold)], [float(leak)], [float(reset_state)],
    [int(refractory_period)], [int(refractory_state)] and
    [float(initial_state)], with a leak, a period and a counter that
    are not negative.  Lists of one length stay of one length; nothing
    else in the model changes. *)
Theorem create_neuron_returns_next_index (kw : neuron_kwargs)
    (m m' : NeuromorphicModel) (id : Z) :
  neuron_lists_aligned m →
  create_neuron kw m = (Ret id, m') →
  id = Z.of_nat (num_neurons m)
  ∧ num_neurons m' = S (num_neurons m)
  ∧ neuron_lists_aligned m'
  ∧ ∃ th lk rs rp rf st,
      py_float (threshold kw) = Ret th ∧ py_float (leak kw) = Ret lk
      ∧ py_float (reset_state kw) = Ret rs
      ∧ py_int (refractory_period kw) = Ret rp ∧ 0 ≤ rp
      ∧ py_int (refractory_state kw) = Ret rf ∧ 0 ≤ rf
      ∧ py_float (initial_state kw) = Ret st
      ∧ py_lt_zero (leak kw) = false
      ∧ m' = neuron_added th lk rs rp rf st m.
Proof.
  intros Hal H.
  destruct (create_neuron_cases _ _ _ _ H)
    as [(e & [=] & _)|[(_ & [=] & _)|(th & lk & rs & rp & rf & st & Hth & Hlk & Hrs
         & Hrp & Hrp0 & Hrf & Hrf0 & Hst & Hneg & [= ->] & ->)]].
  destruct (neuron_added_aligned th lk rs rp rf st m Hal) as [Hal' Hn].
  split; [done|]. split; [done|]. split; [done|].
  by exists th, lk, rs, rp, rf, st.
Qed.

Lemma create_neuron_returns_next_index_witness :
  0 = Z.of_nat (num_neurons init)
  ∧ num_neurons (default_neuron_added init) = S (num_neurons init)
  ∧ neuron_lists_aligned (default_neuron_added init)
  ∧ ∃ th lk rs rp rf st,
      py_float (threshold neuron_defaults) = Ret th
      ∧ py_float (leak neuron_defaults) = Ret lk
      ∧ py_float (reset_state neuron_defaults) = Ret rs
      ∧ py_int (refractory_period neuron_defaults) = Ret rp ∧ 0 ≤ rp
      ∧ py_int (refractory_state neuron_defaults) = Ret rf ∧ 0 ≤ rf
      ∧ py_float (initial_state neuron_defaults) = Ret st
      ∧ py_lt_zero (leak neuron_defaults) = false
      ∧ default_neuron_added init = neuron_added th lk rs rp rf st init.
Proof.
  apply (create_neuron_returns_next_index neuron_defaults init
           (default_neuron_added init) 0).
  - by vm_compute.
  - reflexivity.
Defined.



(** ** [create_synapse] and [add_spike]: rejections *)

(** A call of [create_synapse] that raises leaves the model as it was:
    every check comes before the first append, and once the checks are
    passed neither the relay loop nor the last call can fail, so no
    part of a chain is left behind. *)
Theorem create_synapse_rejection_keeps_model (pre_id post_id : neuron_arg)
    (weight delay : pyval) (s : bool) (m m' : NeuromorphicModel) (e : exn) :
  create_synapse pre_id post_id weight delay s m = (Raise e, m') →
  m' = m.
Proof.
  rewrite create_synapse_depth. generalize 998%nat. intros depth.
  rewrite create_synapse_rec_S. unfold create_synapse_body. intros H.
  do 13 (monad_step H; [|done]).
  apply bool_decide_eq_false in Hc6, Hc7, Hc8.
  assert (∃ w, py_float weight = Ret w) as [w Hw].
  { destruct weight; try done; eauto. }
  monad_step H.
  - monad_step H.
  - exfalso. case_bool_decide as Hd.
    + monad_step Hc9. congruence.
    + destruct (relay_loop depth (Z.to_nat (x1 - 1)) (ById (PInt x)) x m
                  eq_refl ltac:(lia)) as (pre' & Hloop & Hend).
      monad_step Hc9; [|congruence].
      rewrite Hloop in Hc10. injection Hc10 as <- <-.
      assert (0 ≤ chain_end m x (Z.to_nat (x1 - 1))) as Hce.
      { unfold chain_end, relay_ids.
        destruct (last (Z.of_nat <$> _)) as [z|] eqn:Hl; [|cbn; lia].
        apply last_Some_elem_of, list_elem_of_fmap in Hl as (j & -> & _).
        cbn. lia. }
      pose proof (create_synapse_rec_unit depth pre' (ById (PInt x0)) weight w s
                    (chain_end m x (Z.to_nat (x1 - 1))) x0
                    (relays_added m x (Z.to_nat (x1 - 1))) Hend eq_refl Hce
                    ltac:(lia) Hw) as Hu.
      monad_step Hc9; [by monad_head Hc9|congruence].
Qed.

Lemma create_synapse_rejection_keeps_model_witness :
  after (create_synapse (ById (PInt 0)) (ById (PInt 1)) (PFloat one) (PInt 0)
           true) two_neurons
  = two_neurons.
Proof.
  apply (create_synapse_rejection_keeps_model (ById (PInt 0)) (ById (PInt 1))
           (PFloat one) (PInt 0) true two_neurons
           (after (create_synapse (ById (PInt 0)) (ById (PInt 1)) (PFloat one)
                     (PInt 0) true) two_neurons)
           ValueError).
  vm_compute. reflexivity.
Defined.

(** A call of [add_spike] that raises leaves the schedule, and the
    rest of the model, as it was. *)
Theorem add_spike_rejection_keeps_model (time : pyval) (neuron_id : neuron_arg)
    (value : pyval) (m m' : NeuromorphicModel) (e : exn) :
  add_spike time neuron_id value m = (Raise e, m') →
  m' = m.
Proof.
  unfold add_spike. intros H.
  do 10 (monad_step H; [|done]).
  monad_step H.
  destruct (input_spikes m !! x0); by monad_head H.
Qed.

Lemma add_spike_rejection_keeps_model_witness :
  after (add_spike (PFloat PInf) (ByHandle 0) (PInt 1)) two_neurons
  = two_neurons.
Proof.
  apply (add_spike_rejection_keeps_model (PFloat PInf) (ByHandle 0) (PInt 1)
           two_neurons
           (after (add_spike (PFloat PInf) (ByHandle 0) (PInt 1)) two_neurons)
           OverflowError).
  vm_compute. reflexivity.
Defined.

(** ** [is_intlike] *)

Lemma Qc_of_Z_den (z : Z) : Qden (Qc_of_Z z) = 1%positive.
Proof.
reflexivity. Qed.

Lemma Qc_trunc_integral (q : Qc) :
  Qden q = 1%positive → Qc_of_Z (Qc_trunc q) = q.
Proof.
  intros Hden. apply Qc_is_canon. unfold Qc_trunc, Qc_of_Z. cbn [this].
  destruct q as [[n d] Hq]. cbn in *. subst d.
  rewrite Z.quot_1_r. reflexivity.
Qed.

(** [is_intlike] accepts every [int] and the floats with an integral
    value, answers [False] on the other finite floats, and raises on
    what [int()] refuses: [OverflowError] on an infinity, [ValueError]
    on [nan], [TypeError] on a value that is not a number. *)
Theorem is_intlike_table :
  (∀ z, is_intlike (PInt z) = Ret true)
  ∧ (∀ q : Qc, is_intlike (PFloat (Fin q)) = Ret (bool_decide (Qden q = 1%positive)))
  ∧ is_intlike (PFloat PInf) = Raise OverflowError
  ∧ is_intlike (PFloat NInf) = Raise OverflowError
  ∧ is_intlike (PFloat NaN) = Raise ValueError
  ∧ is_intlike PNone = Raise TypeError.
Proof.
  repeat split; try reflexivity.
  intros q. unfold is_intlike. cbn. f_equal. unfold of_Z.
  apply bool_decide_ext. split.
  - intros [= Hq]. rewrite Hq. apply Qc_of_Z_den.
  - intros Hden. f_equal. symmetry. by apply Qc_trunc_integral.
Qed.

(** ** The dispatcher [simulate] *)

Section Dispatch.

Variable env : Env.
Variable k_post : list (list num) → list Z → list num → list num.
Variable k_lif :
  list num → list Z → list num → list num → list num → list num →
  list num → list num → list num → list Z * list num * list num.
Variable k_stdp :
  list (list num) → list Z → list Z → list (list Z) → num → num →
  list (list num).

Lemma simulate_valid (time_steps : pyval) (z : Z) (cb : option callback)
    (use : option string) (m : NeuromorphicModel) :
  valid_time_steps time_steps z →
  simulate env k_post k_lif k_stdp time_steps cb use m =
    (do use <- (if bool_decide (backend_name use m = "auto")
                then recommend env (Z.to_nat z)
                else ret (backend_name use m));
     if bool_decide (use = "jit") then simulate_cpu_jit env (Z.to_nat z) cb
     else if bool_decide (use = "gpu")
     then simulate_gpu env k_post k_lif k_stdp (Z.to_nat z) cb
     else if bool_decide (use = "cpu") || bool_decide (use = "")
     then simulate_cpu (Z.to_nat z) cb
     else raise ValueError) m.
Proof.
  intros (Hok & Hint & Hpos). unfold simulate, backend_name.
  unfold bind at 1. unfold lift. rewrite Hok.
  unfold bind at 1. cbn [raise_if negb ret].
  unfold bind at 1. rewrite Hint.
  unfold bind at 1. rewrite bool_decide_eq_false_2 by lia. cbn [raise_if ret].
  unfold bind at 1. destruct use as [u|]; reflexivity.
Qed.

(** [simulate] checks [time_steps] before it touches the model: unless
    [time_steps] is an [int] or an integral float above zero, the call
    raises and the model is as it was. *)
Theorem simulate_rejects_time_steps (time_steps : pyval) (cb : option callback)
    (use : option string) (m : NeuromorphicModel) :
  (∀ z, ¬ valid_time_steps time_steps z) →
  ∃ e, simulate env k_post k_lif k_stdp time_steps cb use m = (Raise e, m).
Proof.
  intros Hbad. unfold simulate, bind, lift, raise_if, raise.
  destruct (is_intlike time_steps) as [[|]|e] eqn:Hok; cbn [negb]; eauto.
  destruct (py_int time_steps) as [z|e] eqn:Hint; eauto.
  case_bool_decide as Hz; eauto.
  destruct (Hbad z). unfold valid_time_steps. split_and!; [done..|lia].
Qed.

(** A backend name that is none of ['auto'], ['jit'], ['gpu'], ['cpu']
    and the empty string, whatever its case, is refused with
    [ValueError] before the model is touched. *)
Theorem simulate_rejects_unknown_backend (time_steps : pyval) (z : Z)
    (cb : option callback) (use : option string) (m : NeuromorphicModel) :
  valid_time_steps time_steps z →
  backend_name use m ∉ ["auto"; "jit"; "gpu"; "cpu"; ""] →
  simulate env k_post k_lif k_stdp time_steps cb use m = (Raise ValueError, m).
Proof.
  intros Hv Hname. rewrite (simulate_valid _ z) by done.
  rewrite !not_elem_of_cons in Hname.
  destruct Hname as (Hauto & Hjit & Hgpu & Hcpu & Hempty & _).
  unfold bind. rewrite bool_decide_eq_false_2 by done. cbn [ret].
  by rewrite !bool_decide_eq_false_2 by done.
Qed.

(** With Numba installed, a run that the recommender scores above
    [jit_threshold] (and not above [gpu_threshold] on a machine with
    CUDA) goes to the compiled backend under the default backend
    ['auto'], and so never returns: for one neuron, from ten ticks on. *)
Theorem simulate_auto_with_numba_raises (time_steps : pyval) (z : Z)
    (cb : option callback) (use : option string) (m : NeuromorphicModel) :
  valid_time_steps time_steps z →
  backend_name use m = "auto" →
  numba_installed env = true →
  jit_threshold < score m z →
  cuda_available env = false ∨ score m z ≤ gpu_threshold →
  ∃ e, (simulate env k_post k_lif k_stdp time_steps cb use m).1 = Raise e.
Proof.
  intros Hv Hname Hnumba Hjit Hgpu. rewrite (simulate_valid _ z) by done.
  pose proof Hv as (_ & _ & Hz).
  rewrite Hname. rewrite bool_decide_eq_true_2 by done.
  unfold recommend, bind at 1. unfold bind at 1. unfold gets. cbn [fst snd].
  rewrite Hnumba. cbn [andb].
  assert (Z.of_nat (num_neurons m) * 1 + Z.of_nat (Z.to_nat z) * 100 = score m z)
    as -> by (unfold score; lia).
  assert (cuda_available env && bool_decide (score m z > gpu_threshold) = false)
    as ->.
  { destruct Hgpu as [->| Hle]; [done|].
    rewrite bool_decide_eq_false_2 by lia. by destruct (cuda_available env). }
  rewrite bool_decide_eq_true_2 by lia. cbn [ret].
  rewrite bool_decide_eq_true_2 by done.
  destruct (Z.to_nat z) as [|n] eqn:Hn; [lia|].
  apply simulate_cpu_jit_never_returns.
Qed.

(** Without Numba the default backend ['auto'] is the reference
    backend, whatever the size of the network and of the run. *)
Theorem simulate_auto_without_numba_is_cpu (time_steps : pyval) (z : Z)
    (cb : option callback) (use : option string) (m : NeuromorphicModel) :
  valid_time_steps time_steps z →
  backend_name use m = "auto" →
  numba_installed env = false →
  simulate env k_post k_lif k_stdp time_steps cb use m =
    simulate_cpu (Z.to_nat z) cb m.
Proof.
  intros Hv Hname Hnumba. rewrite (simulate_valid _ z) by done.
  rewrite Hname. rewrite bool_decide_eq_true_2 by done.
  unfold recommend, bind at 1. unfold bind at 1. unfold gets. cbn [fst snd].
  rewrite Hnumba. reflexivity.
Qed.

End Dispatch.

Lemma simulate_rejects_time_steps_witness :
  ∃ e, simulate (MkEnv true true)
         (λ _ _ p, p) (λ _ s _ st _ _ _ r _, (s, st, r)) (λ w _ _ _ _ _, w)
         (PInt 0) None None two_neurons = (Raise e, two_neurons).
Proof.
  apply (simulate_rejects_time_steps (MkEnv true true)).
  intros z (_ & [= <-] & Hz). lia.
Defined.

Lemma simulate_rejects_unknown_backend_witness :
  simulate (MkEnv true true)
    (λ _ _ p, p) (λ _ s _ st _ _ _ r _, (s, st, r)) (λ w _ _ _ _ _, w)
    (PFloat (of_Z 3)) None (Some "TPU") two_neurons
  = (Raise ValueError, two_neurons).
Proof.
  apply (simulate_rejects_unknown_backend _ _ _ _ _ 3).
  - by repeat split.
  - vm_compute. intros H. repeat (apply elem_of_cons in H as [[=]|H]).
    by apply elem_of_nil in H.
Defined.

Lemma simulate_auto_with_numba_raises_witness :
  ∃ e, (simulate (MkEnv true false)
          (λ _ _ p, p) (λ _ s _ st _ _ _ r _, (s, st, r)) (λ w _ _ _ _ _, w)
          (PInt 10) None None refractory_model).1 = Raise e.
Proof.
  apply (simulate_auto_with_numba_raises _ _ _ _ _ 10).
  - by repeat split.
  - reflexivity.
  - reflexivity.
  - by vm_compute.
  - by left.
Defined.

Lemma simulate_auto_without_numba_is_cpu_witness :
  simulate (MkEnv false false)
    (λ _ _ p, p) (λ _ s _ st _ _ _ r _, (s, st, r)) (λ w _ _ _ _ _, w)
    (PInt 10) None None refractory_model
  = simulate_cpu (Z.to_nat 10) None refractory_model.
Proof.
  apply (simulate_auto_without_numba_is_cpu _ _ _ _ _ 10).
  - by repeat split.
  - reflexivity.
  - reflexivity.
Defined.

(** ** Fancy-index assignment and reading *)

Lemma np_index_lt (n : nat) (i : Z) (k : nat) :
  np_index n i = Ret k → (k < n)%nat.
Proof.
  unfold np_index. repeat case_bool_decide; intros [= <-]; lia.
Qed.

Lemma np_index_nonneg (n : nat) (i : Z) (k : nat) :
  0 ≤ i → np_index n i = Ret k → i = Z.of_nat k.
Proof.
  unfold np_index. intros Hi. repeat case_bool_decide; intros [= <-]; lia.
Qed.

Lemma np_index_out (n : nat) (i : Z) :
  Z.of_nat n ≤ i → np_index n i = Raise IndexError.
Proof.
  unfold np_index. intros Hi. by rewrite !bool_decide_eq_false_2 by lia.
Qed.

Lemma np_index_raises (n : nat) (i : Z) (e : exn) :
  np_index n i = Raise e → e = IndexError.
Proof. unfold np_index. repeat case_bool_decide; by intros [= <-]. Qed.

Lemma shape_zeros2 {A} (z : A) (r c : nat) : shape r c (zeros2 z r c).
Proof.
  unfold shape, zeros2. rewrite length_replicate. split; [done|].
  apply Forall_replicate. by rewrite length_replicate.
Qed.

Lemma entry_zeros2 {A} (z : A) (r c p q : nat) :
  (p < r)%nat → (q < c)%nat → entry (zeros2 z r c) p q = Some z.
Proof.
  intros Hp Hq. unfold entry, zeros2.
  rewrite lookup_replicate_2 by done. cbn. by rewrite lookup_replicate_2.
Qed.

Lemma shape_entry {A} (r c : nat) (M : list (list A)) (p q : nat) :
  shape r c M → (p < r)%nat → (q < c)%nat → is_Some (entry M p q).
Proof.
  intros [Hr Hc] Hp Hq. unfold entry.
  destruct (lookup_lt_is_Some_2 M p) as [row Hrow]; [lia|].
  rewrite Hrow. cbn. apply lookup_lt_is_Some_2.
  rewrite Forall_lookup in Hc. by rewrite (Hc _ _ Hrow).
Qed.

(** Two matrices of one shape with the same entries are equal. *)
Lemma matrix_eq {A} (r c : nat) (M N : list (list A)) :
  shape r c M → shape r c N →
  (∀ p q, (p < r)%nat → (q < c)%nat → entry M p q = entry N p q) →
  M = N.
Proof.
  intros [HrM HcM] [HrN HcN] Hent.
  apply (list_eq_same_length _ _ r); [done|done|].
  intros p x y Hp Hx Hy.
  rewrite Forall_lookup in HcM, HcN.
  apply (list_eq_same_length _ _ c); [by eapply HcN|by eapply HcM|].
  intros q a b Hq Ha Hb. specialize (Hent p q Hp Hq).
  unfold entry in Hent. rewrite Hx, Hy in Hent. cbn in Hent. congruence.
Qed.

Lemma shape_mat_set {A} (r c : nat) (M : list (list A)) (p q : nat) (v : A) :
  shape r c M → shape r c (mat_set M p q v).
Proof.
  intros [Hr Hc]. unfold shape, mat_set. rewrite length_alter. split; [done|].
  rewrite Forall_lookup in Hc. apply Forall_lookup. intros i row.
  destruct (decide (p = i)) as [->|Hne].
  - rewrite list_lookup_alter_eq. destruct (M !! i) as [row'|] eqn:E; cbn; [|done].
    intros [= <-]. rewrite length_insert. by eapply Hc.
  - rewrite list_lookup_alter_ne by done. apply Hc.
Qed.

Lemma entry_mat_set_eq {A} (M : list (list A)) (p q : nat) (v : A) :
  is_Some (entry M p q) → entry (mat_set M p q v) p q = Some v.
Proof.
  unfold entry, mat_set. intros [x Hx]. rewrite list_lookup_alter_eq.
  destruct (M !! p) as [row|]; [|done]. cbn in *.
  apply list_lookup_insert_eq. by eapply lookup_lt_Some.
Qed.

Lemma entry_mat_set_ne {A} (M : list (list A)) (p q p' q' : nat) (v : A) :
  (p, q) ≠ (p', q') → entry (mat_set M p q v) p' q' = entry M p' q'.
Proof.
  unfold entry, mat_set. intros Hne.
  destruct (decide (p = p')) as [->|Hp].
  - rewrite list_lookup_alter_eq. destruct (M !! p') as [row|]; [|done]. cbn.
    apply list_lookup_insert_ne. congruence.
  - by rewrite list_lookup_alter_ne.
Qed.

Lemma addressed_cons (n : nat) (r c : Z) (rows cols : list Z) (p q : nat) :
  addressed n (r :: rows) (c :: cols) p q =
    bool_decide (np_index n r = Ret p ∧ np_index n c = Ret q)
    || addressed n rows cols p q.
Proof. reflexivity. Qed.

(** An addressed entry has a last index pair that addresses it. *)
Lemma addressed_last (n : nat) (rows cols : list Z) (p q : nat) :
  addressed n rows cols p q = true →
  ∃ k r c, rows !! k = Some r ∧ cols !! k = Some c
           ∧ np_index n r = Ret p ∧ np_index n c = Ret q
           ∧ addressed n (drop (S k) rows) (drop (S k) cols) p q = false.
Proof.
  revert cols. induction rows as [|r rows IH]; intros [|c cols]; try done.
  rewrite addressed_cons. intros H.
  destruct (addressed n rows cols p q) eqn:Htail.
  - destruct (IH cols Htail) as (k & r' & c' & ? & ? & ? & ? & ?).
    by exists (S k), r', c'.
  - rewrite orb_false_r in H. apply bool_decide_eq_true in H as [Hr Hc].
    by exists 0%nat, r, c.
Qed.

Lemma addressed_false (n : nat) (rows cols : list Z) (p q : nat) (k : nat)
    (r c : Z) :
  addressed n rows cols p q = false →
  rows !! k = Some r → cols !! k = Some c →
  ¬ (np_index n r = Ret p ∧ np_index n c = Ret q).
Proof.
  revert cols k. induction rows as [|r' rows IH]; intros [|c' cols] k; try done.
  rewrite addressed_cons. intros [Hhead Htail]%orb_false_elim.
  destruct k as [|k]; cbn.
  - intros [= <-] [= <-]. by apply bool_decide_eq_false in Hhead.
  - by apply IH.
Qed.

(** What [mat[rows, cols] = vals] leaves: the shape is kept, an entry
    no index pair addresses is kept, and an addressed entry holds the
    value of the last pair that addresses it. *)
Lemma mat_assign_entries {A} (n : nat) (rows cols : list Z) (vals : list A)
    (M M' : list (list A)) :
  shape n n M →
  mat_assign n M rows cols vals = Ret M' →
  shape n n M'
  ∧ (∀ p q, addressed n rows cols p q = false → entry M' p q = entry M p q)
  ∧ (∀ k r c v p q,
       rows !! k = Some r → cols !! k = Some c → vals !! k = Some v →
       np_index n r = Ret p → np_index n c = Ret q →
       addressed n (drop (S k) rows) (drop (S k) cols) p q = false →
       entry M' p q = Some v).
Proof.
  revert cols vals M.
  induction rows as [|r rows IH]; intros [|c cols] [|v vals] M Hsh; try done.
  - intros [= <-]. split; [done|]. split; [done|]. by intros [|k].
  - cbn [mat_assign]. destruct (np_index n r) as [p0|e] eqn:Hr; [|done].
    destruct (np_index n c) as [q0|e] eqn:Hc; [|done]. cbn [obind].
    intros Hrec.
    destruct (IH cols vals (mat_set M p0 q0 v) (shape_mat_set _ _ _ _ _ _ Hsh) Hrec)
      as (Hsh' & Hkeep & Hlast).
    split; [done|]. split.
    + intros p q. rewrite addressed_cons, Hr, Hc.
      intros [Hhead Htail]%orb_false_elim.
      rewrite (Hkeep p q Htail). apply entry_mat_set_ne.
      apply bool_decide_eq_false in Hhead. intros [= -> ->]. by apply Hhead.
    + intros [|k] r' c' v' p q; cbn.
      * intros [= <-] [= <-] [= <-] Hp Hq Htail. cbn [drop] in Htail.
        rewrite (Hkeep p q Htail). rewrite Hr in Hp. rewrite Hc in Hq.
        injection Hp as <-. injection Hq as <-.
        apply entry_mat_set_eq. eapply shape_entry; [done|..];
          by eapply np_index_lt.
      * apply Hlast.
Qed.

(** [mat_assign] fails with [IndexError] only. *)
Lemma mat_assign_raises {A} (n : nat) (rows cols : list Z) (vals : list A)
    (M : list (list A)) (e : exn) :
  mat_assign n M rows cols vals = Raise e → e = IndexError.
Proof.
  revert cols vals M.
  induction rows as [|r rows IH]; intros [|c cols] [|v vals] M; cbn;
    try (by intros [= <-]).
  destruct (np_index n r) as [p0|e'] eqn:Hr; cbn.
  2:{ intros [= <-]. by eapply np_index_raises. }
  destruct (np_index n c) as [q0|e'] eqn:Hc; cbn.
  2:{ intros [= <-]. by eapply np_index_raises. }
  apply IH.
Qed.

(** An index pair out of range makes the assignment fail. *)
Lemma mat_assign_out_of_range {A} (n : nat) (rows cols : list Z)
    (vals : list A) (M : list (list A)) (k : nat) (r c : Z) :
  rows !! k = Some r → cols !! k = Some c →
  Z.of_nat n ≤ r ∨ Z.of_nat n ≤ c →
  mat_assign n M rows cols vals = Raise IndexError.
Proof.
  intros Hr Hc Hout.
  destruct (mat_assign n M rows cols vals) as [M'|e] eqn:H.
  2:{ f_equal. by eapply mat_assign_raises. }
  exfalso. revert cols vals M k Hr Hc H.
  induction rows as [|r' rows IH]; intros [|c' cols] [|v vals] M k; try done.
  cbn [mat_assign]. destruct (np_index n r') as [p0|e] eqn:Hr'; [|done].
  destruct (np_index n c') as [q0|e] eqn:Hc'; [|done]. cbn [obind].
  destruct k as [|k]; cbn.
  - intros [= ->] [= ->] _.
    destruct Hout as [Ho|Ho]; apply np_index_out in Ho; congruence.
  - intros Hr Hc H. by eapply IH.
Qed.

(** An assignment that succeeds had three lists of one length and
    every index in range. *)
Lemma mat_assign_indices {A} (n : nat) (rows cols : list Z) (vals : list A)
    (M M' : list (list A)) :
  mat_assign n M rows cols vals = Ret M' →
  length cols = length rows ∧ length vals = length rows
  ∧ (∀ k r, rows !! k = Some r → ∃ p, np_index n r = Ret p)
  ∧ (∀ k c, cols !! k = Some c → ∃ q, np_index n c = Ret q).
Proof.
  revert cols vals M.
  induction rows as [|r rows IH]; intros [|c cols] [|v vals] M; try done.
  cbn [mat_assign]. destruct (np_index n r) as [p0|e] eqn:Hr; [|done].
  destruct (np_index n c) as [q0|e] eqn:Hc; [|done]. cbn [obind].
  intros Hrec. destruct (IH _ _ _ Hrec) as (Hlc & Hlv & Hrows & Hcols).
  cbn [length]. split; [lia|]. split; [lia|].
  split; intros [|k] z; cbn; eauto; intros [= <-]; eauto.
Qed.

Lemma addressed_nonneg_false (n : nat) (rows cols : list Z) (p q : nat) :
  Forall (λ z, 0 ≤ z) rows → Forall (λ z, 0 ≤ z) cols →
  (∀ j, ¬ (rows !! j = Some (Z.of_nat p) ∧ cols !! j = Some (Z.of_nat q))) →
  addressed n rows cols p q = false.
Proof.
  intros Hrows Hcols Hno.
  destruct (addressed n rows cols p q) eqn:E; [|done]. exfalso.
  apply addressed_last in E as (k & r & c & Hr & Hc & Hp & Hq & _).
  rewrite Forall_lookup in Hrows, Hcols.
  apply np_index_nonneg in Hp; [|by eapply Hrows].
  apply np_index_nonneg in Hq; [|by eapply Hcols].
  subst. by apply (Hno k).
Qed.

Lemma Forall_drop_nonneg (k : nat) (l : list Z) :
  Forall (λ z, 0 ≤ z) l → Forall (λ z, 0 ≤ z) (drop k l).
Proof. apply Forall_drop. Qed.

(** ** The weight matrix *)

Lemma weight_mat_last_synapse_cases (m : NeuromorphicModel)
    (W : list (list num)) :
  synapse_ids_nonneg m →
  weight_mat m = Ret W →
  shape (num_neurons m) (num_neurons m) W
  ∧ (∀ p q, (p < num_neurons m)%nat → (q < num_neurons m)%nat →
       (∀ k, ¬ synapse_at m k p q) → entry W p q = Some zero)
  ∧ (∀ k p q w, last_synapse_at m k p q → synaptic_weights m !! k = Some w →
       entry W p q = Some w).
Proof.
  intros [Hpre Hpost] HW. unfold weight_mat in HW.
  pose proof (mat_assign_indices _ _ _ _ _ _ HW) as (_ & _ & Hrows & Hcols).
  apply mat_assign_entries in HW as (Hsh & Hkeep & Hlast);
    [|apply shape_zeros2].
  split; [done|]. split.
  - intros p q Hp Hq Hno. rewrite Hkeep; [by apply entry_zeros2|].
    by apply addressed_nonneg_false.
  - intros k p q w [[Hr Hc] Hlater] Hw.
    destruct (Hrows _ _ Hr) as [p' Hp]. destruct (Hcols _ _ Hc) as [q' Hq].
    pose proof (np_index_nonneg _ _ _ (Nat2Z.is_nonneg p) Hp) as Hpp.
    pose proof (np_index_nonneg _ _ _ (Nat2Z.is_nonneg q) Hq) as Hqq.
    apply Nat2Z.inj in Hpp, Hqq. subst p' q'.
    apply (Hlast k _ _ w p q Hr Hc Hw Hp Hq).
    apply addressed_nonneg_false; [by apply Forall_drop..|].
    intros j. rewrite !lookup_drop. intros Hj.
    apply (Hlater (S k + j)%nat); [lia|exact Hj].
Qed.

(** The matrix [weight_mat] builds is square of side [num_neurons]; an
    entry [(p, q)] without a synapse from [p] to [q] holds 0, and an
    entry with one or more holds the weight of the last one created:
    the weights of parallel synapses are not added, the earlier ones
    are shadowed. *)
Theorem weight_mat_last_synapse_wins (m : NeuromorphicModel)
    (W : list (list num)) :
  synapse_ids_nonneg m →
  weight_mat m = Ret W →
  shape (num_neurons m) (num_neurons m) W
  ∧ (∀ p q, (p < num_neurons m)%nat → (q < num_neurons m)%nat →
       (∀ k, ¬ synapse_at m k p q) → entry W p q = Some zero)
  ∧ (∀ k p q w, last_synapse_at m k p q → synaptic_weights m !! k = Some w →
       entry W p q = Some w).
Proof. apply weight_mat_last_synapse_cases. Qed.

Lemma weight_mat_last_synapse_wins_witness :
  ∃ W,
    weight_mat duplicate_pair = Ret W
    ∧ shape (num_neurons duplicate_pair) (num_neurons duplicate_pair) W
    ∧ (∀ p q, (p < num_neurons duplicate_pair)%nat →
         (q < num_neurons duplicate_pair)%nat →
         (∀ k, ¬ synapse_at duplicate_pair k p q) → entry W p q = Some zero)
    ∧ (∀ k p q w, last_synapse_at duplicate_pair k p q →
         synaptic_weights duplicate_pair !! k = Some w →
         entry W p q = Some w).
Proof.
  eexists. split; [vm_compute; reflexivity|].
  apply (weight_mat_last_synapse_wins duplicate_pair).
  - split; vm_compute; repeat constructor; discriminate.
  - vm_compute. reflexivity.
Defined.

(** The weight of the shadowed synapse of [duplicate_pair] is in no
    entry of the matrix. *)
Example duplicate_pair_weights :
  synaptic_weights duplicate_pair = [one; of_Z 5]
  ∧ weight_mat duplicate_pair = Ret [[zero; of_Z 5]; [zero; zero]].
Proof. vm_compute. split; reflexivity. Qed.

Lemma weight_mat_raises (m : NeuromorphicModel) (e : exn) :
  weight_mat m = Raise e → e = IndexError.
Proof. apply mat_assign_raises. Qed.

(** A synapse from or to an id that no neuron has makes [weight_mat]
    fail. *)
Lemma weight_mat_missing_neuron (m : NeuromorphicModel) (k : nat) (z : Z) :
  pre_synaptic_neuron_ids m !! k = Some z
  ∨ post_synaptic_neuron_ids m !! k = Some z →
  Z.of_nat (num_neurons m) ≤ z →
  weight_mat m = Raise IndexError.
Proof.
  intros Hk Hz. destruct (weight_mat m) as [W|e] eqn:HW.
  - apply mat_assign_indices in HW as (_ & _ & Hrows & Hcols).
    destruct Hk as [Hk|Hk].
    + destruct (Hrows _ _ Hk) as [p Hp]. by rewrite np_index_out in Hp.
    + destruct (Hcols _ _ Hk) as [p Hp]. by rewrite np_index_out in Hp.
  - f_equal. by eapply weight_mat_raises.
Qed.

Lemma simulate_cpu_setup_fails (time_steps : nat) (cb : option callback)
    (m : NeuromorphicModel) (e : exn) :
  manual_setup m = false →
  weight_mat m = Raise e →
  simulate_cpu time_steps cb m = (Raise e, set_last_used_backend (Some "cpu") m).
Proof.
  intros Hman HW. unfold simulate_cpu.
  unfold bind at 1. unfold modify at 1.
  unfold bind at 1. unfold gets at 1. cbn [manual_setup set_last_used_backend].
  rewrite Hman. cbn [negb].
  unfold bind at 1. unfold bind at 1. unfold _setup.
  unfold bind at 1. unfold get at 1.
  unfold bind at 1. unfold lift at 1.
  change (weight_mat (set_last_used_backend (Some "cpu") m)) with (weight_mat m).
  by rewrite HW.
Qed.

(** [create_synapse] does not check that the two neurons exist: with
    an id that no neuron has, the call returns and appends the synapse;
    the error comes at the next run, where [weight_mat] raises
    [IndexError] before any tick.  The failed run has named its
    backend; the lists of the model, the schedule and the spike train
    are what they were.  (Nothing is said of the dense arrays, which
    [_setup] rebuilds one by one until [weight_mat] raises.) *)
Theorem synapse_to_missing_neuron_fails_at_simulate (m : NeuromorphicModel)
    (p q : Z) (w : num) (s : bool) :
  0 ≤ p → 0 ≤ q →
  Z.of_nat (num_neurons m) ≤ p ∨ Z.of_nat (num_neurons m) ≤ q →
  manual_setup m = false →
  let m' := append_synapse p q w 1 s m in
  create_synapse (ById (PInt p)) (ById (PInt q)) (PFloat w) (PInt 1) s m =
    (Ret (Z.of_nat (num_synapses m)), m')
  ∧ ∀ time_steps cb, ∃ m'',
      simulate_cpu time_steps cb m' = (Raise IndexError, m'')
      ∧ set_arrays None m'' =
          set_arrays None (set_last_used_backend (Some "cpu") m').
Proof.
  intros Hp Hq Hout Hman m'. split.
  - rewrite create_synapse_depth. by apply create_synapse_rec_unit.
  - intros time_steps cb. eexists. split; [|reflexivity].
    apply simulate_cpu_setup_fails; [done|].
    destruct Hout as [Ho|Ho].
    + apply (weight_mat_missing_neuron m' (length (pre_synaptic_neuron_ids m)) p);
        [|done].
      left. subst m'. cbn. by rewrite list_lookup_middle.
    + apply (weight_mat_missing_neuron m' (length (post_synaptic_neuron_ids m)) q);
        [|done].
      right. subst m'. cbn. by rewrite list_lookup_middle.
Qed.

Lemma synapse_to_missing_neuron_fails_at_simulate_witness :
  let m' := append_synapse 0 7 one 1 false two_neurons in
  create_synapse (ById (PInt 0)) (ById (PInt 7)) (PFloat one) (PInt 1) false
    two_neurons = (Ret (Z.of_nat (num_synapses two_neurons)), m')
  ∧ ∀ time_steps cb, ∃ m'',
      simulate_cpu time_steps cb m' = (Raise IndexError, m'')
      ∧ set_arrays None m'' =
          set_arrays None (set_last_used_backend (Some "cpu") m').
Proof.
  apply (synapse_to_missing_neuron_fails_at_simulate two_neurons 0 7 one false).
  - lia.
  - lia.
  - right. vm_compute. discriminate.
  - reflexivity.
Defined.

(** What [mat[rows, cols]] reads. *)
Lemma mat_gather_entries {A} (n : nat) (W : list (list A)) (rows cols : list Z)
    (vals : list A) :
  mat_gather n W rows cols = Ret vals →
  length vals = length rows
  ∧ ∀ k r c, rows !! k = Some r → cols !! k = Some c →
      ∃ p q v, np_index n r = Ret p ∧ np_index n c = Ret q
               ∧ entry W p q = Some v ∧ vals !! k = Some v.
Proof.
  revert cols vals. induction rows as [|r rows IH]; intros [|c cols] vals; try done.
  - intros [= <-]. split; [done|]. by intros [|k].
  - cbn [mat_gather]. destruct (np_index n r) as [p0|e] eqn:Hr; [|done].
    destruct (np_index n c) as [q0|e] eqn:Hc; [|done]. cbn [obind].
    fold (entry W p0 q0). destruct (entry W p0 q0) as [v|] eqn:Hv; [|done].
    destruct (mat_gather n W rows cols) as [vs|e] eqn:Hrec; [|done].
    cbn [obind]. intros [= <-]. destruct (IH _ _ Hrec) as [Hlen Hent].
    split; [cbn; lia|]. intros [|k] r' c'; cbn.
    + intros [= <-] [= <-]. by exists p0, q0, v.
    + apply Hent.
Qed.

Lemma mat_gather_total {A} (n : nat) (W : list (list A)) (rows cols : list Z) :
  shape n n W →
  length cols = length rows →
  (∀ k r, rows !! k = Some r → ∃ p, np_index n r = Ret p) →
  (∀ k c, cols !! k = Some c → ∃ q, np_index n c = Ret q) →
  ∃ vals, mat_gather n W rows cols = Ret vals.
Proof.
  intros Hsh. revert cols.
  induction rows as [|r rows IH]; intros [|c cols] Hlen Hrows Hcols; try done.
  - by exists [].
  - destruct (Hrows 0%nat r eq_refl) as [p Hp].
    destruct (Hcols 0%nat c eq_refl) as [q Hq].
    destruct (IH cols) as [vs Hvs].
    { cbn in Hlen. lia. }
    { intros k. apply (Hrows (S k)). }
    { intros k. apply (Hcols (S k)). }
    destruct (shape_entry n n W p q Hsh) as [v Hv]; [by eapply np_index_lt..|].
    exists (v :: vs). cbn [mat_gather]. rewrite Hp, Hq. cbn [obind].
    fold (entry W p q). by rewrite Hv, Hvs.
Qed.

Lemma synapse_at_lookup (m : NeuromorphicModel) (k : nat) (r c : Z) :
  synapse_ids_nonneg m →
  pre_synaptic_neuron_ids m !! k = Some r →
  post_synaptic_neuron_ids m !! k = Some c →
  synapse_at m k (Z.to_nat r) (Z.to_nat c).
Proof.
  intros [Hpre Hpost] Hr Hc. rewrite Forall_lookup in Hpre, Hpost.
  unfold synapse_at. rewrite !Z2Nat.id; [done|by eapply Hpost|by eapply Hpre].
Qed.

(** Reading the weight matrix back at the synapse positions, as
    [devec] does after a run with STDP, returns for each synapse the
    weight of the last synapse created between the same two neurons.
    When no two synapses connect the same pair this is the list
    [synaptic_weights] itself; a shadowed synapse comes back with the
    weight of the one that shadows it. *)
Theorem weights_read_back (m : NeuromorphicModel) (W : list (list num)) :
  synapse_ids_nonneg m →
  weight_mat m = Ret W →
  ∃ ws,
    mat_gather (length W) W (pre_synaptic_neuron_ids m)
      (post_synaptic_neuron_ids m) = Ret ws
    ∧ length ws = length (synaptic_weights m)
    ∧ (∀ k j p q w, synapse_at m k p q → last_synapse_at m j p q →
         synaptic_weights m !! j = Some w → ws !! k = Some w)
    ∧ (NoDup (zip (pre_synaptic_neuron_ids m) (post_synaptic_neuron_ids m)) →
       ws = synaptic_weights m).
Proof.
  intros Hnn HW.
  pose proof HW as (Hlc & Hlv & Hrows & Hcols)%mat_assign_indices.
  pose proof HW as Hent.
  unfold weight_mat in Hent.
  apply mat_assign_entries in Hent as (Hsh & Hkeep & Hlast);
    [|apply shape_zeros2].
  assert (length W = num_neurons m) as -> by apply Hsh.
  destruct (mat_gather_total _ W _ _ Hsh Hlc Hrows Hcols) as [ws Hws].
  exists ws. split; [done|].
  destruct (mat_gather_entries _ _ _ _ _ Hws) as [Hlen Hread].
  split; [lia|].
  assert (∀ k j p q w, synapse_at m k p q → last_synapse_at m j p q →
            synaptic_weights m !! j = Some w → ws !! k = Some w) as Hback.
  { intros k j p q w [Hr Hc] Hj Hw.
    destruct (Hread _ _ _ Hr Hc) as (p' & q' & v & Hp & Hq & Hv & Hk).
    pose proof (np_index_nonneg _ _ _ (Nat2Z.is_nonneg p) Hp) as Hpp.
    pose proof (np_index_nonneg _ _ _ (Nat2Z.is_nonneg q) Hq) as Hqq.
    apply Nat2Z.inj in Hpp, Hqq. subst p' q'.
    destruct (weight_mat_last_synapse_cases m W Hnn HW) as (_ & _ & Hl).
    rewrite Hk, <- Hv. by eapply Hl. }
  split; [exact Hback|].
  intros Hnd. apply (list_eq_same_length _ _ (length (pre_synaptic_neuron_ids m)));
    [lia|lia|].
  intros k x y Hk Hx Hy.
  destruct (lookup_lt_is_Some_2 (pre_synaptic_neuron_ids m) k) as [r Hr]; [lia|].
  destruct (lookup_lt_is_Some_2 (post_synaptic_neuron_ids m) k) as [c Hc]; [lia|].
  pose proof (synapse_at_lookup m k r c Hnn Hr Hc) as Hat.
  assert (ws !! k = Some y) as Hy'.
  { apply (Hback k k _ _ y Hat); [|done]. split; [done|].
    intros j Hj [Hr' Hc'].
    destruct Hat as [Hr0 Hc0].
    assert (zip (pre_synaptic_neuron_ids m) (post_synaptic_neuron_ids m) !! k
            = Some (Z.of_nat (Z.to_nat r), Z.of_nat (Z.to_nat c))) as Hz1.
    { rewrite lookup_zip_with, Hr0. cbn. by rewrite Hc0. }
    assert (zip (pre_synaptic_neuron_ids m) (post_synaptic_neuron_ids m) !! j
            = Some (Z.of_nat (Z.to_nat r), Z.of_nat (Z.to_nat c))) as Hz2.
    { rewrite lookup_zip_with, Hr'. cbn. by rewrite Hc'. }
    pose proof (NoDup_lookup _ _ _ _ Hnd Hz1 Hz2). lia. }
  congruence.
Qed.

Lemma weights_read_back_witness :
  ∃ W, weight_mat duplicate_pair = Ret W
  ∧ ∃ ws,
    mat_gather (length W) W (pre_synaptic_neuron_ids duplicate_pair)
      (post_synaptic_neuron_ids duplicate_pair) = Ret ws
    ∧ length ws = length (synaptic_weights duplicate_pair)
    ∧ (∀ k j p q w, synapse_at duplicate_pair k p q →
         last_synapse_at duplicate_pair j p q →
         synaptic_weights duplicate_pair !! j = Some w → ws !! k = Some w)
    ∧ (NoDup (zip (pre_synaptic_neuron_ids duplicate_pair)
                (post_synaptic_neuron_ids duplicate_pair)) →
       ws = synaptic_weights duplicate_pair).
Proof.
  eexists. split; [vm_compute; reflexivity|].
  apply (weights_read_back duplicate_pair).
  - split; vm_compute; repeat constructor; discriminate.
  - vm_compute. reflexivity.
Defined.

(** In [duplicate_pair] the first synapse, of weight 1, is read back
    with the weight 5 of the second. *)
Example duplicate_pair_read_back :
  mat_gather 2 [[zero; of_Z 5]; [zero; zero]]
    (pre_synaptic_neuron_ids duplicate_pair)
    (post_synaptic_neuron_ids duplicate_pair) = Ret [of_Z 5; of_Z 5].
Proof. vm_compute. reflexivity. Qed.

(** ** The input matrix *)

Lemma setup_input_spikes_fold (time_steps : nat) (m : NeuromorphicModel) :
  setup_input_spikes time_steps m =
    (do mat <- lift (foldr (schedule_step time_steps (num_neurons m))
                       (Ret (zeros2 zero (S time_steps) (num_neurons m)))
                       (map_to_list (input_spikes m)));
     update_arrays (set_arr_input_spikes mat)) m.
Proof.
  unfold setup_input_spikes, bind at 1, get. cbn [fst snd].
  match goal with
  | |- context [foldr ?f ?x ?l] =>
      rewrite (foldr_ext f (schedule_step time_steps (num_neurons m)) x x l l)
  end; [done| |done..].
  by intros [t d] acc.
Qed.

Lemma write_row_length (n : nat) (row row' : list num) (ids : list Z)
    (amps : list num) :
  write_row n row ids amps = Ret row' → length row' = length row.
Proof.
  revert row amps. induction ids as [|id ids IH]; intros row [|amp amps];
    try (by intros [= <-]).
  cbn. destruct (np_index n id) as [c|e]; [|done]. cbn. intros H.
  apply IH in H. by rewrite length_insert in H.
Qed.

Lemma write_row_raises (n : nat) (row : list num) (ids : list Z)
    (amps : list num) (e : exn) :
  write_row n row ids amps = Raise e → e = IndexError.
Proof.
  revert row amps. induction ids as [|id ids IH]; intros row [|amp amps];
    try done.
  cbn. destruct (np_index n id) as [c|e'] eqn:Hc; cbn.
  - apply IH.
  - intros [= <-]. by eapply np_index_raises.
Qed.

(** Whether the assignments succeed does not depend on the row. *)
Lemma write_row_succeeds (n : nat) (row1 row2 row' : list num) (ids : list Z)
    (amps : list num) :
  write_row n row1 ids amps = Ret row' →
  ∃ row'', write_row n row2 ids amps = Ret row''.
Proof.
  revert row1 row2 amps. induction ids as [|id ids IH];
    intros row1 row2 [|amp amps]; try (by eexists).
  cbn. destruct (np_index n id) as [c|e]; [|done]. cbn. apply IH.
Qed.

Lemma insert_alter_same {A} (f : A → A) (l : list A) (i : nat) (x : A) :
  <[i := x]> (alter f i l) = <[i := x]> l.
Proof.
  apply list_eq. intros j. destruct (decide (i = j)) as [->|Hne].
  - destruct (decide (j < length l)%nat) as [Hlt|Hge].
    + rewrite !list_lookup_insert_eq; [done|done|by rewrite length_alter].
    + rewrite !lookup_ge_None_2; [done|..];
        rewrite ?length_insert, ?length_alter; lia.
  - by rewrite !list_lookup_insert_ne, list_lookup_alter_ne.
Qed.

(** [write_spikes] works on row [r] alone. *)
Lemma write_spikes_row (n : nat) (mat : list (list num)) (r : nat)
    (row : list num) (ids : list Z) (amps : list num) :
  mat !! r = Some row →
  write_spikes n mat r ids amps =
    obind (write_row n row ids amps) (λ row', Ret (<[r := row']> mat)).
Proof.
  revert mat row amps. induction ids as [|id ids IH]; intros mat row [|amp amps] Hr;
    cbn; try (by rewrite list_insert_id).
  destruct (np_index n id) as [c|e]; [|done]. cbn.
  rewrite (IH _ (<[c := amp]> row)).
  - destruct (write_row n _ ids amps) as [row'|e]; [|done]. cbn. f_equal.
    unfold mat_set. apply insert_alter_same.
  - unfold mat_set. rewrite list_lookup_alter_eq, Hr. done.
Qed.

Lemma schedule_step_raises (time_steps n : nat) (l : list (Z * spikes_dict))
    (init : list (list num)) (e : exn) :
  foldr (schedule_step time_steps n) (Ret init) l = Raise e → e = IndexError.
Proof.
  induction l as [|[t d] l IH]; [done|]. cbn [foldr]. unfold schedule_step at 1.
  destruct (foldr _ _ l) as [mat|e'] eqn:Hrec; cbn.
  2:{ intros [= <-]. by apply IH. }
  case_bool_decide; [done|].
  destruct (np_index (S time_steps) t) as [r|e'] eqn:Hr; cbn.
  2:{ intros [= <-]. by eapply np_index_raises. }
  destruct (mat !! r) as [row|] eqn:Hrow.
  - rewrite (write_spikes_row _ _ _ row) by done.
    destruct (write_row n row (nids d) (values d)) as [row'|e'] eqn:Hw; [done|].
    cbn. intros [= <-]. by eapply write_row_raises.
  - clear Hrec IH. revert mat Hrow. generalize (values d).
    induction (nids d) as [|id ids IH]; intros [|amp amps] mat Hrow; try done.
    cbn. destruct (np_index n id) as [c|e'] eqn:Hc; cbn.
    + apply IH. unfold mat_set. by rewrite list_lookup_alter_eq, Hrow.
    + intros [= <-]. by eapply np_index_raises.
Qed.

(** The rows of the matrix the fold builds, for a schedule whose ticks
    are distinct and not negative. *)
Lemma schedule_fold_rows (time_steps n : nat) (l : list (Z * spikes_dict))
    (mat : list (list num)) :
  NoDup l.*1 → Forall (λ kv, 0 ≤ kv.1) l →
  foldr (schedule_step time_steps n) (Ret (zeros2 zero (S time_steps) n)) l
    = Ret mat →
  length mat = S time_steps
  ∧ ∀ t, (t ≤ time_steps)%nat →
      ∃ row, mat !! t = Some row
        ∧ ((∃ d, (Z.of_nat t, d) ∈ l
                 ∧ write_row n (zeros n) (nids d) (values d) = Ret row)
           ∨ ((∀ d, (Z.of_nat t, d) ∉ l) ∧ row = zeros n)).
Proof.
  revert mat. induction l as [|[t0 d0] l IH]; intros mat Hnd Hnn.
  - cbn [foldr]. intros [= <-]. unfold zeros2. rewrite length_replicate. split; [done|].
    intros t Ht. exists (zeros n). rewrite lookup_replicate_2 by lia.
    split; [done|]. right. split; [|done]. intros d Hd. by apply elem_of_nil in Hd.
  - cbn [foldr]. unfold schedule_step at 1.
    destruct (foldr _ _ l) as [mat1|e'] eqn:Hrec; [|done]. cbn [obind fst snd].
    apply NoDup_cons in Hnd as [Hfresh Hnd]. cbn [fmap list_fmap fst] in Hfresh.
    apply Forall_cons in Hnn as [Ht0 Hnn]. cbn [fst] in Ht0.
    destruct (IH mat1 Hnd Hnn eq_refl) as [Hlen Hrows].
    assert (∀ t d, (Z.of_nat t, d) ∈ (t0, d0) :: l →
              (Z.of_nat t = t0 ∧ d = d0) ∨ (Z.of_nat t, d) ∈ l) as Hin.
    { intros t d [[= <- <-]|Hd]%elem_of_cons; auto. }
    assert (∀ d, (t0, d) ∉ l) as Hnot.
    { intros d Hd. apply Hfresh. apply list_elem_of_fmap. by exists (t0, d). }
    case_bool_decide as Hover.
    + intros [= <-]. split; [done|]. intros t Ht.
      destruct (Hrows t Ht) as (row & Hrow & Hcase). exists row. split; [done|].
      destruct Hcase as [(d & Hd & Hw)|[Hno ->]].
      * left. exists d. split; [by apply elem_of_cons; right|done].
      * right. split; [|done]. intros d [[Heq _]|Hd]%Hin; [lia|by eapply Hno].
    + destruct (np_index (S time_steps) t0) as [r|e'] eqn:Hr; [|done].
      cbn [obind]. pose proof (np_index_nonneg _ _ _ Ht0 Hr) as ->.
      apply np_index_lt in Hr.
      destruct (Hrows r ltac:(lia)) as (row & Hrow & Hcase).
      destruct Hcase as [(d & Hd & _)|[_ ->]]; [by destruct (Hnot d)|].
      rewrite (write_spikes_row _ _ _ _ _ _ Hrow).
      destruct (write_row n (zeros n) (nids d0) (values d0)) as [row'|e'] eqn:Hw;
        [|done].
      cbn [obind]. intros [= <-]. rewrite length_insert. split; [done|].
      intros t Ht. destruct (decide (t = r)) as [->|Hne].
      * exists row'. rewrite list_lookup_insert_eq by lia. split; [done|].
        left. exists d0. split; [by apply elem_of_cons; left|done].
      * destruct (Hrows t Ht) as (row & Hrow' & Hcase). exists row.
        rewrite list_lookup_insert_ne by done. split; [done|].
        destruct Hcase as [(d & Hd & Hw')|[Hno ->]].
        -- left. exists d. split; [by apply elem_of_cons; right|done].
        -- right. split; [|done].
           intros d [[Heq _]|Hd]%Hin; [lia|by eapply Hno].
Qed.

(** The fold succeeds when every entry up to [time_steps] has its ids
    in range. *)
Lemma schedule_fold_succeeds (time_steps n : nat) (l : list (Z * spikes_dict)) :
  NoDup l.*1 → Forall (λ kv, 0 ≤ kv.1) l →
  (∀ t d, (Z.of_nat t, d) ∈ l → (t ≤ time_steps)%nat →
     ∃ row, write_row n (zeros n) (nids d) (values d) = Ret row) →
  ∃ mat,
    foldr (schedule_step time_steps n) (Ret (zeros2 zero (S time_steps) n)) l
      = Ret mat.
Proof.
  induction l as [|[t0 d0] l IH]; intros Hnd Hnn Hok; [by eexists|].
  pose proof Hnd as Hnd0. pose proof Hnn as Hnn0.
  apply NoDup_cons in Hnd as [Hfresh Hnd].
  apply Forall_cons in Hnn as [Ht0 Hnn]. cbn [fst] in Ht0.
  destruct (IH Hnd Hnn) as [mat1 Hrec].
  { intros t d Hd. apply Hok. by apply elem_of_cons; right. }
  cbn [foldr]. unfold schedule_step at 1. rewrite Hrec. cbn [obind fst snd].
  case_bool_decide as Hover; [by eexists|].
  destruct (schedule_fold_rows _ _ _ _ Hnd Hnn Hrec) as [Hlen Hrows].
  rewrite <- (Z2Nat.id t0) by done. rewrite np_index_nat by lia. cbn [obind].
  destruct (Hrows (Z.to_nat t0) ltac:(lia)) as (row & Hrow & _).
  rewrite (write_spikes_row _ _ _ _ _ _ Hrow).
  destruct (Hok (Z.to_nat t0) d0) as [row0 Hw0].
  { rewrite Z2Nat.id by done. by apply elem_of_cons; left. }
  { lia. }
  destruct (write_row_succeeds _ _ row _ _ _ Hw0) as [row' ->]. by eexists.
Qed.

Lemma write_row_app (n : nat) (row : list num) (ids1 ids2 : list Z)
    (amps1 amps2 : list num) :
  length ids1 = length amps1 →
  write_row n row (ids1 ++ ids2) (amps1 ++ amps2) =
    obind (write_row n row ids1 amps1) (λ row1, write_row n row1 ids2 amps2).
Proof.
  revert row amps1. induction ids1 as [|id ids1 IH]; intros row [|amp amps1];
    try done.
  cbn. intros [= Hlen]. destruct (np_index n id) as [c|e]; [|done]. cbn.
  by apply IH.
Qed.

(** The rows of the matrix [setup_input_spikes] leaves. *)
Lemma setup_input_spikes_rows (time_steps : nat) (m m' : NeuromorphicModel) :
  schedule_ok m →
  setup_input_spikes time_steps m = (Ret tt, m') →
  ∃ a mat,
    _arrays m = Some a
    ∧ m' = set_arrays (Some (set_arr_input_spikes mat a)) m
    ∧ length mat = S time_steps
    ∧ ∀ t, (t ≤ time_steps)%nat →
        ∃ row, mat !! t = Some row
               ∧ input_row (num_neurons m) (input_spikes m !! Z.of_nat t) = Ret row.
Proof.
  intros Hok. rewrite setup_input_spikes_fold. intros H.
  monad_step H. unfold update_arrays in H. monad_step H.
  unfold arrays in Hc0. monad_step Hc0.
  destruct (_arrays m) as [a|] eqn:Ha; [|done]. monad_head Hc0. monad_head H.
  exists a, x. split; [done|]. split; [done|].
  symmetry in Hc.
  apply schedule_fold_rows in Hc as [Hlen Hrows].
  - split; [done|]. intros t Ht.
    destruct (Hrows t Ht) as (row & Hrow & Hcase). exists row. split; [done|].
    destruct Hcase as [(d & Hd & Hw)|[Hno ->]].
    + apply elem_of_map_to_list in Hd. by rewrite Hd.
    + destruct (input_spikes m !! Z.of_nat t) as [d|] eqn:Hd; [|done].
      apply elem_of_map_to_list in Hd. by destruct (Hno d).
  - apply NoDup_fst_map_to_list.
  - apply Forall_forall. intros [t d] Hd%elem_of_map_to_list.
    by apply Hok in Hd as [? _].
Qed.

(** ** [add_spike] *)

Lemma add_spike_cases (time : pyval) (neuron_id : neuron_arg) (value : pyval)
    (m : NeuromorphicModel) o m' :
  add_spike time neuron_id value m = (o, m') →
  (∃ e, o = Raise e ∧ m' = m)
  ∨ (∃ t i v,
       py_int time = Ret t ∧ py_int (neuron_arg_value neuron_id) = Ret i
       ∧ py_float value = Ret v ∧ 0 ≤ t ∧ 0 ≤ i
       ∧ o = Ret tt ∧ m' = spike_added t i v m).
Proof.
  unfold add_spike. intros H.
  do 10 (monad_step H; [|by left; eauto]). monad_step H.
  apply bool_decide_eq_false in Hc6, Hc7.
  right. exists x0, x2, x3. split_and!; try done; try lia.
  - unfold spike_added. destruct (input_spikes m !! x0); by monad_head H.
  - unfold spike_added. destruct (input_spikes m !! x0); by monad_head H.
Qed.

Lemma spike_added_schedule_ok (t i : Z) (v : num) (m : NeuromorphicModel) :
  schedule_ok m → 0 ≤ t → schedule_ok (spike_added t i v m).
Proof.
  intros Hok Ht t' d'. unfold spike_added. cbn.
  destruct (decide (t = t')) as [<-|Hne].
  - rewrite lookup_insert_eq. intros [= <-]. split; [done|].
    cbn [nids values]. rewrite !length_app. cbn [length].
    destruct (input_spikes m !! t) as [d|] eqn:Hd; simpl; [|done].
    apply Hok in Hd as [_ Hd]. lia.
  - rewrite lookup_insert_ne by done. apply Hok.
Qed.

(** An input spike added for a tick and a neuron that already have one
    replaces it in the run: [setup_input_spikes] assigns the amplitudes
    of a tick in the order of the calls, so the matrix holds the
    amplitude of the last call, not the sum.  With [t] the tick, [i]
    the neuron and [v] the amplitude of a call of [add_spike] that
    returns, a following [setup_input_spikes] over [time_steps >= t]
    that returns leaves [v] at row [t], column [i]. *)
Theorem add_spike_overrides_earlier_spike (time : pyval)
    (neuron_id : neuron_arg) (value : pyval) (t i : Z) (v : num)
    (time_steps : nat) (m m1 m2 : NeuromorphicModel) :
  schedule_ok m →
  add_spike time neuron_id value m = (Ret tt, m1) →
  py_int time = Ret t →
  py_int (neuron_arg_value neuron_id) = Ret i →
  py_float value = Ret v →
  t ≤ Z.of_nat time_steps →
  setup_input_spikes time_steps m1 = (Ret tt, m2) →
  ∃ a, _arrays m2 = Some a
       ∧ entry (_input_spikes a) (Z.to_nat t) (Z.to_nat i) = Some v.
Proof.
  intros Hok Hadd Ht Hi Hv Hle Hsetup.
  apply add_spike_cases in Hadd
    as [(e & [=] & _)|(t' & i' & v' & Ht' & Hi' & Hv' & Ht0 & Hi0 & _ & ->)].
  assert (t' = t) as -> by congruence. assert (i' = i) as -> by congruence.
  assert (v' = v) as -> by congruence.
  apply setup_input_spikes_rows in Hsetup
    as (a & mat & Ha & -> & Hlen & Hrows); [|by apply spike_added_schedule_ok].
  eexists. split; [reflexivity|]. cbn [_input_spikes set_arr_input_spikes].
  destruct (Hrows (Z.to_nat t) ltac:(lia)) as (row & Hrow & Hin).
  unfold entry. rewrite Hrow. cbn.
  revert Hin. rewrite Z2Nat.id by done. unfold spike_added. cbn [input_spikes set_input_spikes].
  rewrite lookup_insert_eq. cbn [input_row nids values].
  change (num_neurons (set_input_spikes _ m)) with (num_neurons m).
  set (d := default _ _).
  assert (length (nids d) = length (values d)) as Hlen'.
  { subst d. destruct (input_spikes m !! t) as [d|] eqn:Hd; simpl; [|done].
    by apply Hok in Hd as [_ Hd]. }
  rewrite write_row_app by done.
  destruct (write_row (num_neurons m) (zeros (num_neurons m)) (nids d) (values d))
    as [row1|e] eqn:Hw1; [|done]. cbn [obind write_row].
  destruct (np_index (num_neurons m) i) as [c|e] eqn:Hc; [|done]. cbn [obind].
  intros [= <-]. pose proof (np_index_nonneg _ _ _ Hi0 Hc) as ->.
  rewrite Nat2Z.id. apply list_lookup_insert_eq.
  apply write_row_length in Hw1. rewrite Hw1. unfold zeros.
  rewrite length_replicate. by eapply np_index_lt.
Qed.

Lemma schedule_ok_empty (m : NeuromorphicModel) :
  input_spikes m = ∅ → schedule_ok m.
Proof. intros He t d. by rewrite He, lookup_empty. Qed.

Lemma schedule_ok_ext (m m' : NeuromorphicModel) :
  input_spikes m' = input_spikes m → schedule_ok m → schedule_ok m'.
Proof. intros He Hok t d. rewrite He. apply Hok. Qed.

Lemma add_spike_overrides_earlier_spike_witness :
  let m := after _setup twice_at_tick_one in
  let m1 := after (add_spike (PInt 1) (ByHandle 0) (PInt 4)) m in
  let m2 := after (setup_input_spikes 2) m1 in
  input_spikes m !! 1 = Some (SpikesDict [0] [of_Z 3])
  ∧ ∃ a, _arrays m2 = Some a
         ∧ entry (_input_spikes a) (Z.to_nat 1) (Z.to_nat 0) = Some (of_Z 4).
Proof.
  intros m m1 m2. split; [by vm_compute|].
  apply (add_spike_overrides_earlier_spike (PInt 1) (ByHandle 0) (PInt 4)
           1 0 (of_Z 4) 2 m m1 m2).
  - apply (schedule_ok_ext (spike_added 1 0 (of_Z 3) two_neurons));
      [by vm_compute|].
    apply spike_added_schedule_ok; [|lia]. by apply schedule_ok_empty.
  - by vm_compute.
  - reflexivity.
  - reflexivity.
  - reflexivity.
  - lia.
  - by vm_compute.
Defined.

(** ** The leak *)

Lemma Qc_sub_le (s q : Qc) : (0 ≤ q)%Qc → (s - q ≤ s)%Qc.
Proof.
  intros Hq. unfold Qcminus. rewrite <- (Qcplus_0_r s) at 2.
  apply Qcplus_le_compat; [apply Qcle_refl|].
  apply Qcopp_le_compat in Hq. by rewrite Qcopp_involutive in Hq || exact Hq.
Qed.

Lemma Qc_add_le (s q : Qc) : (0 ≤ q)%Qc → (s ≤ s + q)%Qc.
Proof.
  intros Hq. rewrite <- (Qcplus_0_r s) at 1.
  apply Qcplus_le_compat; [apply Qcle_refl|done].
Qed.

Lemma Qclt_irr (x : Qc) : ¬ (x < x)%Qc.
Proof. intros H. apply Qclt_not_le in H. apply H, Qcle_refl. Qed.

Lemma Qc_sub_0 (s : Qc) : (s + - Qc_of_Z 0)%Qc = s.
Proof.
  rewrite Z2Qc_inj_0. replace (- 0)%Qc with 0%Qc by by apply Qc_is_canon.
  apply Qcplus_0_r.
Qed.

Lemma Qc_add_0 (s : Qc) : (s + Qc_of_Z 0)%Qc = s.
Proof. rewrite Z2Qc_inj_0. apply Qcplus_0_r. Qed.

Lemma ltb_Fin (x y : Qc) : Num.ltb (Fin x) (Fin y) = bool_decide (x < y)%Qc.
Proof. reflexivity. Qed.

(** The leak of one neuron with finite state and reset state: the
    state moves toward the reset state by the leak and stops there. *)
Lemma leak_step_between (s r : Qc) (l : num) :
  valid_leak l →
  ∃ s' : Qc,
    leak_step (Fin s) (Fin r) l = Fin s'
    ∧ ((r ≤ s)%Qc → (r ≤ s')%Qc ∧ (s' ≤ s)%Qc)
    ∧ ((s ≤ r)%Qc → (s ≤ s')%Qc ∧ (s' ≤ r)%Qc)
    ∧ (l = zero → s' = s)
    ∧ (l = PInf → s' = r).
Proof.
  intros Hl. destruct l as [q| | |]; try done.
  2:{ exists r. rewrite leak_step_inf.
      split; [done|]. split; [|split; [|split; [done|done]]];
        intros ?; split; first [apply Qcle_refl|done]. }
  cbn in Hl. unfold leak_step, Num.gtb. rewrite ltb_Fin.
  case_bool_decide as Hgt.
  - (* above the reset state *)
    cbn [Num.sub Num.neg Num.add Num.maximum]. rewrite ltb_Fin.
    case_bool_decide as Hcross.
    + exists r. rewrite ltb_Fin, bool_decide_eq_false_2 by apply Qclt_irr.
      split; [done|]. split; [|split; [|split; [|done]]].
      * intros _. split; [apply Qcle_refl|by apply Qclt_le_weak].
      * intros Hsr. by destruct (Qclt_not_le _ _ Hgt).
      * intros [= ->]. exfalso. apply (Qclt_irr r).
        eapply Qclt_trans; [exact Hgt|]. revert Hcross.
        by rewrite Qc_sub_0.
    + exists (s + - q)%Qc. apply Qcnot_lt_le in Hcross.
      rewrite ltb_Fin, bool_decide_eq_false_2 by by apply Qcle_not_lt.
      split; [done|]. split; [|split; [|split; [|done]]].
      * intros _. split; [done|by apply Qc_sub_le].
      * intros Hsr. by destruct (Qclt_not_le _ _ Hgt).
      * intros [= ->]. apply Qc_sub_0.
  - rewrite ltb_Fin. case_bool_decide as Hlt.
    + (* below the reset state *)
      cbn [Num.add Num.minimum]. rewrite ltb_Fin.
      case_bool_decide as Hcross.
      * exists r. split; [done|]. split; [|split; [|split; [|done]]].
        -- intros Hrs. by destruct (Qclt_not_le _ _ Hlt).
        -- intros _. split; [by apply Qclt_le_weak|apply Qcle_refl].
        -- intros [= ->]. exfalso. apply (Qclt_irr r).
           eapply Qclt_trans; [|exact Hlt]. revert Hcross.
           by rewrite Qc_add_0.
      * exists (s + q)%Qc. apply Qcnot_lt_le in Hcross.
        split; [done|]. split; [|split; [|split; [|done]]].
        -- intros Hrs. by destruct (Qclt_not_le _ _ Hlt).
        -- intros _. split; [by apply Qc_add_le|done].
        -- intros [= ->]. apply Qc_add_0.
    + (* at the reset state *)
      exists s. apply Qcnot_lt_le in Hgt, Hlt.
      assert (s = r) as -> by by apply Qcle_antisym.
      split; [done|]. split; [|split; [|split; [done|done]]];
        intros _; split; apply Qcle_refl.
Qed.

(** The leak stage of a tick, in the reference backend and in
    [apply_leak_jit], for a neuron with finite state [s] and reset
    state [r] and a leak that is not negative: the state moves toward
    the reset state and does not pass it; a zero leak keeps the state,
    an infinite leak puts it on the reset state. *)
Theorem leak_moves_toward_reset (a : Arrays) (i : nat) (s r : Qc) (l : num) :
  _internal_states a !! i = Some (Fin s) →
  _neuron_reset_states a !! i = Some (Fin r) →
  _neuron_leaks a !! i = Some l →
  valid_leak l →
  ∃ s' : Qc,
    leak_cpu a !! i = Some (Fin s')
    ∧ apply_leak_jit (_internal_states a) (_neuron_reset_states a)
        (_neuron_leaks a) !! i = Some (Fin s')
    ∧ ((r ≤ s)%Qc → (r ≤ s')%Qc ∧ (s' ≤ s)%Qc)
    ∧ ((s ≤ r)%Qc → (s ≤ s')%Qc ∧ (s' ≤ r)%Qc)
    ∧ (l = zero → s' = s)
    ∧ (l = PInf → s' = r).
Proof.
  intros Hs Hr Hl Hvalid.
  destruct (leak_step_between s r l Hvalid) as (s' & Hstep & Hrest).
  exists s'. rewrite <- Hstep.
  split; [by apply lookup_leak_cpu|]. split; [|done].
  by apply (lookup_leak_cpu a).
Qed.

Lemma leak_moves_toward_reset_witness :
  ∃ a, _arrays leaky_neuron = Some a
  ∧ ∃ s' : Qc,
    leak_cpu a !! 0%nat = Some (Fin s')
    ∧ apply_leak_jit (_internal_states a) (_neuron_reset_states a)
        (_neuron_leaks a) !! 0%nat = Some (Fin s')
    ∧ ((Qc_of_Z 0 ≤ Qc_of_Z 3)%Qc → (Qc_of_Z 0 ≤ s')%Qc ∧ (s' ≤ Qc_of_Z 3)%Qc)
    ∧ ((Qc_of_Z 3 ≤ Qc_of_Z 0)%Qc → (Qc_of_Z 3 ≤ s')%Qc ∧ (s' ≤ Qc_of_Z 0)%Qc)
    ∧ (one = zero → s' = Qc_of_Z 3)
    ∧ (one = PInf → s' = Qc_of_Z 0).
Proof.
  eexists. split; [vm_compute; reflexivity|].
  apply (leak_moves_toward_reset _ 0 (Qc_of_Z 3) (Qc_of_Z 0) one).
  - reflexivity.
  - reflexivity.
  - reflexivity.
  - by vm_compute.
Defined.

Lemma Fin_canon (q q' : Qc) : this q = this q' → Fin q = Fin q'.
Proof. intros H. f_equal. apply Qc_is_canon. by rewrite H. Qed.

(** In [leaky_neuron] the state 3 leaks to 2. *)
Example leaky_neuron_leak :
  ∃ a, _arrays leaky_neuron = Some a ∧ leak_cpu a = [of_Z 2].
Proof.
  eexists. split; [vm_compute; reflexivity|].
  vm_compute. f_equal. by apply Fin_canon.
Qed.

(** ** The refractory period over several ticks *)

Lemma py_item_nat_inv {A} (l : list A) (i : nat) (x : A) :
  py_item l (Z.of_nat i) = Ret x → l !! i = Some x.
Proof.
  unfold py_item. destruct (np_index (length l) (Z.of_nat i)) as [k|e] eqn:Hk;
    [|done].
  apply np_index_nonneg in Hk; [|lia]. apply Nat2Z.inj in Hk as <-. cbn.
  destruct (l !! i); [by intros [= ->]|done].
Qed.

Lemma lif_cpu_ticks_refractory (k tick : nat) (a a' : Arrays) (i : nat)
    (th l r s : num) (zp zc : Z) :
  neuron_view a i th l r (of_Z zp) s (of_Z zc) →
  Forall (λ row : list num, (i < length row)%nat) (_input_spikes a) →
  0 ≤ zp → Z.of_nat k ≤ zc →
  lif_cpu_ticks k tick a = Ret a' →
  _neuron_refractory_periods a' !! i = Some (of_Z (zc - Z.of_nat k))
  ∧ ((0 < k)%nat → _spikes a' !! i = Some 0).
Proof.
  revert tick a s zc. induction k as [|k IH]; intros tick a s zc Hview Hin Hzp Hk.
  - intros [= <-]. split; [|lia]. rewrite Z.sub_0_r. apply Hview.
  - cbn [lif_cpu_ticks].
    destruct (py_item (_input_spikes a) (Z.of_nat tick)) as [input|e] eqn:Hrow;
      [|done].
    cbn [obind]. intros Hrun. apply py_item_nat_inv in Hrow.
    rewrite Forall_lookup in Hin.
    destruct (lookup_lt_is_Some_2 input i (Hin _ _ Hrow)) as [x Hx].
    destruct (lif_cpu_neuron a input i _ _ _ _ _ _ x Hview Hx) as (Hs' & Hc' & Hsp').
    destruct (neuron_step_refractory th l r x
                (contribution (_weights a) (_spikes a) i) s zc zp
                ltac:(lia) Hzp) as (zc' & Heq & _ & Hdec & _ & _).
    destruct Hdec as [Hsilent ->]; [lia|].
    rewrite Heq in Hc'. rewrite Hsilent in Hsp'.
    assert (neuron_view (lif_cpu input a) i th l r (of_Z zp)
              (t_state (neuron_step th l r (of_Z zp) x
                          (contribution (_weights a) (_spikes a) i) s (of_Z zc)))
              (of_Z (zc - 1))) as Hview'.
    { destruct Hview. by split. }
    destruct (IH (S tick) _ _ _ Hview') as [Hcount Hspike]; [| |lia| |].
    + by apply Forall_lookup.
    + done.
    + exact Hrun.
    + split.
      * rewrite Hcount. do 2 f_equal. lia.
      * intros _. destruct k as [|k]; [|apply Hspike; lia].
        cbn in Hrun. by injection Hrun as <-.
Qed.


(** ** Views a method preserves *)

Section Preserves.

Context {X : Type} (f : NeuromorphicModel → X).

Lemma preserves_ret {A} (a : A) : preserves f (ret a).
Proof. done. Qed.

Lemma preserves_raise {A} (e : exn) : preserves f (raise (A := A) e).
Proof. done. Qed.

Lemma preserves_lift {A} (o : outcome A) : preserves f (lift o).
Proof. done. Qed.

Lemma preserves_gets {A} (g : NeuromorphicModel → A) : preserves f (gets g).
Proof. done. Qed.

Lemma preserves_get : preserves f get.
Proof. done. Qed.

Lemma preserves_raise_if b e : preserves f (raise_if b e).
Proof. by destruct b. Qed.

Lemma preserves_modify g : (∀ m, f (g m) = f m) → preserves f (modify g).
Proof. intros Hg m. apply Hg. Qed.

Lemma preserves_bind {A B} (c : M A) (k : A → M B) :
  preserves f c → (∀ a, preserves f (k a)) → preserves f (bind c k).
Proof.
  intros Hc Hk m. unfold bind. specialize (Hc m).
  destruct (c m) as [[a|e] m']; simpl in *; [|done].
  by rewrite Hk.
Qed.

Lemma preserves_if {A} (b : bool) (c1 c2 : M A) :
  preserves f c1 → preserves f c2 → preserves f (if b then c1 else c2).
Proof. by destruct b. Qed.

Lemma preserves_for_range {A} (n : nat) (body : A → M A) (a : A) :
  (∀ a, preserves f (body a)) → preserves f (for_range n body a).
Proof.
  intros Hbody. revert a. induction n as [|n IH]; intros a; cbn [for_range].
  - apply preserves_ret.
  - apply preserves_bind; [apply Hbody|apply IH].
Qed.

Lemma preserves_arrays : preserves f arrays.
Proof.
  unfold arrays. apply preserves_bind; [apply preserves_gets|].
  intros [a|]; [apply preserves_ret|apply preserves_raise].
Qed.

End Preserves.

(** One step of a proof that a method preserves a view; an assignment
    is checked by computation. *)
Ltac preserves_step :=
  first
    [ apply preserves_ret | apply preserves_raise | apply preserves_lift
    | apply preserves_gets | apply preserves_get | apply preserves_raise_if
    | apply preserves_arrays
    | apply preserves_modify; intros ?; reflexivity
    | apply preserves_if
    | apply preserves_bind; [|intros ?] ].

Lemma preserves_network_cpu_tick (time_steps tick : nat) :
  preserves network (cpu_tick time_steps None tick).
Proof.
  unfold cpu_tick, run_callback, stdp_time_steps, update_arrays.
  repeat preserves_step.
Qed.

(** The reference backend never changes the network: the parameters of
    the neurons, the endpoints, delays and STDP flags of the synapses,
    the STDP kernels and switches and the backend settings are after
    the call what they were before it, whether the run returns or
    raises.  What a run writes is the state of the neurons, their
    refractory counters, the weights, the spike train and the schedule. *)
Theorem simulate_cpu_keeps_network (time_steps : nat) (m : NeuromorphicModel) :
  network (simulate_cpu time_steps None m).2 = network m.
Proof.
  revert m. change (preserves network (simulate_cpu time_steps None)).
  unfold simulate_cpu, _setup, setup_input_spikes, devec, consume_input_spikes,
    update_arrays.
  repeat first
    [ apply preserves_for_range; intros ?; apply preserves_network_cpu_tick
    | preserves_step ].
Qed.

(** ** The loop of the reference backend *)

Lemma stdp_time_steps_cases (m : NeuromorphicModel) o m' :
  stdp_time_steps m = (o, m') →
  m' = m
  ∧ ((o = Ret (stdp_window m) ∧ kernels_consistent m)
     ∨ (o = Raise AssertionError ∧ ¬ kernels_consistent m)).
Proof.
  unfold stdp_time_steps, stdp_window, kernels_consistent, bind, gets, raise_if.
  cbn [fst snd].
  destruct (stdp_positive_update m), (stdp_negative_update m); cbn [andb negb];
    try (intros [= <- <-]; split; [done|]; left; by split).
  case_bool_decide as Hlen; cbn [negb].
  - intros [= <- <-]. split; [done|]. left. by split.
  - intros [= <- <-]. split; [done|]. right. split; [done|]. intros H. by apply Hlen, H.
Qed.

(** One pass through the loop, for arrays that are set up and an input
    matrix that has the row of the tick. *)
Lemma cpu_tick_unfold (time_steps tick : nat) (m : NeuromorphicModel)
    (a : Arrays) (input : list num) :
  _arrays m = Some a →
  _input_spikes a !! tick = Some input →
  kernels_consistent m →
  let a' := lif_cpu input a in
  let t := (stdp_window m `min` length (spike_train m))%nat in
  cpu_tick time_steps None tick m =
    if _do_stdp a && bool_decide (0 < t)%nat then
      match stdp_cpu (num_neurons m) t (spike_train m ++ [_spikes a'])
              (_stdp_Apos m) (_stdp_Aneg m) a' with
      | Ret w => (Ret (S tick), logged (set_arr_weights w a') m)
      | Raise e => (Raise e, logged a' m)
      end
    else (Ret (S tick), logged a' m).
Proof.
  intros Ha Hin Hk a' t.
  unfold cpu_tick, run_callback, arrays.
  unfold bind, modify, get, gets, lift, ret. cbn [fst snd]. rewrite Ha.
  cbn [fst snd _arrays set_arrays _input_spikes set_arr_internal_states].
  rewrite (py_item_nat _ _ _ Hin). cbn [fst snd]. fold a'.
  rewrite stdp_time_steps_window by exact Hk.
  change (stdp_window _) with (stdp_window m).
  change (spike_train (append_spike_train _ _)) with (spike_train m ++ [_spikes a']).
  change (num_neurons (append_spike_train _ _)) with (num_neurons m).
  change (_stdp_Apos (append_spike_train _ _)) with (_stdp_Apos m).
  change (_stdp_Aneg (append_spike_train _ _)) with (_stdp_Aneg m).
  change (_do_stdp a') with (_do_stdp a).
  rewrite length_app. cbn [length].
  replace (length (spike_train m) + 1 - 1)%nat with (length (spike_train m)) by lia.
  fold t.
  destruct (_do_stdp a && bool_decide (0 < t)%nat); [|reflexivity].
  destruct (stdp_cpu _ _ _ _ _ _) as [w|e]; reflexivity.
Qed.

(** A pass that returns. *)
Lemma cpu_tick_ret_inv (time_steps tick tick' : nat) (m m' : NeuromorphicModel) :
  cpu_tick time_steps None tick m = (Ret tick', m') →
  ∃ a input,
    _arrays m = Some a
    ∧ _input_spikes a !! tick = Some input
    ∧ kernels_consistent m
    ∧ tick' = S tick
    ∧ (m' = logged (lif_cpu input a) m
       ∨ ∃ w, _do_stdp a = true
              ∧ m' = logged (set_arr_weights w (lif_cpu input a)) m).
Proof.
  intros H. pose proof H as H0. unfold cpu_tick, run_callback in H0.
  monad_step H0. monad_step H0. unfold arrays in Hc. monad_step Hc.
  destruct (_arrays m) as [a|] eqn:Ha; [|done]. monad_head Hc.
  monad_step H0. monad_step H0. symmetry in Hc. apply py_item_nat_inv in Hc.
  do 2 monad_step H0. monad_step H0.
  apply stdp_time_steps_cases in Hc0 as [_ [[_ Hk]|[[=] _]]].
  clear H0. change (kernels_consistent m) in Hk.
  exists a, x. split; [done|]. split; [done|]. split; [done|].
  rewrite (cpu_tick_unfold _ _ _ _ _ Ha Hc Hk) in H.
  destruct (_do_stdp a) eqn:Hdo; cbn [andb] in H.
  - case_bool_decide.
    + destruct (stdp_cpu _ _ _ _ _ _) as [w|e]; [|done].
      injection H as <- <-. split; [done|]. right. by exists w.
    + injection H as <- <-. split; [done|]. by left.
  - injection H as <- <-. split; [done|]. by left.
Qed.

Lemma preserves_manual_setup_cpu_loop (time_steps n tick : nat) :
  preserves manual_setup (for_range n (cpu_tick time_steps None) tick).
Proof.
  apply preserves_for_range. intros t.
  unfold cpu_tick, run_callback, stdp_time_steps, update_arrays.
  repeat preserves_step.
Qed.

(** The three parts of a call of [simulate_cpu] that returns. *)
Lemma simulate_cpu_ret_inv (time_steps : nat) (m m' : NeuromorphicModel) :
  simulate_cpu time_steps None m = (Ret tt, m') →
  ∃ m0 m1 tick,
    (if manual_setup m then m0 = set_last_used_backend (Some "cpu") m
     else (do_ _setup; setup_input_spikes time_steps)
            (set_last_used_backend (Some "cpu") m) = (Ret tt, m0))
    ∧ for_range time_steps (cpu_tick time_steps None) 0%nat m0 = (Ret tick, m1)
    ∧ manual_setup m1 = manual_setup m
    ∧ (if manual_setup m then m' = m1
       else (do_ devec; consume_input_spikes time_steps) m1 = (Ret tt, m')).
Proof.
  unfold simulate_cpu. intros H.
  monad_step H. monad_step H. cbn [manual_setup set_last_used_backend] in H.
  monad_step H. monad_step H. monad_step H.
  pose proof (preserves_manual_setup_cpu_loop time_steps time_steps 0 x0) as Hman.
  rewrite Hc0 in Hman. cbn [snd] in Hman.
  exists x0, x2, x1. destruct (manual_setup m) eqn:Hm; cbn [negb] in *.
  - monad_head Hc. cbn [manual_setup set_last_used_backend] in Hman.
    rewrite Hman, Hm in H. cbn [negb] in H. monad_head H.
    split_and!; try done; congruence.
  - assert (manual_setup x0 = false) as Hx.
    { assert (preserves manual_setup (do_ _setup; setup_input_spikes time_steps))
        as Hp.
      { unfold _setup, setup_input_spikes, update_arrays. repeat preserves_step. }
      specialize (Hp (set_last_used_backend (Some "cpu") m)).
      rewrite Hc in Hp. cbn [snd] in Hp. by rewrite Hp. }
    rewrite Hman, Hx in H. cbn [negb] in H. destruct x.
    split_and!; try done; congruence.
Qed.

Lemma cpu_loop_train (time_steps k tick tick' : nat) (m m' : NeuromorphicModel) :
  for_range k (cpu_tick time_steps None) tick m = (Ret tick', m') →
  ∃ rows, spike_train m' = spike_train m ++ rows ∧ length rows = k.
Proof.
  revert tick m. induction k as [|k IH]; intros tick m; cbn [for_range].
  - intros [= <- <-]. exists []. by rewrite app_nil_r.
  - intros H. monad_step H.
    apply cpu_tick_ret_inv in Hc
      as (a & input & Ha & Hin & Hk & -> & Hm).
    apply IH in H as (rows & Hrows & Hlen).
    assert (∃ row, spike_train x0 = spike_train m ++ [row]) as [row Hrow].
    { destruct Hm as [->|(w & _ & ->)]; by eexists. }
    exists (row :: rows). rewrite Hrows, Hrow, <- app_assoc. split; [done|].
    cbn. lia.
Qed.

(** A run of [simulate_cpu] that returns has logged one spike vector
    per tick, after the ones that were logged before: the spike train
    is never truncated, and its earlier rows are never rewritten. *)
Theorem simulate_cpu_logs_every_tick (time_steps : nat)
    (m m' : NeuromorphicModel) :
  simulate_cpu time_steps None m = (Ret tt, m') →
  ∃ rows, spike_train m' = spike_train m ++ rows ∧ length rows = time_steps.
Proof.
  intros H. apply simulate_cpu_ret_inv in H as (m0 & m1 & tick & Hpre & Hloop & _ & Hpost).
  apply cpu_loop_train in Hloop as (rows & Hrows & Hlen).
  exists rows. split; [|done].
  assert (spike_train m0 = spike_train m) as Hm0.
  { destruct (manual_setup m); [by subst|].
    assert (preserves spike_train (do_ _setup; setup_input_spikes time_steps))
      as Hp.
    { unfold _setup, setup_input_spikes, update_arrays. repeat preserves_step. }
    specialize (Hp (set_last_used_backend (Some "cpu") m)).
    by rewrite Hpre in Hp. }
  assert (spike_train m' = spike_train m1) as Hm'.
  { destruct (manual_setup m); [by subst|].
    assert (preserves spike_train (do_ devec; consume_input_spikes time_steps))
      as Hp.
    { unfold devec, consume_input_spikes. repeat preserves_step. }
    specialize (Hp m1). by rewrite Hpost in Hp. }
  by rewrite Hm', Hrows, Hm0.
Qed.

Lemma simulate_cpu_logs_every_tick_witness :
  ∃ rows,
    spike_train (after (simulate_cpu 10 None) refractory_model)
      = spike_train refractory_model ++ rows
    ∧ length rows = 10%nat.
Proof.
  apply (simulate_cpu_logs_every_tick 10 refractory_model).
  vm_compute. reflexivity.
Defined.

(** ** Runs without STDP *)

Lemma cpu_tick_without_stdp (time_steps tick tick' : nat)
    (m m' : NeuromorphicModel) (a : Arrays) :
  _arrays m = Some a → _do_stdp a = false →
  cpu_tick time_steps None tick m = (Ret tick', m') →
  ∃ input, _input_spikes a !! tick = Some input
           ∧ tick' = S tick ∧ m' = logged (lif_cpu input a) m.
Proof.
  intros Ha Hdo H.
  apply cpu_tick_ret_inv in H as (a0 & input & Ha0 & Hin & _ & -> & Hm).
  assert (a0 = a) as -> by congruence.
  exists input. split; [done|]. split; [done|].
  destruct Hm as [->|(w & Hw & _)]; [done|congruence].
Qed.

(** Without STDP the loop of [simulate_cpu] is the iteration of the
    tick on the dense arrays. *)
Lemma cpu_loop_without_stdp (time_steps k tick tick' : nat)
    (m m' : NeuromorphicModel) (a : Arrays) :
  _arrays m = Some a → _do_stdp a = false →
  for_range k (cpu_tick time_steps None) tick m = (Ret tick', m') →
  ∃ a', lif_cpu_ticks k tick a = Ret a'
        ∧ _arrays m' = Some a'
        ∧ _do_stdp a' = false
        ∧ _weights a' = _weights a
        ∧ ((0 < k)%nat → last (spike_train m') = Some (_spikes a')).
Proof.
  revert tick m a. induction k as [|k IH]; intros tick m a Ha Hdo;
    cbn [for_range lif_cpu_ticks].
  - intros [= <- <-]. exists a. split_and!; try done. lia.
  - intros H. monad_step H.
    destruct (cpu_tick_without_stdp _ _ _ _ _ _ Ha Hdo Hc) as (input & Hin & -> & ->).
    rewrite (py_item_nat _ _ _ Hin). cbn [obind].
    destruct (IH (S tick) (logged (lif_cpu input a) m) (lif_cpu input a)
                eq_refl Hdo H)
      as (a' & Hrun & Ha' & Hdo' & HW & Hlast).
    exists a'. split_and!; try done. intros _.
    destruct k as [|k]; [|apply Hlast; lia].
    cbn in Hrun, H. injection Hrun as <-. injection H as <- <-.
    cbn. by rewrite last_snoc.
Qed.

(** In a run of the reference backend without STDP, a neuron whose
    refractory counter is [zc] at the start of a tick does not spike in
    the next [zc] ticks, whatever its input and the spikes it receives:
    after [k <= zc] passes through the loop, the last logged spike
    vector has 0 for that neuron, and its counter is [zc - k]. *)
Theorem refractory_neuron_silent_in_run (time_steps k tick tick' : nat)
    (m m' : NeuromorphicModel) (a : Arrays) (i : nat) (th l r s : num)
    (zp zc : Z) :
  _arrays m = Some a → _do_stdp a = false →
  neuron_view a i th l r (of_Z zp) s (of_Z zc) →
  Forall (λ row : list num, (i < length row)%nat) (_input_spikes a) →
  0 ≤ zp → (0 < k)%nat → Z.of_nat k ≤ zc →
  for_range k (cpu_tick time_steps None) tick m = (Ret tick', m') →
  ∃ row a',
    last (spike_train m') = Some row ∧ row !! i = Some 0
    ∧ _arrays m' = Some a'
    ∧ _neuron_refractory_periods a' !! i = Some (of_Z (zc - Z.of_nat k)).
Proof.
  intros Ha Hdo Hview Hin Hzp Hk0 Hk Hloop.
  destruct (cpu_loop_without_stdp _ _ _ _ _ _ _ Ha Hdo Hloop)
    as (a' & Hrun & Ha' & _ & _ & Hlast).
  destruct (lif_cpu_ticks_refractory k tick a a' i th l r s zp zc Hview Hin Hzp
              Hk Hrun) as [Hcount Hspike].
  exists (_spikes a'), a'. split_and!; auto.
Qed.

Lemma refractory_neuron_silent_in_run_witness :
  ∃ row a',
    last (spike_train (for_range 2 (cpu_tick 2 None) 0%nat dormant_neuron).2)
      = Some row
    ∧ row !! 0%nat = Some 0
    ∧ _arrays (for_range 2 (cpu_tick 2 None) 0%nat dormant_neuron).2 = Some a'
    ∧ _neuron_refractory_periods a' !! 0%nat = Some (of_Z (2 - Z.of_nat 2)).
Proof.
  refine (refractory_neuron_silent_in_run 2 2 0 2 dormant_neuron _
            (default empty_arrays (_arrays dormant_neuron)) 0 zero PInf zero zero
            2 2 _ _ _ _ _ _ _ _).
  - vm_compute. reflexivity.
  - reflexivity.
  - split; try reflexivity. vm_compute. lia.
  - vm_compute. repeat constructor.
  - lia.
  - lia.
  - lia.
  - vm_compute. reflexivity.
Defined.

Lemma preserves_weights_cpu_loop (time_steps n tick : nat) :
  preserves synaptic_weights (for_range n (cpu_tick time_steps None) tick).
Proof.
  apply preserves_for_range. intros t.
  unfold cpu_tick, run_callback, stdp_time_steps, update_arrays.
  repeat preserves_step.
Qed.

Lemma _setup_do_stdp (m m1 : NeuromorphicModel) :
  _setup m = (Ret tt, m1) →
  ∃ a, _arrays m1 = Some a
       ∧ (stdp m && existsb id (enable_stdp m) = false → _do_stdp a = false).
Proof.
  unfold _setup. intros H. monad_step H. monad_step H.
  monad_step H. monad_head H. eexists. split; [reflexivity|].
  cbn [_do_stdp]. by intros ->.
Qed.

(** When STDP is switched off, or no synapse has it enabled, a run of
    the reference backend leaves [synaptic_weights] as it was, whether
    it returns or raises. *)
Theorem simulate_cpu_without_stdp_keeps_weights (time_steps : nat)
    (m : NeuromorphicModel) :
  manual_setup m = false →
  stdp m && existsb id (enable_stdp m) = false →
  synaptic_weights (simulate_cpu time_steps None m).2 = synaptic_weights m.
Proof.
  intros Hman Hoff. unfold simulate_cpu.
  unfold bind at 1. unfold modify at 1.
  unfold bind at 1. unfold gets at 1. cbn [fst snd manual_setup set_last_used_backend].
  rewrite Hman. cbn [negb]. set (m0 := set_last_used_backend _ m).
  assert (preserves synaptic_weights (do_ _setup; setup_input_spikes time_steps))
    as Hpre.
  { unfold _setup, setup_input_spikes, update_arrays. repeat preserves_step. }
  specialize (Hpre m0). unfold bind at 1.
  destruct ((do_ _setup; setup_input_spikes time_steps) m0) as [[[]|e] m1] eqn:H1;
    [|exact Hpre].
  cbn [snd] in Hpre.
  pose proof (preserves_weights_cpu_loop time_steps time_steps 0 m1) as Hloop.
  pose proof (preserves_manual_setup_cpu_loop time_steps time_steps 0 m1) as Hman1.
  unfold bind at 1.
  destruct (for_range time_steps (cpu_tick time_steps None) 0%nat m1)
    as [[tick|e] m2] eqn:H2; cbn [snd] in Hloop, Hman1;
    [|cbn [snd]; by rewrite Hloop, Hpre].
  monad_step H1. destruct x.
  destruct (_setup_do_stdp _ _ Hc) as (a & Ha & Hdo). specialize (Hdo Hoff).
  apply (setup_input_spikes_inv _ _ _ a) in H1 as (mat & ->); [|done].
  destruct (cpu_loop_without_stdp _ _ _ _
              (set_arrays (Some (set_arr_input_spikes mat a)) x0) _
              (set_arr_input_spikes mat a) eq_refl Hdo H2)
    as (a' & _ & Ha' & Hdo' & _).
  assert (manual_setup m2 = false) as Hman2.
  { rewrite Hman1. cbn. apply _setup_inv in Hc as (? & -> & _). done. }
  unfold bind at 1. unfold gets at 1. cbn [fst snd]. rewrite Hman2. cbn [negb].
  assert (synaptic_weights (devec m2).2 = synaptic_weights m2
          ∧ ∃ o, (devec m2).1 = o) as [Hdev _].
  { unfold devec, arrays, bind, gets, modify, ret. cbn [fst snd].
    rewrite Ha'. cbn [fst snd]. rewrite Hdo'. split; [done|by eexists]. }
  unfold bind. destruct (devec m2) as [[[]|e] m3]; cbn [snd] in *.
  - unfold consume_input_spikes, bind, gets, modify. cbn.
    by rewrite Hdev, Hloop, Hpre.
  - by rewrite Hdev, Hloop, Hpre.
Qed.

Lemma simulate_cpu_without_stdp_keeps_weights_witness :
  synaptic_weights (simulate_cpu 1 None relay_pair).2
  = synaptic_weights relay_pair.
Proof.
  apply (simulate_cpu_without_stdp_keeps_weights 1 relay_pair).
  - reflexivity.
  - reflexivity.
Defined.

(** ** STDP and the synapses it is not enabled on *)

Lemma entry_mat_map2 {A B C} (f : A → B → C) (X : list (list A))
    (Y : list (list B)) (p q : nat) :
  entry (mat_map2 f X Y) p q =
    x ← entry X p q; y ← entry Y p q; Some (f x y).
Proof.
  unfold entry, mat_map2. rewrite lookup_zip_with.
  destruct (X !! p) as [rx|]; [|done]. cbn.
  destruct (Y !! p) as [ry|]; cbn.
  - rewrite lookup_zip_with. by destruct (rx !! q).
  - by destruct (rx !! q).
Qed.

Lemma entry_kernel_times (c : num) (U : list (list Z)) (p q : nat) :
  entry (kernel_times c U) p q = (λ u, c * of_Z u)%num <$> entry U p q.
Proof.
  unfold entry, kernel_times. rewrite list_lookup_fmap.
  destruct (U !! p) as [row|]; [|done]. cbn. by rewrite list_lookup_fmap.
Qed.

Lemma finite_mul_of_Z (c : num) (u : Z) :
  Num.is_finite c → Num.is_finite (c * of_Z u)%num.
Proof. by destruct c. Qed.

Lemma finite_mul_zero (x : num) : Num.is_finite x → (x * of_Z 0)%num = zero.
Proof.
  destruct x as [q| | |]; try done. intros _.
  rewrite NumFacts.mul_comm. apply NumFacts.mul_zero_l.
Qed.

(** One masked update leaves an entry whose mask is 0 as it is, when
    the coefficient is finite. *)
Lemma masked_update_keeps (c : num) (U mask : list (list Z))
    (W : list (list num)) (n p q : nat) :
  shape n n U → shape n n W →
  Num.is_finite c → entry mask p q = Some 0 →
  entry (mat_add W (mat_mask (kernel_times c U) mask)) p q = entry W p q.
Proof.
  intros HU HW Hc Hm. unfold mat_add, mat_mask.
  rewrite !entry_mat_map2, entry_kernel_times, Hm.
  destruct (entry W p q) as [w|] eqn:Hw; [|done]. cbn.
  destruct (entry U p q) as [u|] eqn:Hu; cbn.
  - rewrite finite_mul_zero by by apply finite_mul_of_Z.
    by rewrite NumFacts.add_zero_r.
  - exfalso.
    assert (p < n ∧ q < n)%nat as [Hp Hq].
    { unfold entry in Hw. destruct (W !! p) as [row|] eqn:Hrow; [|done].
      cbn in Hw. destruct HW as [HWl HWr]. rewrite Forall_lookup in HWr.
      apply lookup_lt_Some in Hw. rewrite (HWr _ _ Hrow) in Hw.
      apply lookup_lt_Some in Hrow. lia. }
    destruct (shape_entry n n U p q HU Hp Hq) as [u Hu']. congruence.
Qed.

Lemma stdp_lag_keeps (positive negative : bool) (ap an : num)
    (U mask : list (list Z)) (W : list (list num)) (n p q : nat) :
  shape n n U → shape n n mask → shape n n W →
  (positive = true → Num.is_finite ap) →
  (negative = true → Num.is_finite an) →
  entry mask p q = Some 0 →
  entry (stdp_lag positive negative ap an U mask W) p q = entry W p q.
Proof.
  intros HU Hmask HW Hap Han Hm. unfold stdp_lag.
  assert (shape n n (if positive
                     then mat_add W (mat_mask (kernel_times ap U) mask)
                     else W)) as HW1.
  { destruct positive; [|done]. unfold mat_add, mat_mask.
    repeat (apply shape_mat_map2 || apply shape_kernel_times); done. }
  assert (entry (if positive
                 then mat_add W (mat_mask (kernel_times ap U) mask)
                 else W) p q = entry W p q) as HW1e.
  { destruct positive; [|done]. by apply (masked_update_keeps _ _ _ _ n); auto. }
  destruct negative; [|done].
  rewrite (masked_update_keeps _ _ _ _ n); auto.
  by apply shape_one_minus_Z.
Qed.

Lemma stdp_fold_keeps (positive negative : bool) (mask : list (list Z))
    (terms : list (num * num * list (list Z))) (W : list (list num))
    (n p q : nat) :
  shape n n mask → shape n n W →
  Forall (λ x, shape n n x.2
               ∧ (positive = true → Num.is_finite x.1.1)
               ∧ (negative = true → Num.is_finite x.1.2)) terms →
  entry mask p q = Some 0 →
  entry (foldl (λ W x, stdp_lag positive negative x.1.1 x.1.2 x.2 mask W) W terms)
    p q = entry W p q.
Proof.
  intros Hmask HW Hterms Hm. revert W HW.
  induction Hterms as [|x terms (HU & Hap & Han) _ IH]; intros W HW; [done|].
  cbn [foldl]. rewrite IH; [|by apply shape_stdp_lag].
  by apply (stdp_lag_keeps _ _ _ _ _ _ _ n).
Qed.

Lemma lag_terms_ok (positive negative : bool) (train : list (list Z))
    (apos aneg : list num) (n t : nat) :
  Forall (λ row, length row = n) train →
  (t + 1 ≤ length train)%nat →
  Forall Num.is_finite apos → Forall Num.is_finite aneg →
  Forall (λ x : num * num * list (list Z),
            shape n n x.2
            ∧ (positive = true → Num.is_finite x.1.1)
            ∧ (negative = true → Num.is_finite x.1.2))
    (lag_terms positive negative train apos aneg <$> seq 0 t).
Proof.
  intros Hrows Ht Hap Han. apply Forall_fmap, Forall_forall.
  intros i Hi%elem_of_seq. cbn. unfold lag_terms. cbn [fst snd].
  rewrite Forall_lookup in Hrows.
  split; [|split].
  - apply shape_np_outer_Z.
    + unfold lag_spikes. rewrite bool_decide_eq_true_2 by lia.
      destruct (lookup_lt_is_Some_2 train (length train - 2 - i)) as [row Hrow];
        [lia|].
      rewrite Hrow. cbn. by eapply Hrows.
    + destruct (last train) as [now|] eqn:Hlast.
      * cbn. rewrite last_lookup in Hlast. by eapply Hrows.
      * apply last_None in Hlast. subst. cbn in Ht. lia.
  - intros _. unfold kernel_at. destruct positive; [|done].
    destruct (apos !! i) as [c|] eqn:Hc; [|done]. cbn.
    rewrite Forall_lookup in Hap. by eapply Hap.
  - intros _. unfold kernel_at. destruct negative; [|done].
    destruct (aneg !! i) as [c|] eqn:Hc; [|done]. cbn.
    rewrite Forall_lookup in Han. by eapply Han.
Qed.

(** The STDP block leaves an entry whose mask is 0 as it is, when the
    kernels are finite. *)
Lemma stdp_cpu_keeps (n t : nat) (train : list (list Z)) (apos aneg : list num)
    (a : Arrays) (W' : list (list num)) (p q : nat) :
  (0 < n)%nat →
  Forall (λ row, length row = n) train →
  (t + 1 ≤ length train)%nat →
  (_do_positive_update a = true → t ≤ length apos)%nat →
  (_do_negative_update a = true → t ≤ length aneg)%nat →
  shape n n (_weights a) →
  shape n n (_stdp_enabled_synapses a) →
  Forall Num.is_finite apos → Forall Num.is_finite aneg →
  stdp_cpu n t train apos aneg a = Ret W' →
  shape n n W'
  ∧ (entry (_stdp_enabled_synapses a) p q = Some 0 →
     entry W' p q = entry (_weights a) p q).
Proof.
  intros Hn Hrows Ht Hp Hng HW Hmask Hap Han Hcpu.
  destruct (stdp_cpu_refines_spec n t train apos aneg a Hn Hrows Ht Hp Hng HW
              Hmask) as (W'' & Hspec & Hcpu').
  assert (W'' = W') as -> by congruence.
  rewrite stdp_spec_fold in Hspec by done. injection Hspec as <-.
  pose proof (lag_terms_ok (_do_positive_update a) (_do_negative_update a)
                train apos aneg n t Hrows Ht Hap Han) as Hterms.
  split.
  - clear Hcpu Hcpu'. revert Hterms HW. generalize (_weights a).
    induction (lag_terms _ _ train apos aneg <$> seq 0 t) as [|x terms IH];
      intros W Hterms HW; [done|].
    apply Forall_cons in Hterms as [(HU & _) Hterms]. cbn [foldl].
    apply IH; [done|]. by apply shape_stdp_lag.
  - intros Hm. by apply (stdp_fold_keeps _ _ _ _ _ n).
Qed.

Lemma stdp_ready_consistent (n : nat) (m : NeuromorphicModel) (a : Arrays)
    (input : list num) :
  stdp_ready n m a input → kernels_consistent m.
Proof. by intros []. Qed.

(** At a tick of the reference backend, with finite kernels, STDP
    leaves the weight of every pair of neurons whose entry in
    [_stdp_enabled_synapses] is 0 as it was: the tick returns, and that
    entry of the weight matrix is unchanged. *)
Theorem stdp_leaves_disabled_synapses (m : NeuromorphicModel) (a : Arrays)
    (time_steps tick n : nat) (input : list num) (p q : nat) :
  _arrays m = Some a →
  _input_spikes a !! tick = Some input →
  stdp_ready n m a input →
  Forall Num.is_finite (_stdp_Apos m) →
  Forall Num.is_finite (_stdp_Aneg m) →
  entry (_stdp_enabled_synapses a) p q = Some 0 →
  ∃ m' a',
    cpu_tick time_steps None tick m = (Ret (S tick), m')
    ∧ _arrays m' = Some a'
    ∧ entry (_weights a') p q = entry (_weights a) p q.
Proof.
  intros Ha Hin Hready Hap Han Hm.
  rewrite (cpu_tick_unfold _ _ _ _ _ Ha Hin (stdp_ready_consistent _ _ _ _ Hready)).
  cbv zeta.
  set (a' := lif_cpu input a).
  set (t := (stdp_window m `min` length (spike_train m))%nat).
  set (train := spike_train m ++ [_spikes a']).
  pose proof Hready as [Hn Hn0 Htrain Hsp HW Hmask Hk Hp Hng Hdo].
  destruct (_do_stdp a && bool_decide (0 < t)%nat) eqn:Hguard.
  2:{ eexists _, _. split; [reflexivity|]. split; [reflexivity|]. done. }
  apply andb_true_iff in Hguard as [Hstdp _].
  assert (Forall (λ row, length row = n) train) as Hrows.
  { apply Forall_app. split; [done|]. by apply Forall_singleton. }
  assert (t + 1 ≤ length train)%nat as Ht.
  { subst t train. rewrite length_app. cbn [length]. lia. }
  destruct (window_within_kernels n m a input t Hready) as [Hkp Hkn];
    [subst t; lia|].
  rewrite Hn.
  destruct (stdp_cpu_refines_spec n t train (_stdp_Apos m) (_stdp_Aneg m) a'
              Hn0 Hrows Ht Hkp Hkn HW (Hmask Hstdp)) as (W' & _ & Hcpu).
  rewrite Hcpu.
  destruct (stdp_cpu_keeps n t train (_stdp_Apos m) (_stdp_Aneg m) a' W' p q
              Hn0 Hrows Ht Hkp Hkn HW (Hmask Hstdp) Hap Han Hcpu) as [_ Hkeep].
  eexists _, _. split; [reflexivity|]. split; [reflexivity|].
  cbn [_weights set_arr_weights]. by apply Hkeep.
Qed.

Lemma stdp_leaves_disabled_synapses_witness :
  let m := stdp_pair_after_first_tick in
  let a := default empty_arrays (_arrays m) in
  entry (_stdp_enabled_synapses a) 1 0 = Some 0
  ∧ ∃ m' a',
    cpu_tick 3 None 1 m = (Ret 2%nat, m')
    ∧ _arrays m' = Some a'
    ∧ entry (_weights a') 1 0 = entry (_weights a) 1 0.
Proof.
  intros m a. split; [reflexivity|].
  apply (stdp_leaves_disabled_synapses m a 3 1 2
           (default [] (_input_spikes a !! 1%nat)) 1 0).
  - vm_compute. reflexivity.
  - vm_compute. reflexivity.
  - split.
    + reflexivity.
    + lia.
    + vm_compute. repeat constructor.
    + vm_compute. reflexivity.
    + split; [reflexivity|]. vm_compute. repeat constructor.
    + intros _. split; [reflexivity|]. vm_compute. repeat constructor.
    + intros _ _. reflexivity.
    + intros _. reflexivity.
    + intros _. reflexivity.
    + reflexivity.
  - vm_compute. repeat constructor.
  - vm_compute. repeat constructor.
  - reflexivity.
Defined.

(** With an infinite kernel entry the property fails: in
    [infinite_kernel_pair] the second tick multiplies [inf] by the
    zeros of the coincidence matrix and of the mask, and every weight,
    that of the synapse without STDP included, becomes [nan]. *)
Example infinite_kernel_reaches_disabled_synapse :
  let r := simulate_cpu 2 None infinite_kernel_pair in
  enable_stdp infinite_kernel_pair = [true; false]
  ∧ synaptic_weights infinite_kernel_pair = [one; one]
  ∧ r.1 = Ret tt
  ∧ synaptic_weights r.2 = [NaN; NaN].
Proof. vm_compute. repeat split; reflexivity. Qed.

(** ** Two runs against one *)

Lemma for_range_add {A} (a b : nat) (body : A → M A) (x : A) (m : NeuromorphicModel) :
  for_range (a + b) body x m =
    (do x' <- for_range a body x; for_range b body x') m.
Proof.
  revert x m. induction a as [|a IH]; intros x m; cbn [for_range Nat.add].
  - reflexivity.
  - unfold bind. destruct (body x m) as [[x'|e] m']; [|done].
    rewrite IH. reflexivity.
Qed.

Lemma lif_cpu_restage (X : list (list num)) (input : list num) (a : Arrays) :
  lif_cpu input (set_arr_input_spikes X a)
  = set_arr_input_spikes X (lif_cpu input a).
Proof. reflexivity. Qed.

Lemma stdp_cpu_restage (X : list (list num)) (n t : nat) (train : list (list Z))
    (apos aneg : list num) (a : Arrays) :
  stdp_cpu n t train apos aneg (set_arr_input_spikes X a)
  = stdp_cpu n t train apos aneg a.
Proof. reflexivity. Qed.

Lemma logged_restage (X : list (list num)) (s r w : list num)
    (sch : gmap Z spikes_dict) (a : Arrays) (m : NeuromorphicModel) :
  logged (set_arr_input_spikes X a) (restage X s r w sch m)
  = restage X s r w sch (logged a m).
Proof. reflexivity. Qed.

(** A tick reads, of the fields [restage] replaces, only the row of
    the input matrix it is at. *)
Lemma cpu_tick_restage (time_steps time_steps' tick tick' t1 : nat)
    (m m' : NeuromorphicModel) (a : Arrays) (X : list (list num))
    (s r w : list num) (sch : gmap Z spikes_dict) :
  _arrays m = Some a →
  cpu_tick time_steps None tick m = (Ret t1, m') →
  X !! tick' = _input_spikes a !! tick →
  cpu_tick time_steps' None tick' (restage X s r w sch m)
  = (Ret (S tick'), restage X s r w sch m').
Proof.
  intros Ha H HX. pose proof H as Hinv.
  apply cpu_tick_ret_inv in Hinv as (a0 & input & Ha0 & Hin & Hk & -> & _).
  assert (a0 = a) as -> by congruence.
  rewrite (cpu_tick_unfold _ _ _ _ _ Ha Hin Hk) in H.
  assert (_arrays (restage X s r w sch m) = Some (set_arr_input_spikes X a))
    as Ha'.
  { unfold restage. cbn [_arrays]. by rewrite Ha. }
  assert (_input_spikes (set_arr_input_spikes X a) !! tick' = Some input) as Hin'.
  { cbn [_input_spikes set_arr_input_spikes]. by rewrite HX. }
  rewrite (cpu_tick_unfold _ _ _ _ _ Ha' Hin' Hk).
  cbv zeta in *. rewrite lif_cpu_restage.
  change (_do_stdp (set_arr_input_spikes X a)) with (_do_stdp a).
  change (stdp_window (restage X s r w sch m)) with (stdp_window m).
  change (spike_train (restage X s r w sch m)) with (spike_train m).
  change (num_neurons (restage X s r w sch m)) with (num_neurons m).
  change (_stdp_Apos (restage X s r w sch m)) with (_stdp_Apos m).
  change (_stdp_Aneg (restage X s r w sch m)) with (_stdp_Aneg m).
  change (_spikes (set_arr_input_spikes X (lif_cpu input a)))
    with (_spikes (lif_cpu input a)).
  rewrite stdp_cpu_restage.
  destruct (_do_stdp a && _) eqn:Hguard.
  - destruct (stdp_cpu _ _ _ _ _ _) as [w0|e]; [|done].
    injection H as <-. reflexivity.
  - injection H as <-. reflexivity.
Qed.

(** So does the loop. *)
Lemma cpu_loop_restage (time_steps time_steps' k tick tick' t1 : nat)
    (m m' : NeuromorphicModel) (a : Arrays) (X : list (list num))
    (s r w : list num) (sch : gmap Z spikes_dict) :
  _arrays m = Some a →
  for_range k (cpu_tick time_steps None) tick m = (Ret t1, m') →
  (∀ j, (j < k)%nat → X !! (tick' + j)%nat = _input_spikes a !! (tick + j)%nat) →
  for_range k (cpu_tick time_steps' None) tick' (restage X s r w sch m)
  = (Ret (tick' + k)%nat, restage X s r w sch m').
Proof.
  revert tick tick' m a. induction k as [|k IH]; intros tick tick' m a Ha H HX;
    cbn [for_range] in *.
  - injection H as <- <-. by rewrite Nat.add_0_r.
  - monad_step H. unfold bind.
    pose proof Hc as Hinv.
    apply cpu_tick_ret_inv in Hinv as (a0 & input & Ha0 & Hin & Hk & -> & Hm).
    rewrite (cpu_tick_restage _ _ _ _ _ _ _ _ X s r w sch Ha Hc).
    2:{ specialize (HX 0%nat ltac:(lia)). by rewrite !Nat.add_0_r in HX. }
    assert (∃ a1, _arrays x0 = Some a1 ∧ _input_spikes a1 = _input_spikes a)
      as (a1 & Ha1 & Hsame).
    { assert (a0 = a) as -> by congruence.
      destruct Hm as [->|(w0 & _ & ->)]; by eexists. }
    rewrite (IH (S tick) (S tick') x0 a1 Ha1 H).
    + do 2 f_equal. lia.
    + intros j Hj. rewrite Hsame. specialize (HX (S j) ltac:(lia)).
      by rewrite !Nat.add_succ_r in HX.
Qed.

Lemma with_dynamics_id (a : Arrays) :
  with_dynamics (_internal_states a) (_neuron_refractory_periods a) (_weights a)
    (_spikes a) a = a.
Proof. by destruct a. Qed.

Lemma set_arrays_id (m : NeuromorphicModel) (a : Arrays) :
  _arrays m = Some a → set_arrays (Some a) m = m.
Proof. destruct m. cbn. by intros ->. Qed.

(** The model after [k] passes through the loop: the logged rows are
    appended, and the arrays differ by what a tick writes; the fired
    vector is the last logged row, and without STDP the weights are
    the ones the loop started with. *)
Lemma cpu_loop_form (time_steps k tick tick' : nat) (m m' : NeuromorphicModel)
    (a : Arrays) :
  _arrays m = Some a →
  for_range k (cpu_tick time_steps None) tick m = (Ret tick', m') →
  ∃ st c W sp rows,
    m' = set_spike_train (spike_train m ++ rows)
           (set_arrays (Some (with_dynamics st c W sp a)) m)
    ∧ length rows = k
    ∧ last (_spikes a :: rows) = Some sp
    ∧ (_do_stdp a = false → W = _weights a).
Proof.
  revert tick m a. induction k as [|k IH]; intros tick m a Ha H;
    cbn [for_range] in H.
  - injection H as <- <-.
    exists (_internal_states a), (_neuron_refractory_periods a), (_weights a),
      (_spikes a), [].
    rewrite with_dynamics_id, app_nil_r, set_arrays_id by done.
    split_and!; try done. by destruct m.
  - monad_step H.
    apply cpu_tick_ret_inv in Hc as (a0 & input & Ha0 & Hin & Hk & -> & Hm).
    assert (a0 = a) as -> by congruence.
    assert (∃ a1, _arrays x0 = Some a1
                  ∧ x0 = logged a1 m
                  ∧ (∀ st c W sp, with_dynamics st c W sp a1
                                  = with_dynamics st c W sp a)
                  ∧ (_do_stdp a = false → _weights a1 = _weights a)
                  ∧ _do_stdp a1 = _do_stdp a)
      as (a1 & Ha1 & -> & Hdyn & HW1 & Hdo1).
    { destruct Hm as [->|(w0 & Hdo & ->)]; eexists; split_and!; try done.
      by rewrite Hdo. }
    destruct (IH _ _ _ Ha1 H) as (st & c & W & sp & rows & -> & Hlen & Hlast & HW).
    exists st, c, W, sp, (_spikes a1 :: rows). rewrite Hdyn. split_and!.
    + unfold logged, append_spike_train. cbn [spike_train set_arrays set_spike_train].
      by rewrite <- app_assoc.
    + cbn. by rewrite Hlen.
    + done.
    + intros Hdo. rewrite HW, HW1; [done..|by rewrite Hdo1].
Qed.

Lemma _setup_unfold (m : NeuromorphicModel) :
  _setup m =
    match weight_mat m with
    | Ret W =>
        match setup_mask m with
        | Ret mask => (Ret tt, set_arrays (Some (setup_arrays m W mask)) m)
        | Raise e => (Raise e, m)
        end
    | Raise e => (Raise e, m)
    end.
Proof.
  unfold _setup, setup_mask, setup_arrays, previous_spikes,
    positive_update_active, negative_update_active.
  unfold bind at 1. unfold get at 1. unfold bind at 1. unfold lift at 1.
  destruct (weight_mat m) as [W|e]; [|done]. cbn [fst snd].
  unfold bind at 1.
  destruct (_ || _); [unfold lift; destruct (stdp_enabled_mat m); done|done].
Qed.

Lemma devec_unfold (m : NeuromorphicModel) (a : Arrays) :
  _arrays m = Some a →
  let m' := set_neuron_refractory_periods_state (_neuron_refractory_periods a)
              (set_neuron_states (_internal_states a) m) in
  devec m =
    if _do_stdp a then
      match mat_gather (length (_weights a)) (_weights a)
              (pre_synaptic_neuron_ids m) (post_synaptic_neuron_ids m) with
      | Ret w => (Ret tt, set_synaptic_weights w m')
      | Raise e => (Raise e, m')
      end
    else (Ret tt, m').
Proof.
  intros Ha. unfold devec, arrays.
  unfold bind at 1. unfold bind at 1. unfold gets at 1. cbn [fst snd].
  rewrite Ha. unfold ret at 1. cbn [fst snd].
  unfold bind at 1. unfold modify at 1. unfold bind at 1. unfold modify at 1.
  cbn [fst snd]. destruct (_do_stdp a); [|done].
  unfold bind at 1. unfold get at 1. unfold bind at 1. unfold lift at 1.
  cbn [fst snd pre_synaptic_neuron_ids post_synaptic_neuron_ids
       set_neuron_refractory_periods_state set_neuron_states].
  by destruct (mat_gather _ _ _ _).
Qed.

Lemma lookup_consumed (time_steps : nat) (schedule : gmap Z spikes_dict) (k : Z) :
  consumed time_steps schedule !! k =
    if bool_decide (0 ≤ k) then schedule !! (k + Z.of_nat time_steps) else None.
Proof.
  exact (consume_input_spikes_lookup time_steps (set_input_spikes schedule init) k).
Qed.

Lemma consumed_add (a b : nat) (schedule : gmap Z spikes_dict) :
  consumed b (consumed a schedule) = consumed (a + b) schedule.
Proof.
  apply map_eq. intros k. rewrite !lookup_consumed.
  case_bool_decide as Hk; [|done].
  rewrite bool_decide_eq_true_2 by lia. f_equal. lia.
Qed.

Lemma schedule_ok_consumed (time_steps : nat) (m : NeuromorphicModel) :
  schedule_ok m → schedule_ok (set_input_spikes (consumed time_steps (input_spikes m)) m).
Proof.
  intros Hok t d. cbn [input_spikes set_input_spikes]. rewrite lookup_consumed.
  case_bool_decide as Ht; [|done]. intros Hd%Hok. split; [done|apply Hd].
Qed.

(** [setup_input_spikes] returns when every tick up to [time_steps]
    has its neuron ids in range. *)
Lemma setup_input_spikes_succeeds (time_steps : nat) (m : NeuromorphicModel)
    (a : Arrays) :
  schedule_ok m → _arrays m = Some a →
  (∀ t, (t ≤ time_steps)%nat →
     ∃ row, input_row (num_neurons m) (input_spikes m !! Z.of_nat t) = Ret row) →
  ∃ mat,
    setup_input_spikes time_steps m
    = (Ret tt, set_arrays (Some (set_arr_input_spikes mat a)) m).
Proof.
  intros Hok Ha Hrows. rewrite setup_input_spikes_fold.
  destruct (schedule_fold_succeeds time_steps (num_neurons m)
              (map_to_list (input_spikes m))) as [mat Hmat].
  - apply NoDup_fst_map_to_list.
  - apply Forall_forall. intros [t d] Hd%elem_of_map_to_list.
    by apply Hok in Hd as [? _].
  - intros t d Hd%elem_of_map_to_list Ht.
    destruct (Hrows t Ht) as [row Hrow]. rewrite Hd in Hrow. by exists row.
  - exists mat. unfold bind at 1. unfold lift. rewrite Hmat. cbn [fst snd].
    unfold update_arrays, arrays. unfold bind, gets. cbn [fst snd].
    by rewrite Ha.
Qed.

Lemma last_logged (train rows : list (list Z)) (n : nat) (sp : list Z) :
  last (match last train with Some s => s | None => replicate n 0 end :: rows)
    = Some sp →
  match last (train ++ rows) with Some s => s | None => replicate n 0 end = sp.
Proof.
  destruct rows as [|x rows _] using rev_ind.
  - rewrite app_nil_r. cbn. by intros [= <-].
  - rewrite app_assoc, last_snoc, app_comm_cons, last_snoc. by intros [= <-].
Qed.

(** [simulate_cpu] from its three parts. *)
Lemma simulate_cpu_intro (time_steps tick : nat) (m m0 m1 m' : NeuromorphicModel) :
  manual_setup m = false →
  (do_ _setup; setup_input_spikes time_steps)
    (set_last_used_backend (Some "cpu") m) = (Ret tt, m0) →
  for_range time_steps (cpu_tick time_steps None) 0%nat m0 = (Ret tick, m1) →
  manual_setup m1 = false →
  (do_ devec; consume_input_spikes time_steps) m1 = (Ret tt, m') →
  simulate_cpu time_steps None m = (Ret tt, m').
Proof.
  intros Hman Hpre Hloop Hman1 Hpost. unfold simulate_cpu.
  unfold bind at 1. unfold modify at 1. cbn [fst snd].
  unfold bind at 1. unfold gets at 1. cbn [fst snd manual_setup set_last_used_backend].
  rewrite Hman. cbn [negb].
  unfold bind at 1. rewrite Hpre.
  unfold bind at 1. rewrite Hloop.
  unfold bind at 1. unfold gets at 1. cbn [fst snd]. rewrite Hman1. cbn [negb].
  exact Hpost.
Qed.


Lemma cpu_loop_tick (time_steps k tick tick' : nat) (m m' : NeuromorphicModel) :
  for_range k (cpu_tick time_steps None) tick m = (Ret tick', m') →
  tick' = (tick + k)%nat.
Proof.
  revert tick m. induction k as [|k IH]; intros tick m H; cbn [for_range] in H.
  - injection H as <- _. lia.
  - monad_step H. apply cpu_tick_ret_inv in Hc as (_ & _ & _ & _ & _ & -> & _).
    apply IH in H. lia.
Qed.

(** A run that returns, part by part. *)
Lemma simulate_cpu_form (time_steps : nat) (m m' : NeuromorphicModel) :
  manual_setup m = false → schedule_ok m →
  simulate_cpu time_steps None m = (Ret tt, m') →
  ∃ W mask X st c Wd sp rows ws,
    weight_mat m = Ret W ∧ setup_mask m = Ret mask
    ∧ (∀ t, (t ≤ time_steps)%nat →
         ∃ row, X !! t = Some row
                ∧ input_row (num_neurons m) (input_spikes m !! Z.of_nat t)
                  = Ret row)
    ∧ for_range time_steps (cpu_tick time_steps None) 0%nat
        (with_run (neuron_states m) (neuron_refractory_periods_state m)
           (synaptic_weights m) (input_spikes m) (spike_train m)
           (Some (set_arr_input_spikes X (setup_arrays m W mask))) m)
      = (Ret time_steps,
         with_run (neuron_states m) (neuron_refractory_periods_state m)
           (synaptic_weights m) (input_spikes m) (spike_train m ++ rows)
           (Some (with_dynamics st c Wd sp
                    (set_arr_input_spikes X (setup_arrays m W mask)))) m)
    ∧ length rows = time_steps
    ∧ last (previous_spikes m :: rows) = Some sp
    ∧ (if positive_update_active m || negative_update_active m
       then mat_gather (length Wd) Wd (pre_synaptic_neuron_ids m)
              (post_synaptic_neuron_ids m) = Ret ws
       else Wd = W ∧ ws = synaptic_weights m)
    ∧ m' = with_run st c ws (consumed time_steps (input_spikes m))
             (spike_train m ++ rows)
             (Some (with_dynamics st c Wd sp
                      (set_arr_input_spikes X (setup_arrays m W mask)))) m.
Proof.
  intros Hman Hsched H.
  apply simulate_cpu_ret_inv in H as (F0 & Fa & tF & Hpre & Hloop & _ & Hpost).
  rewrite Hman in Hpre, Hpost.
  monad_step Hpre. rewrite _setup_unfold in Hc.
  change (weight_mat (set_last_used_backend (Some "cpu") m)) with (weight_mat m)
    in Hc.
  change (setup_mask (set_last_used_backend (Some "cpu") m)) with (setup_mask m)
    in Hc.
  destruct (weight_mat m) as [W|] eqn:HW; [|done].
  destruct (setup_mask m) as [mask|] eqn:Hmask; [|done].
  assert (x0 = with_run (neuron_states m) (neuron_refractory_periods_state m)
                 (synaptic_weights m) (input_spikes m) (spike_train m)
                 (Some (setup_arrays m W mask)) m) as ->
    by (injection Hc as _ Hx; symmetry; exact Hx).
  clear Hc.
  apply setup_input_spikes_rows in Hpre as (A0 & X & HA0 & -> & _ & Hrows);
    [|exact Hsched].
  injection HA0 as <-.
  pose proof Hloop as Hform.
  apply cpu_loop_form with (a := set_arr_input_spikes X (setup_arrays m W mask))
    in Hform as (st & c & Wd & sp & rows & -> & Hlen & Hlast & HWd); [|done].
  apply cpu_loop_tick in Hloop as Htick. cbn [Nat.add] in Htick. subst tF.
  set (A := set_arr_input_spikes X (setup_arrays m W mask)) in *.
  change (set_spike_train _ _)
    with (with_run (neuron_states m) (neuron_refractory_periods_state m)
            (synaptic_weights m) (input_spikes m) (spike_train m ++ rows)
            (Some (with_dynamics st c Wd sp A)) m) in Hpost, Hloop.
  change (set_arrays _ _)
    with (with_run (neuron_states m) (neuron_refractory_periods_state m)
            (synaptic_weights m) (input_spikes m) (spike_train m)
            (Some A) m) in Hloop.
  monad_step Hpost.
  match type of Hc with
  | devec ?M = _ =>
      rewrite (devec_unfold M (with_dynamics st c Wd sp A) eq_refl) in Hc
  end.
  cbv zeta in Hc.
  change (_do_stdp _) with (positive_update_active m || negative_update_active m)
    in Hc, HWd.
  exists W, mask, X, st, c, Wd, sp, rows.
  destruct (positive_update_active m || negative_update_active m) eqn:Hact.
  - destruct (mat_gather _ _ _ _) as [ws|] eqn:Hws in Hc; [|done].
    exists ws. split_and!; try done.
    injection Hc as _ <-. by injection Hpost as <-.
  - exists (synaptic_weights m). rewrite (HWd eq_refl) in *.
    split_and!; try done.
    injection Hc as _ <-. by injection Hpost as <-.
Qed.

Lemma without_stdp_inactive (m : NeuromorphicModel) :
  without_stdp m →
  positive_update_active m || negative_update_active m = false.
Proof.
  unfold without_stdp, positive_update_active, negative_update_active.
  by intros ->.
Qed.

Section WithRun.

Variables (s r w : list num) (sch : gmap Z spikes_dict)
  (tr : list (list Z)) (arr : option Arrays) (m : NeuromorphicModel).

Lemma with_run_with_run s' r' w' sch' tr' arr' :
  with_run s' r' w' sch' tr' arr' (with_run s r w sch tr arr m)
  = with_run s' r' w' sch' tr' arr' m.
Proof. reflexivity. Qed.

Lemma neuron_states_with_run :
  neuron_states (with_run s r w sch tr arr m) = s.
Proof. reflexivity. Qed.

Lemma refractory_state_with_run :
  neuron_refractory_periods_state (with_run s r w sch tr arr m) = r.
Proof. reflexivity. Qed.

Lemma synaptic_weights_with_run :
  synaptic_weights (with_run s r w sch tr arr m) = w.
Proof. reflexivity. Qed.

Lemma input_spikes_with_run :
  input_spikes (with_run s r w sch tr arr m) = sch.
Proof. reflexivity. Qed.

Lemma spike_train_with_run :
  spike_train (with_run s r w sch tr arr m) = tr.
Proof. reflexivity. Qed.

Lemma num_neurons_with_run :
  num_neurons (with_run s r w sch tr arr m) = num_neurons m.
Proof. reflexivity. Qed.

Lemma ids_with_run :
  pre_synaptic_neuron_ids (with_run s r w sch tr arr m)
  = pre_synaptic_neuron_ids m
  ∧ post_synaptic_neuron_ids (with_run s r w sch tr arr m)
    = post_synaptic_neuron_ids m.
Proof. done. Qed.

Lemma active_with_run :
  positive_update_active (with_run s r w sch tr arr m) = positive_update_active m
  ∧ negative_update_active (with_run s r w sch tr arr m)
    = negative_update_active m.
Proof. done. Qed.

Lemma weight_mat_with_run :
  weight_mat (with_run s r w sch tr arr m)
  = mat_assign (num_neurons m) (zeros2 zero (num_neurons m) (num_neurons m))
      (pre_synaptic_neuron_ids m) (post_synaptic_neuron_ids m) w.
Proof. reflexivity. Qed.

Lemma setup_mask_with_run :
  setup_mask (with_run s r w sch tr arr m) =
    if positive_update_active m || negative_update_active m
    then stdp_enabled_mat m
    else Ret (from_option _stdp_enabled_synapses [] arr).
Proof. reflexivity. Qed.

Lemma restage_with_run X s' r' w' sch' (A : Arrays) :
  restage X s' r' w' sch' (with_run s r w sch tr (Some A) m)
  = with_run s' r' w' sch' tr (Some (set_arr_input_spikes X A)) m.
Proof. reflexivity. Qed.

Lemma previous_spikes_with_run (rows : list (list Z)) (sp : list Z) :
  last (previous_spikes m :: rows) = Some sp →
  previous_spikes (with_run s r w sch (spike_train m ++ rows) arr m) = sp.
Proof. apply last_logged. Qed.

(** [_setup] after a run rebuilds the arrays the run left, but for the
    input matrix, when it rebuilds the same two matrices. *)
Lemma setup_arrays_reload (rows : list (list Z)) (sp : list Z)
    (W : list (list num)) (mask : list (list Z)) :
  last (previous_spikes m :: rows) = Some sp →
  setup_arrays (with_run s r w sch (spike_train m ++ rows) arr m) W mask
  = set_arr_input_spikes (zeros2 zero 1 (num_neurons m))
      (with_dynamics s r W sp (setup_arrays m W mask)).
Proof.
  intros Hlast. unfold setup_arrays, with_dynamics, set_arr_input_spikes,
    set_arr_weights, set_arr_spikes, set_arr_neuron_refractory_periods,
    set_arr_internal_states. cbn. f_equal.
  by apply last_logged.
Qed.

End WithRun.

Ltac simpl_run H :=
  rewrite ?with_run_with_run, ?neuron_states_with_run, ?refractory_state_with_run,
    ?synaptic_weights_with_run, ?input_spikes_with_run, ?spike_train_with_run,
    ?num_neurons_with_run in H.

Ltac simpl_run_goal :=
  rewrite ?with_run_with_run, ?neuron_states_with_run, ?refractory_state_with_run,
    ?synaptic_weights_with_run, ?input_spikes_with_run, ?spike_train_with_run,
    ?num_neurons_with_run.

Lemma cpu_loop_run_restage (time_steps' tick' : nat) (X : list (list num))
    (s' r' w' : list num) (sch' : gmap Z spikes_dict)
    {time_steps k t1 : nat} {s r w s1 r1 w1 : list num}
    {sch sch1 : gmap Z spikes_dict} {tr tr1 : list (list Z)} {A A1 : Arrays}
    {m : NeuromorphicModel} :
  for_range k (cpu_tick time_steps None) 0%nat (with_run s r w sch tr (Some A) m)
    = (Ret t1, with_run s1 r1 w1 sch1 tr1 (Some A1) m) →
  (∀ j, (j < k)%nat → X !! (tick' + j)%nat = _input_spikes A !! (0 + j)%nat) →
  for_range k (cpu_tick time_steps' None) tick'
    (with_run s' r' w' sch' tr (Some (set_arr_input_spikes X A)) m)
  = (Ret (tick' + k)%nat,
     with_run s' r' w' sch' tr1 (Some (set_arr_input_spikes X A1)) m).
Proof.
  intros H HX.
  exact (cpu_loop_restage time_steps time_steps' k 0 tick' t1
           (with_run s r w sch tr (Some A) m)
           (with_run s1 r1 w1 sch1 tr1 (Some A1) m) A X s' r' w' sch' eq_refl H
           HX).
Qed.

(** Two runs in a row against one run of the summed length.  The
    second [_setup] has to rebuild the weight matrix the first run
    left; when an STDP update is active this is the premise [Hreload]. *)
Lemma two_runs_core (a b : nat) (m m1 m2 : NeuromorphicModel) :
  manual_setup m = false → schedule_ok m →
  (positive_update_active m || negative_update_active m = true →
   ∀ W mask X st c Wd sp rows ws W1,
     weight_mat m = Ret W → setup_mask m = Ret mask →
     (∀ t, (t ≤ a)%nat →
        ∃ row, X !! t = Some row
               ∧ input_row (num_neurons m) (input_spikes m !! Z.of_nat t)
                 = Ret row) →
     for_range a (cpu_tick a None) 0%nat
       (with_run (neuron_states m) (neuron_refractory_periods_state m)
          (synaptic_weights m) (input_spikes m) (spike_train m)
          (Some (set_arr_input_spikes X (setup_arrays m W mask))) m)
     = (Ret a,
        with_run (neuron_states m) (neuron_refractory_periods_state m)
          (synaptic_weights m) (input_spikes m) (spike_train m ++ rows)
          (Some (with_dynamics st c Wd sp
                   (set_arr_input_spikes X (setup_arrays m W mask)))) m) →
     mat_gather (length Wd) Wd (pre_synaptic_neuron_ids m)
       (post_synaptic_neuron_ids m) = Ret ws →
     mat_assign (num_neurons m) (zeros2 zero (num_neurons m) (num_neurons m))
       (pre_synaptic_neuron_ids m) (post_synaptic_neuron_ids m) ws = Ret W1 →
     W1 = Wd) →
  simulate_cpu a None m = (Ret tt, m1) →
  simulate_cpu b None m1 = (Ret tt, m2) →
  ∃ m12,
    simulate_cpu (a + b) None m = (Ret tt, m12)
    ∧ forget_input_matrix m12 = forget_input_matrix m2.
Proof.
  intros Hman Hsched Hreload HF HP.
  apply simulate_cpu_form in HF
    as (W & mask & XF & st & c & Wd & sp & rows & ws & HW & Hmask & HrowsF
        & HloopF & HlenF & HlastF & HwF & ->); [|done..].
  set (A0 := setup_arrays m W mask) in *.
  apply simulate_cpu_form in HP
    as (W1 & mask1 & XP & st' & c' & Wd' & sp' & rows' & ws' & HW1 & Hmask1
        & HrowsP & HloopP & HlenP & HlastP & HwP & ->);
    [|done|by apply (schedule_ok_consumed a m)].
  rewrite weight_mat_with_run in HW1.
  rewrite setup_mask_with_run in Hmask1.
  rewrite (proj1 (active_with_run _ _ _ _ _ _ _)),
    (proj2 (active_with_run _ _ _ _ _ _ _)) in HwP.
  rewrite (proj1 (ids_with_run _ _ _ _ _ _ _)),
    (proj2 (ids_with_run _ _ _ _ _ _ _)) in HwP.
  simpl_run HrowsP. simpl_run HloopP. simpl_run HwP.
  assert (W1 = Wd) as ->.
  { destruct (positive_update_active m || negative_update_active m) eqn:Hact.
    - by apply (Hreload eq_refl W mask XF st c Wd sp rows ws W1).
    - destruct HwF as [-> ->]. fold (weight_mat m) in HW1. congruence. }
  assert (mask1 = mask) as ->.
  { unfold setup_mask in Hmask.
    destruct (positive_update_active m || negative_update_active m);
      [congruence|].
    by injection Hmask1 as <-. }
  clear HW1 Hmask1.
  rewrite (setup_arrays_reload _ _ _ _ _ _ _ _ _ _ HlastF) in HloopP.
  rewrite (previous_spikes_with_run _ _ _ _ _ _ _ _ HlastF) in HlastP.
  set (n := num_neurons m) in *. set (sched := input_spikes m) in *.
  (* the input matrix of the single run *)
  assert (∀ t, (t ≤ a + b)%nat →
            ∃ row, input_row n (sched !! Z.of_nat t) = Ret row) as Hall.
  { intros t Ht. destruct (decide (t ≤ a)%nat) as [Hta|Hta].
    - destruct (HrowsF t Hta) as (row & _ & Hrow). by exists row.
    - destruct (HrowsP (t - a)%nat ltac:(lia)) as (row & _ & Hrow).
      exists row. rewrite lookup_consumed, bool_decide_eq_true_2 in Hrow by lia.
      by replace (Z.of_nat (t - a) + Z.of_nat a) with (Z.of_nat t) in Hrow by lia. }
  destruct (setup_input_spikes_succeeds (a + b)
              (with_run (neuron_states m) (neuron_refractory_periods_state m)
                 (synaptic_weights m) sched (spike_train m) (Some A0) m) A0
              Hsched eq_refl Hall) as [XS HXS].
  pose proof HXS as (A0' & XS' & HA0 & HXS' & _ & HrowsS)%setup_input_spikes_rows;
    [|exact Hsched].
  injection HA0 as <-.
  assert (XS' = XS) as ->.
  { unfold set_arrays, set_arr_input_spikes in HXS'. by injection HXS'. }
  clear HXS'. simpl_run HrowsS. fold n in HrowsS.
  assert (∀ j, (j < a)%nat → XS !! (0 + j)%nat
            = _input_spikes (set_arr_input_spikes XF A0) !! (0 + j)%nat) as HXF.
  { intros j Hj. cbn [Nat.add _input_spikes set_arr_input_spikes].
    destruct (HrowsS j ltac:(lia)) as (row & -> & Hrow).
    destruct (HrowsF j ltac:(lia)) as (row' & -> & Hrow'). congruence. }
  assert (∀ j, (j < b)%nat → XS !! (a + j)%nat
            = _input_spikes
                (set_arr_input_spikes XP
                   (set_arr_input_spikes (zeros2 zero 1 n)
                      (with_dynamics st c Wd sp (setup_arrays m Wd mask))))
              !! (0 + j)%nat) as HXP.
  { intros j Hj. cbn [Nat.add _input_spikes set_arr_input_spikes].
    destruct (HrowsS (a + j)%nat ltac:(lia)) as (row & -> & Hrow).
    destruct (HrowsP j ltac:(lia)) as (row' & -> & Hrow').
    rewrite lookup_consumed, bool_decide_eq_true_2 in Hrow' by lia.
    replace (Z.of_nat j + Z.of_nat a) with (Z.of_nat (a + j)) in Hrow' by lia.
    congruence. }
  pose proof (cpu_loop_run_restage (a + b) 0 XS (neuron_states m)
                (neuron_refractory_periods_state m) (synaptic_weights m) sched
                HloopF HXF) as HS1.
  pose proof (cpu_loop_run_restage (a + b) a XS (neuron_states m)
                (neuron_refractory_periods_state m) (synaptic_weights m) sched
                HloopP HXP) as HS2.
  cbn [Nat.add] in HS1.
  set (ws12 := if positive_update_active m || negative_update_active m
               then ws' else synaptic_weights m).
  exists (with_run st' c' ws12 (consumed (a + b) sched)
            ((spike_train m ++ rows) ++ rows')
            (Some (set_arr_input_spikes XS (with_dynamics st' c' Wd' sp' A0))) m).
  split.
  - eapply (simulate_cpu_intro (a + b) (a + b) m); [done| | | |].
    + unfold bind. rewrite _setup_unfold.
      change (weight_mat (set_last_used_backend (Some "cpu") m))
        with (weight_mat m).
      change (setup_mask (set_last_used_backend (Some "cpu") m))
        with (setup_mask m).
      rewrite HW, Hmask. exact HXS.
    + rewrite for_range_add. unfold bind.
      match type of HS1 with
      | ?L = _ => change (for_range a (cpu_tick (a + b) None) 0%nat _) with L
      end.
      rewrite HS1. exact HS2.
    + exact Hman.
    + unfold bind.
      match goal with
      | |- context [devec ?M] =>
          rewrite (devec_unfold M
                     (set_arr_input_spikes XS
                        (with_dynamics st' c' Wd' sp' A0)) eq_refl)
      end.
      cbv zeta.
      change (_do_stdp _)
        with (positive_update_active m || negative_update_active m).
      subst ws12.
      destruct (positive_update_active m || negative_update_active m).
      * change (_weights _) with Wd'.
        change (pre_synaptic_neuron_ids _) with (pre_synaptic_neuron_ids m).
        change (post_synaptic_neuron_ids _) with (post_synaptic_neuron_ids m).
        rewrite HwP. reflexivity.
      * reflexivity.
  - simpl_run_goal. rewrite consumed_add. subst ws12.
    destruct (positive_update_active m || negative_update_active m).
    + reflexivity.
    + destruct HwP as [_ ->]. by destruct HwF as [_ ->].
Qed.

(** Without STDP, two runs of the reference backend in a row are one
    run of the summed length: when [simulate_cpu] for [a] ticks and then
    for [b] ticks returns, so does [simulate_cpu] for [a + b] ticks from
    the same model, and it leaves the same model, but for the input
    matrix, which each run sizes by its own length. *)
Theorem simulate_cpu_two_runs (a b : nat) (m m1 m2 : NeuromorphicModel) :
  manual_setup m = false → schedule_ok m → without_stdp m →
  simulate_cpu a None m = (Ret tt, m1) →
  simulate_cpu b None m1 = (Ret tt, m2) →
  ∃ m12,
    simulate_cpu (a + b) None m = (Ret tt, m12)
    ∧ forget_input_matrix m12 = forget_input_matrix m2.
Proof.
  intros Hman Hsched Hoff%without_stdp_inactive.
  apply two_runs_core; [done|done|]. by rewrite Hoff.
Qed.

Lemma simulate_cpu_two_runs_witness :
  let m := twice_at_tick_one in
  let m1 := after (simulate_cpu 1 None) m in
  let m2 := after (simulate_cpu 1 None) m1 in
  ∃ m12,
    simulate_cpu (1 + 1) None m = (Ret tt, m12)
    ∧ forget_input_matrix m12 = forget_input_matrix m2.
Proof.
  intros m m1 m2. apply (simulate_cpu_two_runs 1 1 m m1 m2).
  - reflexivity.
  - apply (schedule_ok_ext (spike_added 1 0 (of_Z 3) two_neurons));
      [by vm_compute|].
    apply spike_added_schedule_ok; [|lia]. by apply schedule_ok_empty.
  - reflexivity.
  - by vm_compute.
  - by vm_compute.
Defined.

(** ** Shapes through a tick *)

Lemma length_assign_where {A} (mask : list bool) (new old : list A) (n : nat) :
  length mask = n → length new = n → length old = n →
  length (assign_where mask new old) = n.
Proof.
  intros. unfold assign_where. rewrite !length_zip_with. lia.
Qed.

Lemma length_assign_scalar_where {A} (mask : list bool) (v : A) (old : list A)
    (n : nat) :
  length mask = n → length old = n →
  length (assign_scalar_where mask v old) = n.
Proof.
  intros. unfold assign_scalar_where. rewrite !length_zip_with. lia.
Qed.

Lemma length_matT_vec (W : list (list num)) (x : list num) :
  length (matT_vec W x) = length W.
Proof. unfold matT_vec. by rewrite length_fmap, length_seq. Qed.

Lemma length_leak_cpu (n : nat) (a : Arrays) :
  arrays_shaped n a → length (leak_cpu a) = n.
Proof.
  intros []. unfold leak_cpu. cbv zeta.
  match goal with
  | |- length (assign_where _ _ ?s) = _ =>
      assert (length s = n) as Hs
        by (apply length_assign_where; rewrite ?length_zip_with; lia)
  end.
  apply length_assign_where; rewrite ?length_zip_with, ?Hs; lia.
Qed.

Lemma lif_cpu_shaped (n : nat) (input : list num) (a : Arrays) :
  arrays_shaped n a → length input = n → arrays_shaped n (lif_cpu input a).
Proof.
  intros Ha Hin. pose proof (length_leak_cpu n a Ha) as Hleak.
  destruct Ha as [Hth Hlk Hrs Hor Hst Hrf [HW HWc] Hsp].
  assert (length (integrate_cpu input a) = n) as Hint.
  { unfold integrate_cpu. rewrite !length_zip_with, length_matT_vec. lia. }
  unfold lif_cpu. cbv zeta.
  set (indices := (λ r, Num.gtb r zero) <$> _neuron_refractory_periods a).
  set (spikes := assign_scalar_where indices 0 _).
  set (mask := (λ s, negb (bool_decide (s = 0))) <$> spikes).
  assert (length indices = n) as Hind by (subst indices; by rewrite length_fmap).
  assert (length spikes = n) as Hspk.
  { subst spikes. apply length_assign_scalar_where; [done|].
    rewrite length_zip_with. lia. }
  assert (length mask = n) as Hmask by (subst mask; by rewrite length_fmap).
  split; cbn; try done.
  - apply length_assign_where; done.
  - apply length_assign_where; [done..|].
    apply length_assign_where; [done| |done]. by rewrite length_fmap.
Qed.



Lemma run_ready_stdp_ready (n : nat) (m : NeuromorphicModel) (a : Arrays)
    (input : list num) :
  run_ready n m a → kernels_consistent m → length input = n →
  stdp_ready n m a input.
Proof.
  intros [] Hk Hin. split; try done.
  - by apply lif_cpu_shaped.
  - by destruct run_arrays0.
Qed.

Lemma arrays_shaped_weights (n : nat) (W : list (list num)) (a : Arrays) :
  arrays_shaped n a → shape n n W → arrays_shaped n (set_arr_weights W a).
Proof. by intros []. Qed.

(** A tick keeps the shapes, and leaves the weights alone where the
    matrix of synapses with STDP holds 0. *)
Lemma cpu_tick_run_ready (n time_steps tick t1 : nat) (m m' : NeuromorphicModel)
    (a : Arrays) (input : list num) :
  run_ready n m a → _arrays m = Some a →
  _input_spikes a !! tick = Some input → length input = n →
  cpu_tick time_steps None tick m = (Ret t1, m') →
  ∃ a', _arrays m' = Some a' ∧ run_ready n m' a'
        ∧ _input_spikes a' = _input_spikes a
        ∧ _stdp_enabled_synapses a' = _stdp_enabled_synapses a
        ∧ (∀ p q, entry (_stdp_enabled_synapses a) p q = Some 0 →
             entry (_weights a') p q = entry (_weights a) p q).
Proof.
  intros Hready Ha Hin Hlen H.
  pose proof H as (a0 & input0 & Ha0 & Hin0 & Hk & -> & _)%cpu_tick_ret_inv.
  rewrite (cpu_tick_unfold _ _ _ _ _ Ha Hin Hk) in H. cbv zeta in H.
  pose proof (run_ready_stdp_ready n m a input Hready Hk Hlen) as Hstdp.
  pose proof Hready as [Hn Hn0 Htrain Hshaped Hmask Hp Hng Hdo Hap Han].
  pose proof (lif_cpu_shaped n input a Hshaped Hlen) as Hshaped'.
  set (a' := lif_cpu input a) in *.
  set (t := (stdp_window m `min` length (spike_train m))%nat) in *.
  set (train := spike_train m ++ [_spikes a']) in *.
  assert (Forall (λ row, length row = n) train) as Hrows.
  { apply Forall_app. split; [done|]. apply Forall_singleton.
    by destruct Hshaped'. }
  destruct (_do_stdp a && bool_decide (0 < t)%nat) eqn:Hguard.
  - apply andb_true_iff in Hguard as [Hact _].
    destruct (stdp_cpu _ _ _ _ _ _) as [w|] eqn:Hcpu; [|done].
    injection H as <-. rewrite Hn in Hcpu.
    assert (t + 1 ≤ length train)%nat as Ht.
    { subst t train. rewrite length_app. cbn [length]. lia. }
    destruct (window_within_kernels n m a input t Hstdp) as [Hkp Hkn];
      [subst t; lia|].
    assert (shape n n (_weights a')) as HW by by destruct Hshaped'.
    exists (set_arr_weights w a'). split; [done|].
    split; [|split; [done|split; [done|]]].
    + split; try done.
      apply arrays_shaped_weights; [done|].
      by destruct (stdp_cpu_keeps n t train (_stdp_Apos m) (_stdp_Aneg m) a' w
                     0 0 Hn0 Hrows Ht Hkp Hkn HW (Hmask Hact) Hap Han Hcpu).
    + intros p q Hm.
      destruct (stdp_cpu_keeps n t train (_stdp_Apos m) (_stdp_Aneg m) a' w
                  p q Hn0 Hrows Ht Hkp Hkn HW (Hmask Hact) Hap Han Hcpu)
        as [_ Hkeep].
      by apply Hkeep.
  - injection H as <-. exists a'. split; [done|].
    split; [|done]. by split.
Qed.


(** So does the loop. *)
Lemma cpu_loop_run_ready (n time_steps k tick t1 : nat)
    (m m' : NeuromorphicModel) (a : Arrays) :
  run_ready n m a → _arrays m = Some a →
  (∀ j row, (tick ≤ j < tick + k)%nat → _input_spikes a !! j = Some row →
     length row = n) →
  for_range k (cpu_tick time_steps None) tick m = (Ret t1, m') →
  ∃ a', _arrays m' = Some a' ∧ shape n n (_weights a')
        ∧ (∀ p q, entry (_stdp_enabled_synapses a) p q = Some 0 →
             entry (_weights a') p q = entry (_weights a) p q).
Proof.
  revert tick m a. induction k as [|k IH]; intros tick m a Hready Ha Hrows H;
    cbn [for_range] in H.
  - injection H as _ <-. exists a. split; [done|]. split; [|done].
    by destruct Hready as [_ _ _ [] _ _ _ _ _ _].
  - monad_step H.
    pose proof Hc as (a0 & input & Ha0 & Hin & _ & -> & _)%cpu_tick_ret_inv.
    assert (a0 = a) as -> by congruence.
    destruct (cpu_tick_run_ready n _ _ _ _ _ _ input Hready Ha Hin
                (Hrows tick input ltac:(lia) Hin) Hc)
      as (a1 & Ha1 & Hready1 & Hsame & Hmask1 & Hkeep1).
    destruct (IH (S tick) x0 a1 Hready1 Ha1) as (a' & Ha' & Hsh & Hkeep); [|done|].
    { intros j row Hj. rewrite Hsame. apply Hrows. lia. }
    exists a'. split; [done|]. split; [done|].
    intros p q Hm. rewrite Hkeep by by rewrite Hmask1. by apply Hkeep1.
Qed.

(** Writing back what was read at the synapse positions restores a
    matrix that holds 0 wherever no synapse is. *)
Lemma mat_assign_gather (n : nat) (rows cols : list Z) (W W1 : list (list num))
    (ws : list num) :
  shape n n W → supported n rows cols W →
  mat_gather n W rows cols = Ret ws →
  mat_assign n (zeros2 zero n n) rows cols ws = Ret W1 →
  W1 = W.
Proof.
  intros Hsh Hsup Hgather Hassign.
  apply mat_assign_entries in Hassign as (Hsh1 & Hkeep & Hlast);
    [|apply shape_zeros2].
  apply mat_gather_entries in Hgather as [_ Hread].
  apply (matrix_eq n n); [done..|]. intros p q Hp Hq.
  destruct (addressed n rows cols p q) eqn:E.
  - apply addressed_last in E as (k & r & c & Hr & Hc & Hrp & Hcq & Hlater).
    destruct (Hread k r c Hr Hc) as (p' & q' & v & Hrp' & Hcq' & Hv & Hws).
    assert (p' = p) as -> by congruence. assert (q' = q) as -> by congruence.
    rewrite Hv. by apply (Hlast k r c v).
  - rewrite (Hkeep p q E), (Hsup p q Hp Hq E). by apply entry_zeros2.
Qed.


Lemma input_row_length (n : nat) (d : option spikes_dict) (row : list num) :
  input_row n d = Ret row → length row = n.
Proof.
  destruct d as [d|]; cbn [input_row].
  - intros H. apply write_row_length in H. rewrite H. apply length_replicate.
  - intros [= <-]. apply length_replicate.
Qed.

Lemma active_positive (m : NeuromorphicModel) :
  (positive_update_active m = true → stdp_positive_update m = true)
  ∧ (negative_update_active m = true → stdp_negative_update m = true).
Proof.
  unfold positive_update_active, negative_update_active.
  split; intros H; by repeat (apply andb_true_iff in H as [H ?]).
Qed.

(** With an active update there is a synapse, and so a neuron. *)
Lemma active_nonempty (m : NeuromorphicModel) (mask : list (list Z)) :
  positive_update_active m || negative_update_active m = true →
  stdp_enabled_mat m = Ret mask →
  (0 < num_neurons m)%nat.
Proof.
  intros Hact Hmask.
  assert (existsb id (enable_stdp m) = true) as Hany.
  { unfold positive_update_active, negative_update_active in Hact.
    destruct (existsb id (enable_stdp m)); [done|].
    by rewrite !andb_false_r in Hact. }
  apply mat_assign_indices in Hmask as (_ & Hlen & Hrows & _).
  rewrite length_fmap in Hlen.
  destruct (pre_synaptic_neuron_ids m) as [|r rows] eqn:Hpre.
  - destruct (enable_stdp m); done.
  - destruct (Hrows 0%nat r eq_refl) as [p Hp%np_index_lt]. lia.
Qed.

(** The arrays [_setup] builds for a well-formed model are ready. *)
Lemma setup_run_ready (m : NeuromorphicModel) (W : list (list num))
    (mask : list (list Z)) (X : list (list num)) (ns rs ws : list num)
    (sch : gmap Z spikes_dict) (arr : option Arrays) :
  neuron_lists_aligned m →
  Forall (λ row, length row = num_neurons m) (spike_train m) →
  Forall Num.is_finite (_stdp_Apos m) → Forall Num.is_finite (_stdp_Aneg m) →
  weight_mat m = Ret W → setup_mask m = Ret mask →
  positive_update_active m || negative_update_active m = true →
  run_ready (num_neurons m) (with_run ns rs ws sch (spike_train m) arr m)
    (set_arr_input_spikes X (setup_arrays m W mask)).
Proof.
  intros (Hlk & Hst & Hrs & Hrp & Hrf) Htrain Hap Han HW Hmask Hact.
  unfold setup_mask in Hmask. rewrite Hact in Hmask.
  pose proof (active_nonempty m mask Hact Hmask) as Hn0.
  apply mat_assign_entries in HW as (HWsh & _); [|apply shape_zeros2].
  apply mat_assign_entries in Hmask as (Hmsh & _); [|apply shape_zeros2].
  split; try done.
  - split; try done.
    + cbn. by rewrite length_fmap.
    + cbn. unfold previous_spikes.
      destruct (last (spike_train m)) as [s|] eqn:Hlast.
      * apply last_Some_elem_of in Hlast.
        by apply (proj1 (Forall_forall _ _) Htrain).
      * apply length_replicate.
  - exact (proj1 (active_positive m)).
  - exact (proj2 (active_positive m)).
Qed.

(** Two runs of the reference backend in a row are one run of the
    summed length, with STDP as without: for a model whose per-neuron
    lists and logged spike vectors have one length and whose kernels
    are finite, when [simulate_cpu] for [a] ticks and then for [b]
    ticks returns, so does [simulate_cpu] for [a + b] ticks from the
    same model, and it leaves the same model, learned weights
    included, but for the input matrix.  Between the two runs the
    weights go through [devec] and [weight_mat]; the matrix comes back
    because STDP never writes outside the synapses. *)
Theorem simulate_cpu_two_runs_with_stdp (a b : nat)
    (m m1 m2 : NeuromorphicModel) :
  manual_setup m = false → schedule_ok m →
  neuron_lists_aligned m →
  Forall (λ row, length row = num_neurons m) (spike_train m) →
  Forall Num.is_finite (_stdp_Apos m) → Forall Num.is_finite (_stdp_Aneg m) →
  simulate_cpu a None m = (Ret tt, m1) →
  simulate_cpu b None m1 = (Ret tt, m2) →
  ∃ m12,
    simulate_cpu (a + b) None m = (Ret tt, m12)
    ∧ forget_input_matrix m12 = forget_input_matrix m2.
Proof.
  intros Hman Hsched Haligned Htrain Hap Han.
  apply two_runs_core; [done|done|].
  intros Hact W mask X st c Wd sp rows ws W1 HW Hmask Hrows Hloop Hgather
    Hassign.
  set (n := num_neurons m) in *.
  pose proof (setup_run_ready m W mask X (neuron_states m)
                (neuron_refractory_periods_state m) (synaptic_weights m)
                (input_spikes m)
                (Some (set_arr_input_spikes X (setup_arrays m W mask)))
                Haligned Htrain Hap Han HW Hmask Hact) as Hready.
  fold n in Hready.
  assert (∀ j row, (0 ≤ j < 0 + a)%nat →
            _input_spikes (set_arr_input_spikes X (setup_arrays m W mask)) !! j
              = Some row → length row = n) as Hrl.
  { intros j row Hj Hrow. cbn [_input_spikes set_arr_input_spikes] in Hrow.
    destruct (Hrows j ltac:(lia)) as (row' & Hrow' & Hin).
    assert (row' = row) as -> by congruence.
    by apply input_row_length in Hin. }
  destruct (cpu_loop_run_ready n _ _ _ _ _ _ _ Hready eq_refl Hrl Hloop)
    as (a' & Ha' & Hsh & Hkeep).
  injection Ha' as <-. cbn in Hsh, Hkeep.
  assert (length Wd = n) as HlenW by apply Hsh. rewrite HlenW in Hgather.
  apply (mat_assign_gather n (pre_synaptic_neuron_ids m)
           (post_synaptic_neuron_ids m) Wd W1 ws Hsh); [|done|done].
  unfold setup_mask in Hmask. rewrite Hact in Hmask.
  apply mat_assign_entries in HW as (_ & HW0 & _); [|apply shape_zeros2].
  apply mat_assign_entries in Hmask as (_ & Hm0 & _); [|apply shape_zeros2].
  intros p q Hp Hq E. rewrite Hkeep.
  - rewrite (HW0 p q E). by apply entry_zeros2.
  - rewrite (Hm0 p q E). by apply entry_zeros2.
Qed.

Lemma simulate_cpu_two_runs_with_stdp_witness :
  let m := stdp_pair in
  let m1 := after (simulate_cpu 2 None) m in
  let m2 := after (simulate_cpu 1 None) m1 in
  ∃ m12,
    simulate_cpu (2 + 1) None m = (Ret tt, m12)
    ∧ forget_input_matrix m12 = forget_input_matrix m2.
Proof.
  intros m m1 m2. apply (simulate_cpu_two_runs_with_stdp 2 1 m m1 m2).
  - reflexivity.
  - apply (schedule_ok_ext
             (spike_added 1 0 one (spike_added 0 0 one two_neurons)));
      [by vm_compute|].
    apply spike_added_schedule_ok; [|lia].
    apply spike_added_schedule_ok; [|lia]. by apply schedule_ok_empty.
  - by vm_compute.
  - constructor.
  - by repeat constructor.
  - by repeat constructor.
  - by vm_compute.
  - by vm_compute.
Defined.

(** In that example the first run changes the weight. *)
Example stdp_pair_learns :
  synaptic_weights (after (simulate_cpu 2 None) stdp_pair) ≠
  synaptic_weights stdp_pair.
Proof. by vm_compute. Qed.

(** ** The refractory period after a spike *)

Lemma neuron_step_spike (th l r original x w s c : num) :
  t_spike (neuron_step th l r original x w s c) ≠ 0 →
  t_refractory (neuron_step th l r original x w s c) = original.
Proof.
  unfold neuron_step. cbn [t_spike t_refractory].
  by destruct (if Num.gtb c zero then false else _).
Qed.

(** A neuron that spikes at a tick does not spike at any of the next
    [refractory_period] ticks, whatever it receives: in a run of the
    reference backend without STDP, when the spike vector logged at a
    tick has 1 for a neuron of period [zp], the vector logged [k] ticks
    later, [0 < k <= zp], has 0 for it. *)
Theorem spike_starts_refractory_period (time_steps k tick t1 t2 : nat)
    (m m1 m2 : NeuromorphicModel) (a : Arrays) (i : nat) (th l r s c : num)
    (zp : Z) (fired : list Z) :
  _arrays m = Some a → _do_stdp a = false →
  neuron_view a i th l r (of_Z zp) s c →
  Forall (λ row : list num, (i < length row)%nat) (_input_spikes a) →
  cpu_tick time_steps None tick m = (Ret t1, m1) →
  last (spike_train m1) = Some fired → fired !! i = Some 1 →
  (0 < k)%nat → Z.of_nat k ≤ zp →
  for_range k (cpu_tick time_steps None) t1 m1 = (Ret t2, m2) →
  ∃ row, last (spike_train m2) = Some row ∧ row !! i = Some 0.
Proof.
  intros Ha Hdo Hview Hin Htick Hlast Hfired Hk0 Hk Hloop.
  destruct (cpu_tick_without_stdp _ _ _ _ _ _ Ha Hdo Htick)
    as (input & Hrow & -> & ->).
  assert (fired = _spikes (lif_cpu input a)) as ->.
  { unfold logged, append_spike_train in Hlast.
    cbn [spike_train set_spike_train set_arrays] in Hlast.
    rewrite last_snoc in Hlast. congruence. }
  pose proof (proj1 (Forall_lookup _ _) Hin _ _ Hrow) as Hi.
  destruct (lookup_lt_is_Some_2 input i Hi) as [x Hx].
  pose proof (lif_cpu_neuron a input i th l r (of_Z zp) s c x Hview Hx) as Hn.
  cbv zeta in Hn. destruct Hn as (Hs1 & Hc1 & Hsp1).
  assert (t_spike (neuron_step th l r (of_Z zp) x
                     (contribution (_weights a) (_spikes a) i) s c) = 1)
    as Hone by congruence.
  rewrite neuron_step_spike in Hc1 by (rewrite Hone; lia).
  assert (0 ≤ zp) as Hzp by lia.
  set (s1 := t_state _) in Hs1.
  assert (neuron_view (lif_cpu input a) i th l r (of_Z zp) s1 (of_Z zp)) as Hview1.
  { destruct Hview. split; [done..|exact Hs1|exact Hc1|done]. }
  destruct (cpu_loop_without_stdp _ _ _ _ (logged (lif_cpu input a) m) _
              (lif_cpu input a) eq_refl Hdo Hloop)
    as (a' & Hrun & Ha' & _ & _ & Hlast').
  destruct (lif_cpu_ticks_refractory k (S tick) (lif_cpu input a) a' i th l r s1
              zp zp Hview1 Hin Hzp Hk Hrun) as [_ Hspike].
  exists (_spikes a'). split; [by apply Hlast'|by apply Hspike].
Qed.

Lemma spike_starts_refractory_period_witness :
  let m1 := after (cpu_tick 3 None 0) eager_neuron in
  let m2 := after (for_range 2 (cpu_tick 3 None) 1%nat) m1 in
  ∃ row, last (spike_train m2) = Some row ∧ row !! 0%nat = Some 0.
Proof.
  intros m1 m2.
  refine (spike_starts_refractory_period 3 2 0 1 3 eager_neuron m1 m2
            (default empty_arrays (_arrays eager_neuron)) 0 zero PInf zero zero
            zero 2 [1] _ _ _ _ _ _ _ _ _ _).
  - by vm_compute.
  - reflexivity.
  - split; try reflexivity. vm_compute. lia.
  - vm_compute. repeat constructor.
  - by vm_compute.
  - by vm_compute.
  - reflexivity.
  - lia.
  - lia.
  - by vm_compute.
Defined.

(** ** The GPU backend *)

Section GpuRuns.

Variable env : Env.
Variable k_post : list (list num) → list Z → list num → list num.
Variable k_lif :
  list num → list Z → list num → list num → list num → list num →
  list num → list num → list num → list Z * list num * list num.
Variable k_stdp :
  list (list num) → list Z → list Z → list (list Z) → num → num →
  list (list num).

(** [simulate_gpu] wants the two STDP kernels of one length, whether
    STDP is on or off and whichever update is enabled: with kernels of
    different lengths the call raises before its first tick, so no
    spike vector is logged and the neuron states are as they were; past
    [_setup] and [setup_input_spikes] the error is [ValueError]. *)
Theorem simulate_gpu_rejects_unequal_kernels (time_steps : nat)
    (m : NeuromorphicModel) :
  numba_installed env = true → manual_setup m = false →
  length (_stdp_Apos m) ≠ length (_stdp_Aneg m) →
  ∃ e m',
    simulate_gpu env k_post k_lif k_stdp time_steps None m = (Raise e, m')
    ∧ spike_train m' = spike_train m
    ∧ neuron_states m' = neuron_states m
    ∧ ∀ m1, (do_ _setup; setup_input_spikes time_steps)
              (set_last_used_backend (Some "gpu") m) = (Ret tt, m1) →
            e = ValueError ∧ m' = m1.
Proof.
  intros Hnumba Hman Hlen. unfold simulate_gpu, check_gpu.
  unfold bind at 1. unfold modify at 1. cbn [fst snd].
  set (m0 := set_last_used_backend (Some "gpu") m).
  rewrite Hnumba. unfold bind at 1. unfold ret at 1. cbn [fst snd].
  unfold bind at 1. unfold gets at 1. cbn [fst snd].
  unfold bind at 1. unfold gets at 1. cbn [fst snd].
  change (manual_setup m0) with (manual_setup m). rewrite Hman. cbn [negb].
  assert (preserves (λ m, (spike_train m, neuron_states m, _stdp_Apos m,
                           _stdp_Aneg m))
            (do_ _setup; setup_input_spikes time_steps)) as Hpre.
  { unfold _setup, setup_input_spikes, update_arrays. repeat preserves_step. }
  specialize (Hpre m0). unfold bind at 1.
  destruct ((do_ _setup; setup_input_spikes time_steps) m0) as [[[]|e] m1] eqn:H1;
    cbn [snd] in Hpre; injection Hpre as Htr Hst Hap Han.
  - unfold bind at 1. unfold get at 1. cbn [fst snd].
    unfold bind at 1. rewrite Hap, Han.
    rewrite bool_decide_eq_false_2 by done. cbn [negb raise_if raise].
    exists ValueError, m1. split_and!; try done. by intros ? [= <-].
  - exists e, m1. split_and!; try done.
Qed.

End GpuRuns.

Lemma simulate_gpu_rejects_unequal_kernels_witness :
  let m := set_stdp_Apos [one] two_neurons in
  ∃ e m',
    simulate_gpu (MkEnv true true)
      (λ _ _ p, p) (λ _ s _ st _ _ _ r _, (s, st, r)) (λ w _ _ _ _ _, w)
      1 None m = (Raise e, m')
    ∧ spike_train m' = spike_train m
    ∧ neuron_states m' = neuron_states m
    ∧ ∀ m1, (do_ _setup; setup_input_spikes 1)
              (set_last_used_backend (Some "gpu") m) = (Ret tt, m1) →
            e = ValueError ∧ m' = m1.
Proof.
  intros m. apply (simulate_gpu_rejects_unequal_kernels (MkEnv true true)).
  - reflexivity.
  - reflexivity.
  - vm_compute. lia.
Defined.

(** The reference backend refuses that model too, with both updates
    enabled, but only at the end of its first tick and with the
    [AssertionError] of [stdp_time_steps]. *)
Example simulate_cpu_asserts_on_unequal_kernels :
  (simulate_cpu 1 None (set_stdp_Apos [one] two_neurons)).1
  = Raise AssertionError.
Proof. by vm_compute. Qed.

(** ** Resetting and releasing *)

Lemma cpu_tick_without_stdp_intro (time_steps tick : nat) (m : NeuromorphicModel)
    (a : Arrays) (input : list num) :
  _arrays m = Some a → _input_spikes a !! tick = Some input →
  kernels_consistent m → _do_stdp a = false →
  cpu_tick time_steps None tick m = (Ret (S tick), logged (lif_cpu input a) m).
Proof.
  intros Ha Hin Hk Hdo. rewrite (cpu_tick_unfold _ _ _ _ _ Ha Hin Hk).
  cbv zeta. change (_do_stdp (lif_cpu input a)) with (_do_stdp a).
  by rewrite Hdo.
Qed.


Lemma set_spike_train_id (m : NeuromorphicModel) :
  set_spike_train (spike_train m) m = m.
Proof. by destruct m. Qed.

(** Without STDP the loop reads the dense arrays and nothing else of
    the model but the kernel lengths: from two models with the same
    arrays and kernels it logs the same rows and leaves the same
    arrays. *)
Lemma cpu_loop_same_arrays (time_steps k tick t1 : nat)
    (m m1 m' : NeuromorphicModel) (a : Arrays) :
  _arrays m = Some a → _do_stdp a = false → _arrays m' = Some a →
  stdp_positive_update m' = stdp_positive_update m →
  stdp_negative_update m' = stdp_negative_update m →
  _stdp_Apos m' = _stdp_Apos m → _stdp_Aneg m' = _stdp_Aneg m →
  for_range k (cpu_tick time_steps None) tick m = (Ret t1, m1) →
  ∃ rows a1,
    m1 = set_spike_train (spike_train m ++ rows) (set_arrays (Some a1) m)
    ∧ for_range k (cpu_tick time_steps None) tick m'
      = (Ret t1, set_spike_train (spike_train m' ++ rows)
                   (set_arrays (Some a1) m')).
Proof.
  revert tick m m' a. induction k as [|k IH];
    intros tick m m' a Ha Hdo Ha' Hp Hn Hap Han H; cbn [for_range] in *.
  - injection H as <- <-. exists [], a.
    by rewrite !app_nil_r, !set_arrays_id, !set_spike_train_id.
  - monad_step H.
    pose proof Hc as (_ & _ & _ & _ & Hk & _ & _)%cpu_tick_ret_inv.
    destruct (cpu_tick_without_stdp _ _ _ _ _ _ Ha Hdo Hc)
      as (input & Hin & -> & ->).
    assert (kernels_consistent m') as Hk'.
    { unfold kernels_consistent. by rewrite Hp, Hn, Hap, Han. }
    unfold bind.
    rewrite (cpu_tick_without_stdp_intro _ _ _ _ _ Ha' Hin Hk' Hdo).
    destruct (IH (S tick) (logged (lif_cpu input a) m)
                (logged (lif_cpu input a) m') (lif_cpu input a)
                eq_refl Hdo eq_refl Hp Hn Hap Han H) as (rows & a1 & -> & ->).
    exists (_spikes (lif_cpu input a) :: rows), a1.
    unfold logged, append_spike_train.
    cbn [spike_train set_spike_train set_arrays]. by rewrite <- !app_assoc.
Qed.

Lemma simulate_cpu_manual (time_steps : nat) (m : NeuromorphicModel) :
  manual_setup m = true →
  simulate_cpu time_steps None m =
    let r := for_range time_steps (cpu_tick time_steps None) 0%nat
               (set_last_used_backend (Some "cpu") m) in
    (match r.1 with Ret _ => Ret tt | Raise e => Raise e end, r.2).
Proof.
  intros Hman. unfold simulate_cpu.
  unfold bind at 1. unfold modify at 1. cbn [fst snd].
  unfold bind at 1. unfold gets at 1. cbn [fst snd].
  change (manual_setup (set_last_used_backend (Some "cpu") m))
    with (manual_setup m).
  rewrite Hman. cbn [negb]. unfold bind at 1. unfold ret at 1. cbn [fst snd].
  pose proof (preserves_manual_setup_cpu_loop time_steps time_steps 0
                (set_last_used_backend (Some "cpu") m)) as Hloop.
  unfold bind at 1.
  destruct (for_range _ _ _ _) as [[t|e] m1]; [|done].
  cbn [fst snd] in *. unfold bind, gets. cbn [fst snd].
  change (manual_setup (set_last_used_backend (Some "cpu") m))
    with (manual_setup m) in Hloop.
  by rewrite Hloop, Hman.
Qed.


Lemma reset_unfold (m : NeuromorphicModel) :
  reset m =
    (Ret tt,
     set_spike_train []
       (set_neuron_refractory_periods_state (zeros (num_neurons m))
          (set_neuron_states (zeros (num_neurons m)) m))).
Proof. reflexivity. Qed.

(** Under [manual_setup], [reset] does not reset the simulation: it
    zeroes the two lists and empties the spike train, but the next run
    reads the dense arrays, which [reset] leaves alone.  Without STDP a
    run after [reset] logs the same spike vectors and leaves the same
    dense arrays as the run without it; the list [neuron_states] stays
    at zero, as no [devec] follows. *)
Theorem reset_ignored_under_manual_setup (time_steps : nat)
    (m m1 : NeuromorphicModel) (a : Arrays) :
  manual_setup m = true → _arrays m = Some a → _do_stdp a = false →
  simulate_cpu time_steps None m = (Ret tt, m1) →
  ∃ m2 rows,
    simulate_cpu time_steps None (after reset m) = (Ret tt, m2)
    ∧ spike_train m1 = spike_train m ++ rows
    ∧ spike_train m2 = rows
    ∧ _arrays m2 = _arrays m1
    ∧ neuron_states m2 = zeros (num_neurons m).
Proof.
  intros Hman Ha Hdo H. rewrite simulate_cpu_manual in H by done.
  cbv zeta in H.
  destruct (for_range _ _ _ _) as [[t|e] m1'] eqn:Hloop; [|done].
  cbn [fst snd] in H. injection H as <-.
  unfold after. rewrite reset_unfold. cbn [snd].
  set (m' := set_spike_train [] _).
  destruct (cpu_loop_same_arrays _ _ _ _
              (set_last_used_backend (Some "cpu") m) _
              (set_last_used_backend (Some "cpu") m') a Ha Hdo Ha eq_refl eq_refl
              eq_refl eq_refl Hloop) as (rows & a1 & -> & Hloop').
  eexists _, rows. rewrite simulate_cpu_manual by done. cbv zeta.
  rewrite Hloop'. cbn [fst snd]. split_and!; reflexivity.
Qed.


Lemma reset_ignored_under_manual_setup_witness :
  let m := manual_neuron in
  let m1 := after (simulate_cpu 3 None) m in
  ∃ m2 rows,
    simulate_cpu 3 None (after reset m) = (Ret tt, m2)
    ∧ spike_train m1 = spike_train m ++ rows
    ∧ spike_train m2 = rows
    ∧ _arrays m2 = _arrays m1
    ∧ neuron_states m2 = zeros (num_neurons m).
Proof.
  intros m m1.
  apply (reset_ignored_under_manual_setup 3 m m1
           (default empty_arrays (_arrays m))).
  - reflexivity.
  - by vm_compute.
  - reflexivity.
  - by vm_compute.
Defined.

(** In that example the run after [reset] logs the three spike vectors
    of the run without it. *)
Example manual_neuron_spikes_after_reset :
  spike_train (after (simulate_cpu 3 None) (after reset manual_neuron))
  = [[1]; [0]; [0]].
Proof. by vm_compute. Qed.

Lemma release_mem_unfold (m : NeuromorphicModel) :
  release_mem m =
    match _arrays m with
    | Some _ => (Ret tt, set_arrays None m)
    | None => (Raise AttributeError, m)
    end.
Proof. unfold release_mem, arrays, bind, gets. cbn. by destruct (_arrays m). Qed.

(** [release_mem] between two runs changes nothing when [manual_setup]
    is off and [_setup] succeeds: the next run rebuilds every array it
    reads, so it ends as it would have without the release, with the
    same outcome and the same model.  (The matrix
    [_stdp_enabled_synapses] is rebuilt only when an STDP update is
    active; otherwise it is not read, and is taken here to be empty.
    When [_setup] raises, it has rebuilt some arrays and not others,
    and the two runs need not leave the same arrays.) *)
Theorem release_mem_then_simulate (time_steps : nat)
    (m m' : NeuromorphicModel) (a : Arrays) :
  manual_setup m = false → _arrays m = Some a →
  positive_update_active m || negative_update_active m = true
  ∨ _stdp_enabled_synapses a = [] →
  (_setup m).1 = Ret tt →
  release_mem m = (Ret tt, m') →
  simulate_cpu time_steps None m' = simulate_cpu time_steps None m.
Proof.
  intros Hman Ha Hmask Hsetup H. rewrite release_mem_unfold, Ha in H.
  injection H as <-.
  pose proof (_setup_unfold (set_last_used_backend (Some "cpu") m)) as H0.
  pose proof (_setup_unfold
                (set_last_used_backend (Some "cpu") (set_arrays None m))) as H1.
  rewrite _setup_unfold in Hsetup.
  change (weight_mat (set_last_used_backend _ (set_arrays None m)))
    with (weight_mat m) in H1.
  change (weight_mat (set_last_used_backend _ m)) with (weight_mat m) in H0.
  unfold setup_mask in H0, H1, Hsetup.
  change (positive_update_active (set_last_used_backend _ _))
    with (positive_update_active m) in H0, H1.
  change (negative_update_active (set_last_used_backend _ _))
    with (negative_update_active m) in H0, H1.
  change (stdp_enabled_mat (set_last_used_backend _ _))
    with (stdp_enabled_mat m) in H0, H1.
  cbn [_arrays set_last_used_backend set_arrays from_option] in H0, H1.
  rewrite Ha in H0, Hsetup. cbn [from_option] in H0, Hsetup.
  assert ((if positive_update_active m || negative_update_active m
           then stdp_enabled_mat m else Ret (_stdp_enabled_synapses a))
          = (if positive_update_active m || negative_update_active m
             then stdp_enabled_mat m else Ret [])) as Hm.
  { destruct (_ || _); [done|]. destruct Hmask as [Hf|Hm]; [done|by rewrite Hm]. }
  rewrite Hm in H0, Hsetup. clear Hm.
  unfold simulate_cpu, bind, modify, gets. cbn [fst snd].
  change (manual_setup (set_last_used_backend _ (set_arrays None m)))
    with (manual_setup m).
  change (manual_setup (set_last_used_backend _ m)) with (manual_setup m).
  rewrite Hman. cbn [negb].
  fold (set_last_used_backend (Some "cpu") m) in H0.
  fold (set_last_used_backend (Some "cpu") (set_arrays None m)) in H1.
  rewrite H0, H1.
  destruct (weight_mat m) as [W|e]; [|done].
  by destruct (if _ || _ then _ else _) as [mask|e].
Qed.

Lemma release_mem_then_simulate_witness :
  let m := after (simulate_cpu 1 None) twice_at_tick_one in
  let m' := after release_mem m in
  simulate_cpu 1 None m' = simulate_cpu 1 None m.
Proof.
  intros m m'.
  apply (release_mem_then_simulate 1 m m' (default empty_arrays (_arrays m))).
  - reflexivity.
  - by vm_compute.
  - right. by vm_compute.
  - by vm_compute.
  - by vm_compute.
Defined.

(** Under [manual_setup], a model whose arrays were released cannot
    run until [setup] is called again: [simulate_cpu] raises
    [AttributeError] at its first tick, with nothing logged; so do
    [devec] and a second [release_mem]. *)
Theorem release_mem_needs_setup (time_steps : nat) (m m' : NeuromorphicModel) :
  manual_setup m = true → (0 < time_steps)%nat →
  release_mem m = (Ret tt, m') →
  simulate_cpu time_steps None m'
    = (Raise AttributeError, set_last_used_backend (Some "cpu") m')
  ∧ devec m' = (Raise AttributeError, m')
  ∧ release_mem m' = (Raise AttributeError, m').
Proof.
  intros Hman HT H. rewrite release_mem_unfold in H.
  destruct (_arrays m) as [a|] eqn:Ha; [|done]. injection H as <-.
  split; [|split].
  - rewrite simulate_cpu_manual by done. cbv zeta.
    destruct time_steps as [|k]; [lia|]. reflexivity.
  - reflexivity.
  - reflexivity.
Qed.

Lemma release_mem_needs_setup_witness :
  let m' := after release_mem manual_neuron in
  simulate_cpu 3 None m'
    = (Raise AttributeError, set_last_used_backend (Some "cpu") m')
  ∧ devec m' = (Raise AttributeError, m')
  ∧ release_mem m' = (Raise AttributeError, m').
Proof.
  intros m'. apply (release_mem_needs_setup 3 manual_neuron m').
  - reflexivity.
  - lia.
  - by vm_compute.
Defined.

(** ** [stdp_setup] *)

Lemma kernel_floats_length (l : list pyval) (k : list num) :
  kernel_floats (KList l) = Some k → length k = length l.
Proof. cbn. intros H. symmetry. by eapply length_mapM. Qed.

Lemma check_kernel_length (k : kernel_arg) (z : Z) (l : list num) :
  check_kernel k z = None → kernel_floats k = Some l →
  Z.of_nat (length l) = z.
Proof.
  destruct k as [|vs]; [done|]. cbn [check_kernel].
  case_bool_decide as Hlen; [done|]. intros _ Hk.
  apply kernel_floats_length in Hk. lia.
Qed.

(** The checks of [stdp_setup] are what [stdp_time_steps] needs: after
    a call that passed them, with kernels given as lists of numbers and
    one update or both enabled, [stdp_time_steps] returns
    [int(time_steps)], which is positive, and its assertion on the two
    lengths does not fail; a synapse has STDP enabled.  The kernel of a
    disabled update has not been looked at. *)
Theorem stdp_setup_fixes_window (time_steps : pyval) (Apos Aneg : kernel_arg)
    (positive_update negative_update : bool) (m : NeuromorphicModel)
    (ap an : list num) :
  stdp_setup time_steps Apos Aneg positive_update negative_update m
    = StdpAssigned Apos Aneg positive_update negative_update →
  kernel_floats Apos = Some ap → kernel_floats Aneg = Some an →
  positive_update || negative_update = true →
  let m' := stdp_assigned ap an positive_update negative_update m in
  ∃ z, py_int time_steps = Ret z ∧ 0 < z
       ∧ stdp_time_steps m' = (Ret (Z.to_nat z), m')
       ∧ existsb id (enable_stdp m') = true.
Proof.
  unfold stdp_setup. intros H Hap Han Hany.
  destruct (isinstance_int_float time_steps); [|done]. cbn [negb] in H.
  destruct (is_intlike time_steps) as [[|]|]; try done.
  destruct (py_int time_steps) as [z|]; [|done].
  case_bool_decide as Hz; [done|].
  destruct (if positive_update then _ else _) eqn:Hp; [done|].
  destruct (if negative_update then _ else _) eqn:Hn in H; [done|].
  destruct (existsb id (enable_stdp m)) eqn:Hen; [|done].
  exists z. split; [done|]. split; [lia|]. split; [|done].
  unfold stdp_time_steps, bind, gets, raise_if. cbn [fst snd].
  cbn [stdp_positive_update stdp_negative_update _stdp_Apos _stdp_Aneg
                 stdp_assigned].
  destruct positive_update.
  - pose proof (check_kernel_length _ _ _ Hp Hap) as Hlp.
    destruct negative_update.
    + pose proof (check_kernel_length _ _ _ Hn Han) as Hln.
      cbn [andb]. rewrite bool_decide_eq_true_2 by lia. cbn [negb].
      unfold ret. do 2 f_equal. lia.
    + cbn [andb]. unfold ret. do 2 f_equal. lia.
  - destruct negative_update; [|done].
    pose proof (check_kernel_length _ _ _ Hn Han) as Hln.
    cbn [andb]. unfold ret. do 2 f_equal. lia.
Qed.


Lemma stdp_setup_fixes_window_witness :
  let m' := stdp_assigned [one; one; one] [one; one; one] true true stdp_pair in
  ∃ z, py_int (PInt 3) = Ret z ∧ 0 < z
       ∧ stdp_time_steps m' = (Ret (Z.to_nat z), m')
       ∧ existsb id (enable_stdp m') = true.
Proof.
  apply (stdp_setup_fixes_window (PInt 3) (KList [PInt 1; PFloat one; PInt 1])
           (KList [PInt 1; PInt 1; PInt 1]) true true stdp_pair
           [one; one; one] [one; one; one]).
  - reflexivity.
  - reflexivity.
  - reflexivity.
  - reflexivity.
Defined.

(** Entries below zero pass the checks, and the kernel of a disabled
    update is stored unchecked, [None] included. *)
Example stdp_setup_negative_entries :
  stdp_setup (PInt 2) (KList [PInt (-1); PFloat (of_Z (-2))]) KNone true false
    stdp_pair
  = StdpAssigned (KList [PInt (-1); PFloat (of_Z (-2))]) KNone true false.
Proof. reflexivity. Qed.

(** Without a synapse that has STDP enabled the call ends in the
    [RuntimeError], after all its other checks. *)
Example stdp_setup_without_synapse :
  stdp_setup (PInt 1) (KList [PInt 1]) (KList [PInt 1]) true true two_neurons
  = StdpRuntimeError.
Proof. reflexivity. Qed.

(** ** The schedule after a run *)

(** [simulate_cpu] consumes the schedule exactly when it returns with
    [manual_setup] off: [consume_input_spikes] is its last statement,
    so a run that raises, at whatever point, leaves [input_spikes] as
    it was (the ticks logged before the failure stay in [spike_train]),
    and under [manual_setup] the schedule is never consumed. *)
Theorem simulate_cpu_consumes_iff_returns (time_steps : nat)
    (m : NeuromorphicModel) :
  input_spikes (simulate_cpu time_steps None m).2 =
    match (simulate_cpu time_steps None m).1 with
    | Ret _ =>
        if manual_setup m then input_spikes m
        else consumed time_steps (input_spikes m)
    | Raise _ => input_spikes m
    end.
Proof.
  destruct (simulate_cpu time_steps None m) as [o m'] eqn:H. cbn [fst snd].
  unfold simulate_cpu in H.
  unfold bind at 1 in H. unfold modify at 1 in H. cbn [fst snd] in H.
  set (m0 := set_last_used_backend (Some "cpu") m) in H.
  unfold bind at 1 in H. unfold gets at 1 in H. cbn [fst snd] in H.
  change (manual_setup m0) with (manual_setup m) in H.
  set (pre := if negb (manual_setup m)
              then do_ _setup; setup_input_spikes time_steps else ret tt) in H.
  assert (keeps_schedule pre) as Hpre.
  { subst pre. destruct (manual_setup m); cbn [negb]; [apply keeps_ret|].
    apply keeps_bind; [apply keeps__setup|intros _; apply keeps_setup_input_spikes]. }
  destruct (Hpre m0) as [Hs1 Hm1]. unfold bind at 1 in H.
  destruct (pre m0) as [[[]|e] m1]; cbn [fst snd] in *;
    [|by injection H as <- <-].
  destruct (keeps_for_range time_steps (cpu_tick time_steps None) 0%nat
              (keeps_cpu_tick time_steps) m1) as [Hs2 Hm2].
  unfold bind at 1 in H.
  destruct (for_range _ _ _ m1) as [[t|e] m2]; cbn [fst snd] in *;
    [|injection H as <- <-; by rewrite Hs2, Hs1].
  unfold bind at 1 in H. unfold gets at 1 in H. cbn [fst snd] in H.
  rewrite Hm2, Hm1 in H. change (manual_setup m0) with (manual_setup m) in H.
  destruct (manual_setup m); cbn [negb] in H.
  - injection H as <- <-. by rewrite Hs2, Hs1.
  - destruct (keeps_devec m2) as [Hs3 _]. unfold bind at 1 in H.
    destruct (devec m2) as [[[]|e] m3]; cbn [fst snd] in *.
    + unfold consume_input_spikes, bind, gets, modify in H. cbn [fst snd] in H.
      injection H as <- <-. cbn [input_spikes set_input_spikes]. unfold consumed.
      by rewrite Hs3, Hs2, Hs1.
    + injection H as <- <-. by rewrite Hs3, Hs2, Hs1.
Qed.


(** ** A network at rest *)

Lemma vsum_zeros (col : list num) (k : nat) :
  Forall Num.is_finite col →
  vsum (zip_with Num.mul col (replicate k (of_Z 0))) = zero.
Proof.
  intros Hcol. revert k. induction Hcol as [|x col Hx _ IH]; intros [|k]; try done.
  cbn [replicate zip_with vsum foldr]. fold (vsum (zip_with Num.mul col (replicate k (of_Z 0)))).
  rewrite IH. rewrite (finite_mul_zero x Hx). apply NumFacts.add_zero_l.
Qed.

Lemma contribution_silent (W : list (list num)) (n i : nat) :
  Forall (Forall Num.is_finite) W →
  contribution W (replicate n 0) i = zero.
Proof.
  intros HW. unfold contribution. rewrite fmap_replicate.
  apply vsum_zeros. unfold column. apply Forall_fmap.
  eapply Forall_impl; [exact HW|]. intros row Hrow. cbn.
  destruct (row !! i) as [x|] eqn:Hx; [|done]. cbn.
  by eapply (proj1 (Forall_lookup _ _) Hrow).
Qed.

Lemma neuron_step_at_rest (th l r original c : num) :
  Num.is_finite r → Num.gtb r th = false →
  t_state (neuron_step th l r original zero zero r c) = r
  ∧ t_spike (neuron_step th l r original zero zero r c) = 0.
Proof.
  intros Hr Hth. unfold neuron_step, leak_step. cbn [t_state t_spike].
  unfold Num.gtb. rewrite !NumFacts.ltb_irrefl.
  rewrite !NumFacts.add_zero_r. unfold Num.gtb in Hth. rewrite Hth.
  by destruct (Num.ltb zero c).
Qed.

(** A tick without input leaves a network at rest at rest. *)
Lemma lif_cpu_at_rest (n : nat) (a : Arrays) :
  at_rest n a → at_rest n (lif_cpu (zeros n) a).
Proof.
  intros [Hsh Hst Hfin Hbelow HW Hsp].
  pose proof (lif_cpu_shaped n (zeros n) a Hsh (length_replicate _ _)) as Hsh'.
  assert (∀ i, (i < n)%nat →
            ∃ r, _neuron_reset_states a !! i = Some r
                 ∧ _internal_states (lif_cpu (zeros n) a) !! i = Some r
                 ∧ _spikes (lif_cpu (zeros n) a) !! i = Some 0) as Hall.
  { intros i Hi. pose proof Hsh as [Hth Hlk Hrs Hor Hs Hrf [HWl _] _].
    destruct (lookup_lt_is_Some_2 (_neuron_thresholds a) i) as [th Hthi]; [lia|].
    destruct (lookup_lt_is_Some_2 (_neuron_leaks a) i) as [l Hli]; [lia|].
    destruct (lookup_lt_is_Some_2 (_neuron_reset_states a) i) as [r Hri]; [lia|].
    destruct (lookup_lt_is_Some_2 (_neuron_refractory_periods_original a) i)
      as [o Hoi]; [lia|].
    destruct (lookup_lt_is_Some_2 (_neuron_refractory_periods a) i)
      as [c Hci]; [lia|].
    assert (neuron_view a i th l r o r c) as Hview.
    { split; try done; [by rewrite Hst|]. by rewrite HWl. }
    pose proof (lif_cpu_neuron a (zeros n) i th l r o r c zero Hview
                  (lookup_replicate_2 _ _ _ Hi)) as Hn.
    cbv zeta in Hn. rewrite Hsp, contribution_silent in Hn by done.
    destruct Hn as (Hs' & _ & Hsp').
    destruct (neuron_step_at_rest th l r o c) as [Hts Htsp].
    { by eapply (proj1 (Forall_lookup _ _) Hfin). }
    { exact (Forall2_lookup_lr _ _ _ _ _ _ Hbelow Hri Hthi). }
    exists r. rewrite Hts in Hs'. rewrite Htsp in Hsp'. done. }
  split; try done.
  - apply (list_eq_same_length _ _ n); [by destruct Hsh'|by destruct Hsh'|].
    intros i x y Hi Hx Hy. destruct (Hall i Hi) as (r & Hr & Hs' & _).
    change (_neuron_reset_states (lif_cpu (zeros n) a))
      with (_neuron_reset_states a) in Hy. congruence.
  - apply (list_eq_same_length _ _ n); [by rewrite length_replicate|by destruct Hsh'|].
    intros i x y Hi Hx Hy. destruct (Hall i Hi) as (r & _ & _ & Hsp').
    rewrite lookup_replicate_2 in Hy by done. congruence.
Qed.


(** No input, no activity: from a network at rest, the loop of the
    reference backend without STDP, over ticks that have no input
    spike, returns, logs the zero vector at every tick and leaves every
    neuron at its state. *)
Theorem resting_network_stays_silent (time_steps k tick n : nat)
    (m : NeuromorphicModel) (a : Arrays) :
  _arrays m = Some a → _do_stdp a = false → kernels_consistent m →
  at_rest n a →
  (∀ j, (tick ≤ j < tick + k)%nat → _input_spikes a !! j = Some (zeros n)) →
  ∃ m1 a1,
    for_range k (cpu_tick time_steps None) tick m = (Ret (tick + k)%nat, m1)
    ∧ _arrays m1 = Some a1
    ∧ _internal_states a1 = _internal_states a
    ∧ spike_train m1 = spike_train m ++ replicate k (replicate n 0).
Proof.
  revert tick m a. induction k as [|k IH]; intros tick m a Ha Hdo Hk Hrest Hin;
    cbn [for_range].
  - exists m, a. rewrite Nat.add_0_r, app_nil_r. by split_and!.
  - unfold bind.
    rewrite (cpu_tick_without_stdp_intro _ _ _ _ _ Ha (Hin tick ltac:(lia)) Hk Hdo).
    pose proof (lif_cpu_at_rest n a Hrest) as Hrest'.
    destruct (IH (S tick) (logged (lif_cpu (zeros n) a) m) (lif_cpu (zeros n) a)
                eq_refl Hdo Hk Hrest')
      as (m1 & a1 & Hloop & Ha1 & Hst & Htrain).
    { intros j Hj. apply Hin. lia. }
    exists m1, a1. rewrite Hloop. split_and!.
    + do 2 f_equal. lia.
    + done.
    + rewrite Hst. destruct Hrest' as [_ -> _ _ _ _]. by destruct Hrest as [_ -> _ _ _ _].
    + rewrite Htrain. unfold logged, append_spike_train.
      cbn [spike_train set_spike_train set_arrays].
      destruct Hrest' as [_ _ _ _ _ ->]. by rewrite <- app_assoc.
Qed.

Lemma resting_network_stays_silent_witness :
  let m := after (setup_input_spikes 2) (after _setup two_neurons) in
  ∃ m1 a1,
    for_range 2 (cpu_tick 2 None) 0%nat m = (Ret (0 + 2)%nat, m1)
    ∧ _arrays m1 = Some a1
    ∧ _internal_states a1
      = _internal_states (default empty_arrays (_arrays m))
    ∧ spike_train m1 = spike_train m ++ replicate 2 (replicate 2 0).
Proof.
  intros m.
  apply (resting_network_stays_silent 2 2 0 2 m
           (default empty_arrays (_arrays m))).
  - by vm_compute.
  - reflexivity.
  - intros _ _. reflexivity.
  - split.
    + split; try reflexivity. split; [reflexivity|]. vm_compute. by repeat constructor.
    + reflexivity.
    + vm_compute. by repeat constructor.
    + vm_compute. by repeat constructor.
    + vm_compute. by repeat constructor.
    + reflexivity.
  - intros j Hj. destruct j as [|[|j]]; [by vm_compute|by vm_compute|lia].
Defined.

(** ** The first tick of a call, neuron by neuron *)






